(** * k8s-ai-bench: the task execution state machine, the cluster
    providers, the task loader and the pass@k scorer

    A shallow embedding of [eval.go], of the [kind] and [vcluster]
    cluster providers and of [passAtK] from [site/app.js].

    Everything the Go program does to the outside (running a process,
    sleeping, printing, touching a file) is an [Event] appended to a
    [World]; what the outside answers is read from the oracles of class
    [Outside].  The oracles may depend on the whole history, so a
    theorem proved for every [Outside] holds for every behaviour of the
    processes the harness starts. *)

From Stdlib Require Import QArith Qpower Qround Qreduction Qabs Lqa.
From stdpp Require Import base tactics option list strings pretty gmap.

Open Scope Z_scope.
Open Scope string_scope.
Open Scope list_scope.
Open Scope stdpp_scope.

(** ** Go errors *)

(** A Go [error] value: an opaque error with its message, an error
    built by [fmt.Errorf] with one [%w] operand (it keeps the operand
    for [errors.Unwrap]), or the result of [errors.Join]. *)
#[warnings="-register-all"]
Inductive error : Type :=
| errorString (s : string)
| wrapError (msg : string) (err : error)
| joinError (errs : list error).

(** [strings.Join] *)
Fixpoint strings_Join (elems : list string) (sep : string) : string :=
  match elems with
  | [] => ""
  | [a] => a
  | a :: rest => a +:+ sep +:+ strings_Join rest sep
  end.

Definition newline : string := String (Ascii.ascii_of_nat 10) "".

(** The [Error()] method. *)
Fixpoint Error (e : error) : string :=
  match e with
  | errorString s => s
  | wrapError msg _ => msg
  | joinError errs => strings_Join (map Error errs) newline
  end.

(** [errors.Unwrap] *)
Definition Unwrap (e : error) : option error :=
  match e with
  | wrapError _ err => Some err
  | _ => None
  end.

(** [fmt.Errorf(prefix + "%w", err)]: every wrapping format of the
    program ends in its [%w] operand.  A nil operand is printed as
    [%!w(<nil>)] and nothing is wrapped. *)
Definition Errorf_w (prefix : string) (err : option error) : error :=
  match err with
  | Some e => wrapError (prefix +:+ Error e) e
  | None => errorString (prefix +:+ "%!w(<nil>)")
  end.

(** [errors.Join]: nil operands are discarded, and the result is nil
    when nothing is left. *)
Definition errors_Join (errs : list (option error)) : option error :=
  match omap id errs with
  | [] => None
  | es => Some (joinError es)
  end.

(** A Go pair [(value, error)]. *)
Inductive res (A : Type) : Type :=
| Ok (a : A)
| Err (e : error).
Arguments Ok {A} a.
Arguments Err {A} e.

(** ** Processes and the world *)

(** Which context an [exec.Cmd] was created with: [exec.Command] has
    none, [exec.CommandContext] gets the task's deadline context or
    [context.Background()]. *)
Inductive ctxKind : Type := NoCtx | TaskCtx | BackgroundCtx.

Record Cmd : Type := mkCmd {
  cmd_ctx : ctxKind;
  cmd_Path : string;
  cmd_Args : list string;   (* without the program name *)
  cmd_Dir : string;
  cmd_Env : list string;
  cmd_Stdin : list string;  (* the lines written to standard input *)
}.

(** What a finished process leaves behind: its standard output, what it
    wrote to output and error together in the order written, and the
    error of [cmd.Run]. *)
Record CmdResult : Type := mkCmdResult {
  res_stdout : string;
  res_combined : string;
  res_err : option error;
}.

Definition Duration : Type := Z.      (* nanoseconds *)
Definition Second : Duration := 1000000000.
Definition Minute : Duration := 60 * Second.

Inductive Event : Type :=
| EvExec (c : Cmd) (r : CmdResult)
| EvSleep (d : Duration)
| EvPrint (s : string)
| EvWriteFile (path data : string) (r : option error)
| EvReadDir (dir : string)
| EvReadFile (path : string).

(** The history, oldest event first. *)
Definition World : Type := list Event.

(** Code that reads and updates a state of type [S]. *)
Definition St (S A : Type) : Type := S -> A * S.

Definition wret {S A} (a : A) : St S A := fun w => (a, w).
Definition wbind {S A B} (m : St S A) (k : A -> St S B) : St S B :=
  fun w => let (a, w1) := m w in k a w1.

Declare Scope world_scope.
Delimit Scope world_scope with world.
Notation "x <- m ;; k" := (wbind m (fun x => k))
  (at level 100, m at next level, right associativity) : world_scope.
Notation "m ;;; k" := (wbind m (fun _ => k))
  (at level 100, right associativity) : world_scope.

(** Code that acts on the world only. *)
Definition W (A : Type) : Type := St World A.

Definition emit (e : Event) : W unit := fun w => (tt, w ++ [e]).

(** [fmt.Printf] to the harness's own standard output. *)
Definition Printf (s : string) : W unit := emit (EvPrint s).

(** [time.Sleep] *)
Definition time_Sleep (d : Duration) : W unit := emit (EvSleep d).

(** The events a trace consists of, by kind. *)
Definition exec_results (evs : list Event) : list CmdResult :=
  omap (fun e => match e with EvExec _ r => Some r | _ => None end) evs.

Definition exec_cmds (evs : list Event) : list Cmd :=
  omap (fun e => match e with EvExec c _ => Some c | _ => None end) evs.

Definition prints (evs : list Event) : list string :=
  omap (fun e => match e with EvPrint s => Some s | _ => None end) evs.

(** ** package cluster *)

Module cluster.

(** Modelled from the spec: the declaration of the [Provider] interface
    is not among the sources; its four methods are those the providers
    implement and [eval.go] calls. *)
Record Provider : Type := mkProvider {
  Exists : string -> W (res bool);
  Create : string -> W (option error);
  Delete : string -> W (option error);
  GetKubeconfig : string -> W (res string);
}.

End cluster.

(** ** Strings *)

Definition is_newline (c : Ascii.ascii) : bool :=
  Ascii.eqb c (Ascii.ascii_of_nat 10).

(** [strings.Split(s, "\n")]: never empty, one more element than there
    are newlines. *)
Fixpoint split_lines (s : string) : list string :=
  match s with
  | EmptyString => [""]
  | String c s' =>
      if is_newline c then "" :: split_lines s'
      else match split_lines s' with
           | l :: ls => String c l :: ls
           | [] => [String c ""]
           end
  end.

(** [strings.Index(s, substr)], -1 when absent. *)
Fixpoint strings_Index (s substr : string) : Z :=
  if String.prefix substr s then 0
  else match s with
       | EmptyString => -1
       | String _ s' =>
           let i := strings_Index s' substr in
           if (i =? -1)%Z then -1 else i + 1
       end.

(** [strings.LastIndex(s, substr)], -1 when absent. *)
Fixpoint strings_LastIndex (s substr : string) : Z :=
  match s with
  | EmptyString => if String.prefix substr "" then 0 else -1
  | String _ s' =>
      let i := strings_LastIndex s' substr in
      if (i =? -1)%Z then (if String.prefix substr s then 0 else -1)
      else i + 1
  end.

(** The slice [s[i:]]. *)
Fixpoint slice_from (i : nat) (s : string) : string :=
  match i, s with
  | O, _ => s
  | S i', String _ s' => slice_from i' s'
  | S _, EmptyString => ""
  end.

(** Whether a string holds a newline. *)
Fixpoint has_newline (s : string) : bool :=
  match s with
  | EmptyString => false
  | String c s' => is_newline c || has_newline s'
  end.

(** [getLastNLines] returns the last n lines of a string. *)
Definition getLastNLines (s : string) (n : nat) : string * bool :=
  let lines := split_lines s in
  if (n <? length lines)%nat
  then (strings_Join (drop (length lines - n) lines) newline, true)
  else (s, false).

(** [%t] *)
Definition fmt_t (b : bool) : string := if b then "true" else "false".

(** ** package model *)

Module model.

(** Modelled from the spec: package [model] is not among the sources;
    the fields are those [eval.go] and [site/app.js] use. *)
Record LLMConfig : Type := mkLLMConfig {
  ID : string;
  ProviderID : string;
  ModelID : string;
  EnableToolUseShim : bool;
  Quiet : bool;
  McpClient : bool;
}.

Record Failure : Type := mkFailure { Message : string }.

Record TaskResult : Type := mkTaskResult {
  Task : string;
  LLMConfig_ : LLMConfig;
  Result : string;
  Error : string;
  Failures : list Failure;
}.

(** Modelled from the spec: [AddFailure] formats its message and
    appends one Failure record to the ordered sequence. *)
Definition AddFailure (message : string) (r : TaskResult) : TaskResult :=
  mkTaskResult (Task r) (LLMConfig_ r) (Result r) (Error r)
               (Failures r ++ [mkFailure message]).

Definition set_Result (v : string) (r : TaskResult) : TaskResult :=
  mkTaskResult (Task r) (LLMConfig_ r) v (Error r) (Failures r).

Definition set_Error (v : string) (r : TaskResult) : TaskResult :=
  mkTaskResult (Task r) (LLMConfig_ r) (Result r) v (Failures r).

Definition set_Failures (v : list Failure) (r : TaskResult) : TaskResult :=
  mkTaskResult (Task r) (LLMConfig_ r) (Result r) (Error r) v.

End model.

(** ** The task specification *)

(** Modelled from the spec: the declarations of [Task], [Expectation],
    [ScriptStep] and [EvalConfig] are not among the sources; the fields
    are those [eval.go] reads. *)
Record Expectation : Type := mkExpectation { Contains : string }.

Record ScriptStep : Type := mkScriptStep {
  Prompt : string;
  PromptFile : string;
}.

Definition IsolationMode : Type := string.

Record Task : Type := mkTask {
  Setup : string;
  Verifier : string;
  Cleanup : string;
  Disabled : bool;
  Expect : list Expectation;
  Script : list ScriptStep;
  Isolation : IsolationMode;
  Timeout : string;
}.

Record EvalConfig : Type := mkEvalConfig {
  LLMConfigs : list model.LLMConfig;
  cfg_KubeConfig : string;
  TasksDir : string;
  TaskPattern : string;
  cfg_AgentBin : string;
  ClusterProvider : string;
  OutputDir : string;
}.

(** [os.DirEntry] *)
Record DirEntry : Type := mkDirEntry {
  Name : string;
  IsDir : bool;
}.

(** [taskCtx.Err()] *)
Inductive ctxError : Type := Canceled | DeadlineExceeded.

(** ** The outside *)

(** Library functions and declarations whose code is not part of the
    sources, and what the processes and the file system answer, given
    the history. *)
Class Outside : Type := {
  (* package fmt, time, path/filepath, os *)
  strconv_Quote : string -> string;                 (* [%q] *)
  Duration_String : Duration -> string;             (* [%v] of a Duration *)
  time_ParseDuration : string -> res Duration;
  filepath_Join : list string -> string;
  filepath_Abs : string -> res string;
  os_Environ : list string;
  (* package regexp *)
  Regexp : Type;
  regexp_Compile : string -> res Regexp;
  MatchString : Regexp -> string -> bool;
  (* decoders *)
  yaml_Unmarshal_Task : string -> res Task;
  json_Unmarshal_Names : string -> res (list string);
  (* the constant of package main *)
  IsolationModeCluster : IsolationMode;
  (* the world's answers *)
  exec_oracle : World -> Cmd -> CmdResult;
  os_WriteFile_oracle : World -> string -> string -> option error;
  os_ReadDir_oracle : World -> string -> res (list DirEntry);
  os_ReadFile_oracle : World -> string -> res string;
  ResolvePrompt_oracle : World -> ScriptStep -> string -> res string;
  taskCtx_Err_oracle : World -> option ctxError;
}.

Section Process.
Context {O : Outside}.

(** [cmd.Run()] and [cmd.Output()]: the process runs and the event
    records what it answered. *)
Definition cmd_Run (c : Cmd) : W CmdResult :=
  fun w => let r := exec_oracle w c in (r, w ++ [EvExec c r]).

(** [cmd.Output()] hands out the standard output when there is no
    error; no caller looks at the bytes otherwise. *)
Definition cmd_Output (c : Cmd) : W (res string) :=
  (r <- cmd_Run c ;;
   wret (match res_err r with
         | None => Ok (res_stdout r)
         | Some e => Err e
         end))%world.

Definition os_WriteFile (path data : string) : W (option error) :=
  fun w => let r := os_WriteFile_oracle w path data in
           (r, w ++ [EvWriteFile path data r]).

Definition os_ReadDir (dir : string) : W (res (list DirEntry)) :=
  fun w => (os_ReadDir_oracle w dir, w ++ [EvReadDir dir]).

Definition os_ReadFile (path : string) : W (res string) :=
  fun w => (os_ReadFile_oracle w path, w ++ [EvReadFile path]).
End Process.

(** ** package kind *)

Module kind.
Section Kind.
Context {O : Outside}.

(** [for retry := range 3 { ... }] of [Provider.Create], over the
    values of [retry] still to come; [createErr] is the variable of
    that name. *)
Fixpoint Create_loop (name : string) (retries : list nat)
    (createErr : option error) : W (option error) :=
  match retries with
  | [] =>
      wret (Some (Errorf_w
        "failed to create kind cluster after multiple retries: " createErr))
  | retry :: rest =>
      ((if (0 <? retry)%nat
        then (Printf ("Retrying cluster creation, attempt "
                      +:+ pretty (retry + 1)%nat +:+ newline) ;;;
              time_Sleep (5 * Second))
        else wret tt) ;;;
       let createCmd := mkCmd NoCtx "kind"
             ["create"; "cluster"; "--name"; name; "--wait"; "5m"]
             "" [] [] in
       Printf ("Creating kind cluster " +:+ strconv_Quote name +:+ newline) ;;;
       r <- cmd_Run createCmd ;;
       match res_err r with
       | None => wret None
       | Some e =>
           Printf ("failed to create kind cluster, retrying...: "
                   +:+ Error e +:+ newline) ;;;
           Create_loop name rest (Some e)
       end)%world
  end.

Definition Create (name : string) : W (option error) :=
  Create_loop name (seq 0 3) None.

Definition Exists (name : string) : W (res bool) :=
  (output <- cmd_Output (mkCmd NoCtx "kind" ["get"; "clusters"] "" [] []) ;;
   match output with
   | Err e => wret (Err (Errorf_w "failed to run 'kind get clusters': " (Some e)))
   | Ok output => wret (Ok (bool_decide (name ∈ split_lines output)))
   end)%world.

Definition Delete (name : string) : W (option error) :=
  (Printf ("Deleting kind cluster " +:+ strconv_Quote name +:+ newline) ;;;
   r <- cmd_Run (mkCmd NoCtx "kind" ["delete"; "cluster"; "--name"; name] "" [] []) ;;
   wret (res_err r))%world.

Definition GetKubeconfig (name : string) : W (res string) :=
  cmd_Output (mkCmd NoCtx "kind" ["get"; "kubeconfig"; "--name"; name] "" [] []).

Definition New : cluster.Provider :=
  cluster.mkProvider Exists Create Delete GetKubeconfig.
End Kind.
End kind.

(** ** package vcluster *)

(** [vcluster.go] holds more than one revision of the package.  This is
    the provider with a [ValuesPath], whose [Create] retries like the
    one of package [kind]; the revision with an ingress address makes a
    single attempt and is not modelled. *)

Module vcluster.
Section Vcluster.
Context {O : Outside}.

Record Provider : Type := mkProvider {
  HostContext : string;
  HostKubeConfig : string;
  ValuesPath : string;
}.

Variable p : Provider.

(** [if p.HostContext != "" { args = append(args, "--context", p.HostContext) }] *)
Definition with_context (args : list string) : list string :=
  if bool_decide (HostContext p = "") then args
  else args ++ ["--context"; HostContext p].

Definition host_env : list string :=
  os_Environ ++ ["KUBECONFIG=" +:+ HostKubeConfig p].

Fixpoint Create_loop (name : string) (retries : list nat)
    (createErr : option error) : W (option error) :=
  match retries with
  | [] =>
      wret (Some (Errorf_w
        "failed to create vcluster after multiple retries: " createErr))
  | retry :: rest =>
      ((if (0 <? retry)%nat
        then (Printf ("Retrying vcluster creation, attempt "
                      +:+ pretty (retry + 1)%nat +:+ newline) ;;;
              time_Sleep (5 * Second))
        else wret tt) ;;;
       let args := with_context
             ["create"; name; "--connect=false"; "--values"; ValuesPath p] in
       let createCmd := mkCmd NoCtx "vcluster" args "" host_env [] in
       Printf ("Creating vcluster " +:+ strconv_Quote name +:+ newline) ;;;
       r <- cmd_Run createCmd ;;
       match res_err r with
       | None => wret None
       | Some e =>
           Printf ("failed to create vcluster, retrying...: "
                   +:+ Error e +:+ newline) ;;;
           Create_loop name rest (Some e)
       end)%world
  end.

Definition Create (name : string) : W (option error) :=
  Create_loop name (seq 0 3) None.

Definition Exists (name : string) : W (res bool) :=
  (output <- cmd_Output (mkCmd NoCtx "vcluster"
               (with_context ["list"; "--output"; "json"]) "" host_env []) ;;
   match output with
   | Err e => wret (Err (Errorf_w "failed to run 'vcluster list': " (Some e)))
   | Ok output =>
       match json_Unmarshal_Names output with
       | Err e => wret (Err (Errorf_w "failed to parse vcluster list json: " (Some e)))
       | Ok clusters => wret (Ok (bool_decide (name ∈ clusters)))
       end
   end)%world.

Definition Delete (name : string) : W (option error) :=
  (let deleteCmd := mkCmd NoCtx "vcluster"
         (with_context ["delete"; name]) "" host_env [] in
   Printf ("Deleting vcluster " +:+ strconv_Quote name +:+ newline) ;;;
   r <- cmd_Run deleteCmd ;;
   wret (res_err r))%world.

Definition GetKubeconfig (name : string) : W (res string) :=
  (config <- cmd_Output (mkCmd NoCtx "vcluster"
               (with_context ["connect"; name; "--print"]) "" host_env []) ;;
   (* Wait 60 secs for the local background proxy on docker to be running. *)
   cmd_Run (mkCmd NoCtx "sleep" ["60"] "" [] []) ;;;
   wret config)%world.

(** The value [New] returns, for a provider [p] it has built. *)
Definition asProvider : cluster.Provider :=
  cluster.mkProvider Exists Create Delete GetKubeconfig.
End Vcluster.
End vcluster.

(** ** package main: [eval.go] *)

(** What the harness prints with [fmt.Printf] is an event; what it logs
    through [klog] or writes to its standard error is not. *)

Module main.
Section Eval.
Context {O : Outside}.

(** [TaskExecution].  Its [result] and [log] fields are pointers into
    the frame of [evaluateTask]: the pointees are [fr_result] and
    [fr_logBuffer] below, and [log] only tells whether a writer is
    set.  A cleanup function is a closure that acts on the world. *)
Record TaskExecution : Type := mkTaskExecution {
  kubeConfig : string;
  AgentBin : string;
  llmConfig : model.LLMConfig;
  log : bool;
  task : Task;
  taskID : string;
  taskDir : string;
  taskOutputDir : string;
  cleanupFunctions : list (W (option error));
  clusterProvider : cluster.Provider;
}.

(** The variables of one call of [evaluateTask] that its helpers
    reach through [x]: the world, [logBuffer], [result] and [*x]. *)
Record Frame : Type := mkFrame {
  fr_world : World;
  fr_logBuffer : string;
  fr_result : model.TaskResult;
  fr_x : TaskExecution;
}.

Definition M (A : Type) : Type := St Frame A.

Definition lift {A} (m : W A) : M A :=
  fun f => let (a, w) := m (fr_world f) in
           (a, mkFrame w (fr_logBuffer f) (fr_result f) (fr_x f)).

Definition get_x : M TaskExecution := fun f => (fr_x f, f).

Definition modify_x (g : TaskExecution -> TaskExecution) : M unit :=
  fun f => (tt, mkFrame (fr_world f) (fr_logBuffer f) (fr_result f) (g (fr_x f))).

Definition modify_result (g : model.TaskResult -> model.TaskResult) : M unit :=
  fun f => (tt, mkFrame (fr_world f) (fr_logBuffer f) (g (fr_result f)) (fr_x f)).

Definition get_logBuffer : M string := fun f => (fr_logBuffer f, f).

(** A write to [x.log], which ends in [logBuffer]. *)
Definition log_Write (s : string) : M unit :=
  fun f => (tt, if log (fr_x f)
                then mkFrame (fr_world f) (fr_logBuffer f +:+ s) (fr_result f) (fr_x f)
                else f).

Definition set_kubeConfig (v : string) (e : TaskExecution) : TaskExecution :=
  mkTaskExecution v (AgentBin e) (llmConfig e) (log e) (task e) (taskID e)
    (taskDir e) (taskOutputDir e) (cleanupFunctions e) (clusterProvider e).

Definition set_taskDir (v : string) (e : TaskExecution) : TaskExecution :=
  mkTaskExecution (kubeConfig e) (AgentBin e) (llmConfig e) (log e) (task e)
    (taskID e) v (taskOutputDir e) (cleanupFunctions e) (clusterProvider e).

Definition set_cleanupFunctions (v : list (W (option error)))
    (e : TaskExecution) : TaskExecution :=
  mkTaskExecution (kubeConfig e) (AgentBin e) (llmConfig e) (log e) (task e)
    (taskID e) (taskDir e) (taskOutputDir e) v (clusterProvider e).

Definition set_Isolation (v : IsolationMode) (t : Task) : Task :=
  mkTask (Setup t) (Verifier t) (Cleanup t) (Disabled t) (Expect t)
         (Script t) v (Timeout t).

Definition kubeconfig_env (e : TaskExecution) : list string :=
  os_Environ ++ ["KUBECONFIG=" +:+ kubeConfig e].

(** [strings.Join(cmd.Args, " ")]: [cmd.Args] starts with the program. *)
Definition cmd_line (c : Cmd) : string :=
  strings_Join (cmd_Path c :: cmd_Args c) " ".

Definition runCommand (cmd : Cmd) : M (option error) :=
  (lift (Printf (newline +:+ "Running command: " +:+ cmd_line cmd +:+ newline)) ;;;
   r <- lift (cmd_Run cmd) ;;
   log_Write (res_combined r) ;;;
   match res_err r with
   | Some err =>
       wret (Some (Errorf_w ("running command " +:+ cmd_line cmd +:+ ": ") (Some err)))
   | None => wret None
   end)%world.

(** The cluster part of [runSetup]; [Some] is an early return. *)
Definition runSetup_cluster : M (option error) :=
  (e <- get_x ;;
   let kubeconfigPath := filepath_Join [taskDir e; "kubeconfig.yaml"] in
   modify_x (set_kubeConfig kubeconfigPath) ;;;
   let clusterName := "k8s-ai-bench-" +:+ taskID e in
   err <- lift (cluster.Create (clusterProvider e) clusterName) ;;
   match err with
   | Some err =>
       wret (Some (Errorf_w ("failed to create isolated cluster "
               +:+ strconv_Quote clusterName +:+ ": ") (Some err)))
   | None =>
       modify_x (fun e' => set_cleanupFunctions
         (cleanupFunctions e' ++ [cluster.Delete (clusterProvider e) clusterName]) e') ;;;
       kubeconfigBytes <- lift (cluster.GetKubeconfig (clusterProvider e) clusterName) ;;
       match kubeconfigBytes with
       | Err err =>
           wret (Some (Errorf_w ("failed to get kubeconfig for isolated cluster "
                   +:+ strconv_Quote clusterName +:+ ": ") (Some err)))
       | Ok kubeconfigBytes =>
           err <- lift (os_WriteFile kubeconfigPath kubeconfigBytes) ;;
           match err with
           | Some err =>
               wret (Some (Errorf_w ("failed to write kubeconfig for isolated cluster "
                       +:+ strconv_Quote clusterName +:+ ": ") (Some err)))
           | None => wret None
           end
       end
   end)%world.

(** The script part of [runSetup]. *)
Definition runSetup_script : M (option error) :=
  (e <- get_x ;;
   if bool_decide (Setup (task e) = "") then wret None
   else
     let setupPath := filepath_Join [taskDir e; Setup (task e)] in
     let cmd := mkCmd TaskCtx setupPath [] (taskDir e) (kubeconfig_env e) [] in
     runCommand cmd)%world.

Definition runSetup : M (option error) :=
  (e <- get_x ;;
   (* Create cluster if requested *)
   err <- (if bool_decide (Isolation (task e) = IsolationModeCluster)
           then runSetup_cluster else wret None) ;;
   match err with
   | Some err => wret (Some err)
   | None => (* Run setup if specified *) runSetup_script
   end)%world.

(** [for _, cleanup := range x.cleanupFunctions { ... }] *)
Fixpoint run_cleanupFunctions (fns : list (W (option error)))
    (errs : list error) : M (list error) :=
  match fns with
  | [] => wret errs
  | cleanup :: rest =>
      (err <- lift cleanup ;;
       match err with
       | Some err => run_cleanupFunctions rest (errs ++ [err])
       | None => run_cleanupFunctions rest errs
       end)%world
  end.

Definition runCleanup : M (option error) :=
  (e <- get_x ;;
   (* Run cleanup if specified *)
   (if bool_decide (Cleanup (task e) = "") then wret tt
    else
      let cleanupPath := filepath_Join [taskDir e; Cleanup (task e)] in
      let cmd := mkCmd BackgroundCtx cleanupPath [] (taskDir e) (kubeconfig_env e) [] in
      err <- runCommand cmd ;;
      match err with
      | Some err =>
          lift (Printf ("Warning: cleanup failed for task " +:+ taskID e
                        +:+ ": " +:+ Error err +:+ newline))
      | None => wret tt
      end) ;;;
   errs <- run_cleanupFunctions (cleanupFunctions e) [] ;;
   wret (errors_Join (map Some errs)))%world.

(** The goroutine of [runAgent] that feeds the prompts: [lines] is
    what has been written to the pipe so far.  It stops at the first
    step that does not resolve, after recording a failure. *)
Fixpoint feed_prompts (steps : list ScriptStep) (lines : list string)
    : M (list string) :=
  match steps with
  | [] => wret lines
  | step :: rest =>
      (e <- get_x ;;
       prompt <- lift (fun w => (ResolvePrompt_oracle w step (taskDir e), w)) ;;
       match prompt with
       | Err err =>
           modify_result (model.AddFailure ("failed to resolve prompt: " +:+ Error err)) ;;;
           wret lines
       | Ok prompt => feed_prompts rest (lines ++ [prompt])
       end)%world
  end.

(** [runAgent].  The feeding goroutine is run to its end before the
    process's result is taken. *)
Definition runAgent : M (res string) :=
  (e <- get_x ;;
   let tracePath := filepath_Join [taskOutputDir e; "trace.yaml"] in
   let args :=
     ["--kubeconfig"; kubeConfig e;
      "--llm-provider"; model.ProviderID (llmConfig e);
      "--enable-tool-use-shim=" +:+ fmt_t (model.EnableToolUseShim (llmConfig e));
      "--quiet=" +:+ fmt_t (model.Quiet (llmConfig e));
      "--model"; model.ModelID (llmConfig e);
      "--trace-path"; tracePath;
      "--skip-permissions";
      "--show-tool-output"]
     ++ (if model.McpClient (llmConfig e) then ["--mcp-client"] else []) in
   stdin <- feed_prompts (Script (task e)) [] ;;
   let cmd := mkCmd TaskCtx (AgentBin e) args "" (kubeconfig_env e) stdin in
   r <- lift (cmd_Run cmd) ;;
   log_Write (res_combined r) ;;;
   match res_err r with
   | Some err => wret (Err err)
   | None =>
       (* [stdoutBuffer] is only written to when [x.log] is set *)
       wret (Ok (if log e then res_stdout r else ""))
   end)%world.

(** The output after the last run command, which the expectations
    are searched in. *)
Definition lastCmdOutput (agentOutput : string) : string :=
  let lastToolRunIndex := strings_LastIndex agentOutput "Running:" in
  if (lastToolRunIndex =? -1)%Z then agentOutput
  else
    let remaining := slice_from (Z.to_nat lastToolRunIndex) agentOutput in
    let newlineIndex := strings_Index remaining newline in
    if (newlineIndex =? -1)%Z then ""
    else slice_from (Z.to_nat (newlineIndex + 1)) remaining.

(** [for _, expect := range task.Expect { ... }] *)
Fixpoint check_expectations (expects : list Expectation) (lastCmdOutput : string)
    (expectationFailures : list model.Failure) : list model.Failure :=
  match expects with
  | [] => expectationFailures
  | expect :: rest =>
      if bool_decide (Contains expect = "")
      then check_expectations rest lastCmdOutput expectationFailures
      else
        match regexp_Compile (Contains expect) with
        | Err err =>
            check_expectations rest lastCmdOutput
              (expectationFailures ++
               [model.mkFailure ("invalid regex " +:+ strconv_Quote (Contains expect)
                  +:+ " in task spec: " +:+ Error err)])
        | Ok re =>
            if MatchString re lastCmdOutput
            then check_expectations rest lastCmdOutput expectationFailures
            else check_expectations rest lastCmdOutput
                   (expectationFailures ++
                    [model.mkFailure ("regex " +:+ strconv_Quote (Contains expect)
                       +:+ " did not match output " +:+ strconv_Quote lastCmdOutput)])
        end
  end.

(** The message of the agent-error and verifier-failure branches:
    the error, the tail of the log and, when lines were dropped, where
    the whole log is. *)
Definition with_log_tail (what : string) (err : error) (logString : string)
    (maxLines : nat) (logPath : string) : string :=
  let '(logTail, truncated) := getLastNLines logString maxLines in
  let message := what +:+ Error err +:+ newline +:+ "---LOG---" +:+ newline +:+ logTail in
  if truncated
  then message +:+ newline +:+ "... (log truncated, full log at " +:+ logPath +:+ ")"
  else message.

Definition maxErrLogLines : nat := 3.
Definition maxLogLines : nat := 20.

(** [evaluateTask] once the agent has returned an error. *)
Definition agent_failed (timeout : Duration) (err : error) : M unit :=
  (ctxErr <- lift (fun w => (taskCtx_Err_oracle w, w)) ;;
   match ctxErr with
   | Some DeadlineExceeded =>
       modify_result (model.set_Result "fail") ;;;
       modify_result (model.AddFailure
         ("task timed out after " +:+ Duration_String timeout))
   | _ =>
       (* Unexpected error *)
       modify_result (model.set_Result "error") ;;;
       logString <- get_logBuffer ;;
       e <- get_x ;;
       (* build log file path *)
       let logPath := taskOutputDir e in
       let errorMessage :=
         with_log_tail "agent encountered error: " err logString maxErrLogLines logPath in
       modify_result (model.set_Error errorMessage)
   end)%world.

(** The expectations of [evaluateTask]. *)
Definition run_expectations (agentOutput : string) : M (list model.Failure) :=
  (e <- get_x ;;
   if (0 <? length (Expect (task e)))%nat
   then
     (* find the output after the last run command and search it *)
     let expectationFailures :=
       check_expectations (Expect (task e)) (lastCmdOutput agentOutput) [] in
     (if (length expectationFailures =? 0)%nat
      then lift (Printf (newline +:+ "All output expectations met" +:+ newline))
      else wret tt) ;;;
     wret expectationFailures
   else wret [])%world.

(** The verifier of [evaluateTask]; the result is [verifierSucceeded]. *)
Definition run_verifier : M bool :=
  (e <- get_x ;;
   (* Run verifier if specified *)
   if bool_decide (Verifier (task e) = "") then wret false
   else
     let verifierPath := filepath_Join [taskDir e; Verifier (task e)] in
     let cmd := mkCmd TaskCtx verifierPath [] "" (kubeconfig_env e) [] in
     lift (Printf (newline +:+ "Running verifier for task " +:+ taskID e +:+ newline)) ;;;
     err <- runCommand cmd ;;
     match err with
     | None => wret true
     | Some err =>
         logString <- get_logBuffer ;;
         (* build log file path *)
         let logPath := taskOutputDir e in
         let failureMessage :=
           with_log_tail "verifier script failed: " err logString maxLogLines logPath in
         modify_result (model.AddFailure failureMessage) ;;;
         wret false
     end)%world.

(** [evaluateTask] once the agent has returned its output. *)
Definition agent_succeeded (agentOutput : string) : M unit :=
  (e <- get_x ;;
   expectationFailures <- run_expectations agentOutput ;;
   verifierSucceeded <- run_verifier ;;
   let expectationsMet :=
     (0 <? length (Expect (task e)))%nat && (length expectationFailures =? 0)%nat in
   if verifierSucceeded || expectationsMet
   then modify_result (model.set_Result "success")
   else
     modify_result (model.set_Result "fail") ;;;
     modify_result (fun r => model.set_Failures
                      (model.Failures r ++ expectationFailures) r))%world.

(** [evaluateTask] from [x.runSetup] to its [return]s. *)
Definition evaluateTask_phases (timeout : Duration) : M unit :=
  (err <- runSetup ;;
   match err with
   | Some err =>
       (* Unexpected error *)
       modify_result (model.set_Error (Error err))
   | None =>
       (* Run the agent *)
       agentOutput <- runAgent ;;
       match agentOutput with
       | Err err => agent_failed timeout err
       | Ok agentOutput => agent_succeeded agentOutput
       end
   end)%world.

(** The deferred function of [evaluateTask]. *)
Definition evaluateTask_deferred : M unit :=
  (e <- get_x ;;
   err <- runCleanup ;;
   match err with
   | Some err =>
       lift (Printf ("Warning: cleanup failed for task " +:+ taskID e
                     +:+ ": " +:+ Error err +:+ newline))
   | None => wret tt
   end)%world.

(** The timeout limit for the whole task (setup, agent actions,
    verify): ten minutes unless the task says otherwise. *)
Definition task_timeout (task : Task) : res Duration :=
  if bool_decide (Timeout task = "") then Ok (10 * Minute)
  else time_ParseDuration (Timeout task).

(** The isolation mode is set to cluster if vcluster is used. *)
Definition effective_task (config : EvalConfig) (task : Task) : Task :=
  if bool_decide (ClusterProvider config = "vcluster")
  then set_Isolation IsolationModeCluster task else task.

(** The variables of [evaluateTask] when it reaches its [defer]
    statement: nothing is logged or recorded yet. *)
Definition initial_frame (config : EvalConfig) (taskID : string) (task : Task)
    (llmConfig : model.LLMConfig) (clusterProvider : cluster.Provider)
    (taskDirAbs : string) (w : World) : Frame :=
  let result := model.mkTaskResult taskID llmConfig "" "" [] in
  let taskOutputDir := filepath_Join [OutputDir config; taskID] in
  let x := mkTaskExecution (cfg_KubeConfig config) (cfg_AgentBin config)
             llmConfig true (effective_task config task) taskID ""
             taskOutputDir [] clusterProvider in
  mkFrame w "" result (set_taskDir taskDirAbs x).

(** [evaluateTask].  The [ctx] argument is behind [taskCtx_Err_oracle]
    and [exec_oracle]; the [log] file is a sink that nothing reads.
    The value of [return result] is taken before the deferred
    function runs. *)
Definition evaluateTask (config : EvalConfig) (taskID : string) (task : Task)
    (llmConfig : model.LLMConfig) (clusterProvider : cluster.Provider)
    : W model.TaskResult :=
  fun w =>
  let result := model.mkTaskResult taskID llmConfig "" "" [] in
  match task_timeout task with
  | Err err =>
      (model.set_Error ("parsing timeout: " +:+ Error err)
         (model.set_Result "fail" result), w)
  | Ok timeout =>
      let taskDir := filepath_Join [TasksDir config; taskID] in
      match filepath_Abs taskDir with
      | Err err =>
          (model.set_Error (Error err) (model.set_Result "fail" result), w)
      | Ok taskDirAbs =>
          let f0 := initial_frame config taskID task llmConfig clusterProvider
                      taskDirAbs w in
          let f1 := snd (evaluateTask_phases timeout f0) in
          let returned := fr_result f1 in
          let f2 := snd (evaluateTask_deferred f1) in
          (returned, fr_world f2)
      end
  end.

(** [for _, entry := range entries { ... }] of [loadTasks]. *)
Fixpoint loadTasks_loop (config : EvalConfig) (taskFilter : option Regexp)
    (entries : list DirEntry) (tasks : gmap string Task)
    : W (res (gmap string Task)) :=
  match entries with
  | [] => wret (Ok tasks)
  | entry :: rest =>
      if negb (IsDir entry) then loadTasks_loop config taskFilter rest tasks
      else
        let taskID := Name entry in
        if match taskFilter with
           | Some re => negb (MatchString re taskID)
           | None => false
           end
        then loadTasks_loop config taskFilter rest tasks
        else
          let taskFile := filepath_Join [TasksDir config; taskID; "task.yaml"] in
          (data <- os_ReadFile taskFile ;;
           match data with
           | Err err =>
               wret (Err (Errorf_w ("failed to read task file " +:+ taskFile +:+ ": ")
                            (Some err)))
           | Ok data =>
               match yaml_Unmarshal_Task data with
               | Err err =>
                   wret (Err (Errorf_w ("failed to parse task file " +:+ taskFile +:+ ": ")
                                (Some err)))
               | Ok task =>
                   (* Skip disabled tasks *)
                   if Disabled task
                   then
                     Printf ("Skipping disabled task: " +:+ taskID +:+ newline) ;;;
                     loadTasks_loop config taskFilter rest tasks
                   else loadTasks_loop config taskFilter rest (<[taskID := task]> tasks)
               end
           end)%world
  end.

(** The filter of [loadTasks]: nil when no pattern is configured. *)
Definition compile_taskFilter (config : EvalConfig) : res (option Regexp) :=
  if bool_decide (TaskPattern config = "") then Ok None
  else match regexp_Compile (TaskPattern config) with
       | Ok re => Ok (Some re)
       | Err err =>
           Err (Errorf_w ("compiling task pattern regex "
                  +:+ strconv_Quote (TaskPattern config) +:+ ": ") (Some err))
       end.

Definition loadTasks (config : EvalConfig) : W (res (gmap string Task)) :=
  match compile_taskFilter config with
  | Err err => wret (Err err)
  | Ok taskFilter =>
      (entries <- os_ReadDir (TasksDir config) ;;
       match entries with
       | Err err => wret (Err err)
       | Ok entries => loadTasks_loop config taskFilter entries ∅
       end)%world
  end.
End Eval.
End main.

(** ** [site/app.js] *)

Module site.

(** A Number of JavaScript is taken as the rational it denotes, and
    each arithmetic operator computes exactly and then rounds to the
    nearest double, the one with an even significand of two that are
    as near: 53 significant bits, as IEEE 754 binary64 has.  The
    exponent is not bounded: on counts below 2^53 the quotient, the
    differences and the product of [passAtK] stay far from both ends
    of the exponent range.  The literals [0.0], [1.0] and [100] and
    counts below 2^53 are doubles as they stand. *)

(** The binade of a positive number: the [e] with [2^e <= x < 2^(e+1)]. *)
Definition binade (x : Q) : Z :=
  let e := Z.log2 (Qnum x) - Z.log2 (Zpos (Qden x)) in
  if Qle_bool (2 ^ e) x then e else e - 1.

(** The nearest integer, the even one of two that are as near. *)
Definition nearest_even (x : Q) : Z :=
  let f := Qfloor x in
  match (x - inject_Z f ?= 1 # 2)%Q with
  | Lt => f
  | Gt => f + 1
  | Eq => if Z.even f then f else f + 1
  end.

(** The double nearest to a positive number: 53 significant bits. *)
Definition round_pos (x : Q) : Q :=
  let ulp := (2 ^ (binade x - 52))%Q in
  (inject_Z (nearest_even (x / ulp)) * ulp)%Q.

Definition round (x : Q) : Q :=
  let x := Qred x in
  match (x ?= 0)%Q with
  | Eq => 0%Q
  | Gt => Qred (round_pos x)
  | Lt => Qred (- round_pos (- x))
  end.

(** [Math.pow], whose precision the language leaves to the
    implementation: what it returns is given by the engine. *)
Class Engine : Type := { Math_pow : Q -> Q -> Q }.

(** [passAtK]:
    [if (n === 0) return 0.0;]
    [const p = c / n;]
    [return (1.0 - Math.pow(1.0 - p, k)) * 100;] *)
Definition passAtK {E : Engine} (n c k : Q) : Q :=
  if Qeq_bool n 0 then 0%Q
  else
    let p := round (c / n) in
    round (round (1 - Math_pow (round (1 - p)) k) * 100).

End site.

(** * Specification *)

(** ** Traces *)

(** What a trace looks like to a clock: processes started and pauses. *)
Inductive tag : Type := TExec | TSleep (d : Duration).

Definition skeleton (evs : list Event) : list tag :=
  omap (fun e => match e with
                 | EvExec _ _ => Some TExec
                 | EvSleep d => Some (TSleep d)
                 | _ => None
                 end) evs.

(** The processes of a trace, each with what it answered. *)
Definition exec_events (evs : list Event) : list (Cmd * CmdResult) :=
  omap (fun e => match e with EvExec c r => Some (c, r) | _ => None end) evs.

(** The retry contract of a provider's [Create]: between one and three
    processes are started, each but the first after a pause of five
    seconds; all but the last fail; [nil] is returned exactly when the
    last one succeeds, and otherwise three were started and the error
    returned wraps the error of the third. *)
Definition retries_thrice (create : W (option error)) : Prop :=
  forall w : World, exists evs : list Event,
    snd (create w) = w ++ evs /\
    let runs := exec_results evs in
    let i := length runs in
    (1 <= i <= 3)%nat /\
    skeleton evs = TExec :: concat (replicate (i - 1) [TSleep (5 * Second); TExec]) /\
    Forall (fun r => res_err r <> None) (take (i - 1) runs) /\
    match fst (create w) with
    | None => exists r, last runs = Some r /\ res_err r = None
    | Some e =>
        i = 3%nat /\
        exists r e3, last runs = Some r /\ res_err r = Some e3 /\ Unwrap e = Some e3
    end.

(** ** The verification phase *)

Section VerifySpec.
Context {O : Outside}.
Import main.

(** An expectation is matched by the output when it declares no
    pattern, or its pattern compiles and matches. *)
Definition expectation_matched (out : string) (e : Expectation) : Prop :=
  Contains e = "" \/
  exists re, regexp_Compile (Contains e) = Ok re /\ MatchString re out = true.

(** The first process of [evs] is the verifier under the task's
    deadline, and it exited with status zero. *)
Definition verifier_exited_zero (verifier taskDir : string) (evs : list Event) : Prop :=
  verifier <> "" /\
  exists c r rest,
    exec_events evs = (c, r) :: rest /\
    cmd_ctx c = TaskCtx /\
    cmd_Path c = filepath_Join [taskDir; verifier] /\
    res_err r = None.

(** The fields of [x] that no helper assigns to. *)
Definition same_static (e e' : TaskExecution) : Prop :=
  AgentBin e' = AgentBin e /\ llmConfig e' = llmConfig e /\ log e' = log e /\
  task e' = task e /\ taskID e' = taskID e /\ taskDir e' = taskDir e /\
  taskOutputDir e' = taskOutputDir e /\ clusterProvider e' = clusterProvider e.

(** What [evaluateTask] computes from the expectations: the value of
    [expectationFailures], of [expectationsMet], what it prints, and
    the result it leaves when the verifier did not succeed. *)
Definition expectationFailures_of (t : Task) (out : string) : list model.Failure :=
  if (0 <? length (Expect t))%nat
  then check_expectations (Expect t) (lastCmdOutput out) [] else [].

Definition expectationsMet_of (t : Task) (out : string) : bool :=
  (0 <? length (Expect t))%nat && (length (expectationFailures_of t out) =? 0)%nat.

Definition expectation_events (t : Task) (out : string) : list Event :=
  if expectationsMet_of t out
  then [EvPrint (newline +:+ "All output expectations met" +:+ newline)] else [].

Definition final_result (t : Task) (out : string) (r : model.TaskResult)
    : model.TaskResult :=
  if expectationsMet_of t out then model.set_Result "success" r
  else model.set_Failures (model.Failures r ++ expectationFailures_of t out)
         (model.set_Result "fail" r).

(** The command [evaluateTask] builds for the verifier. *)
Definition verifier_cmd (e : TaskExecution) : Cmd :=
  mkCmd TaskCtx (filepath_Join [taskDir e; Verifier (task e)]) [] ""
        (kubeconfig_env e) [].

(** The command [runCleanup] builds for the cleanup script. *)
Definition cleanup_cmd (e : TaskExecution) : Cmd :=
  mkCmd BackgroundCtx (filepath_Join [taskDir e; Cleanup (task e)]) []
        (taskDir e) (kubeconfig_env e) [].
End VerifySpec.

(** ** Cleanup *)

(** The teardown actions [fns] run one after the other, whatever each
    returns. *)
Fixpoint run_all (fns : list (W (option error))) (w : World)
    : list (option error) * World :=
  match fns with
  | [] => ([], w)
  | fn :: rest =>
      let (err, w1) := fn w in
      let (errs, w2) := run_all rest w1 in
      (err :: errs, w2)
  end.

Section CleanupSpec.
Context {O : Outside}.
Import main.

(** The events of the script part of [runCleanup]: none when no
    cleanup script is declared; otherwise the script, under a context
    of its own, is the only process started, and when it fails a
    warning is printed. *)
Definition script_contract (f : Frame) (evs : list Event) : Prop :=
  let e := fr_x f in
  if bool_decide (Cleanup (task e) = "") then evs = []
  else exists r,
    exec_events evs = [(cleanup_cmd e, r)] /\
    forall err, res_err r = Some err ->
      exists msg, msg ∈ prints evs /\
        String.prefix ("Warning: cleanup failed for task " +:+ taskID e) msg = true.

(** The contract of [runCleanup], for the order [arrange] in which
    the registered teardown actions are taken: first the cleanup
    script, if declared, is the only process started, and its failure
    is printed as a warning; then every teardown action runs, and the
    errors of the teardown actions, and only those, are joined into
    the error returned.  The result record is not touched. *)
Definition cleanup_contract
    (arrange : list (W (option error)) -> list (W (option error)))
    (f : Frame) : Prop :=
  let e := fr_x f in
  exists evs : list Event,
    script_contract f evs /\
    let (errs, w') := run_all (arrange (cleanupFunctions e)) (fr_world f ++ evs) in
    fr_world (snd (runCleanup f)) = w' /\
    fst (runCleanup f) = errors_Join errs /\
    fr_result (snd (runCleanup f)) = fr_result f.
(** What the deferred function of [evaluateTask] adds after
    [runCleanup]: a warning when it returned an error. *)
Definition deferred_warning (tid : string) (err : option error) : list Event :=
  match err with
  | Some err =>
      [EvPrint ("Warning: cleanup failed for task " +:+ tid +:+ ": "
                +:+ Error err +:+ newline)]
  | None => []
  end.
End CleanupSpec.

(** ** Loading the tasks *)

Section LoadSpec.
Context {O : Outside}.
Import main.

(** The specification file of a directory entry. *)
Definition task_file (config : EvalConfig) (e : DirEntry) : string :=
  filepath_Join [TasksDir config; Name e; "task.yaml"].

(** The entries whose specification is looked at: directories whose
    name the filter, if any, matches. *)
Definition candidate (taskFilter : option Regexp) (e : DirEntry) : bool :=
  IsDir e &&
  match taskFilter with
  | Some re => MatchString re (Name e)
  | None => true
  end.

(** What there is to load for an entry, in a file system [fs]. *)
Inductive load_outcome : Type :=
| Loaded (t : Task)
| Unreadable (inner : error)
| Malformed (inner : error).

Definition load_entry (fs : string -> res string) (config : EvalConfig)
    (e : DirEntry) : load_outcome :=
  match fs (task_file config e) with
  | Err inner => Unreadable inner
  | Ok data =>
      match yaml_Unmarshal_Task data with
      | Err inner => Malformed inner
      | Ok t => Loaded t
      end
  end.

(** The error a failed load is reported with: it names the file and
    wraps the error of the read or of the parse. *)
Definition load_error (config : EvalConfig) (e : DirEntry) (o : load_outcome)
    : option error :=
  match o with
  | Loaded _ => None
  | Unreadable inner =>
      Some (wrapError ("failed to read task file " +:+ task_file config e
                       +:+ ": " +:+ Error inner) inner)
  | Malformed inner =>
      Some (wrapError ("failed to parse task file " +:+ task_file config e
                       +:+ ": " +:+ Error inner) inner)
  end.

Definition loadable (fs : string -> res string) (config : EvalConfig)
    (taskFilter : option Regexp) (e : DirEntry) : Prop :=
  candidate taskFilter e = true -> exists t, load_entry fs config e = Loaded t.

(** The task an entry contributes to the mapping, if any. *)
Definition kept (fs : string -> res string) (config : EvalConfig)
    (taskFilter : option Regexp) (e : DirEntry) : option Task :=
  if candidate taskFilter e
  then match load_entry fs config e with
       | Loaded t => if Disabled t then None else Some t
       | _ => None
       end
  else None.
End LoadSpec.


(** ** Scoring *)

(** A count of trials as a number of the scorer. *)
Definition count (n : nat) : Q := inject_Z (Z.of_nat n).

(** A positive double: 53 significant bits times a power of two. *)
Definition double (b : Q) : Prop :=
  exists m e : Z, (2 ^ 52 <= m < 2 ^ 53)%Z /\ (b == inject_Z m * 2 ^ (e - 52))%Q.

(** What is taken of [Math.pow]: at an exponent that is at least 1 it
    maps the unit interval into itself and leaves 0 and 1 where they
    are. *)
Definition pow_keeps_unit_interval (E : site.Engine) : Prop :=
  forall k : Q, (1 <= k)%Q ->
    (forall x : Q, (0 <= x <= 1)%Q -> (0 <= site.Math_pow x k <= 1)%Q) /\
    (site.Math_pow 0 k == 0)%Q /\ (site.Math_pow 1 k == 1)%Q.

(** [Number.EPSILON]: the gap between 1 and the next double. *)
Definition EPSILON : Q := (2 ^ (-52))%Q.

(** [Math.pow] is within [EPSILON] of the power, for a base in the
    unit interval and a whole exponent that is at least 1. *)
Definition pow_within_epsilon (E : site.Engine) : Prop :=
  forall (x : Q) (k : nat), (1 <= k)%nat -> (0 <= x <= 1)%Q ->
    (Qabs (site.Math_pow x (count k) - x ^ Z.of_nat k) <= EPSILON)%Q.

(** The engine whose [Math.pow] is correctly rounded, at a whole
    exponent. *)
Definition exact_pow : site.Engine :=
  {| site.Math_pow := fun x k => site.round (x ^ Qfloor k) |}.

(** ** A concrete outside *)

(** A small world to run the program in: paths are joined with [/],
    a pattern is a literal that matches when it occurs in the text, a
    prompt resolves unless it names a file, and the oracles for
    processes, the deadline, directories and files are given. *)
Module demo.

Definition dquote : string := String (Ascii.ascii_of_nat 34) "".

Definition Quote (s : string) : string := dquote +:+ s +:+ dquote.

Definition ParseDuration (s : string) : res Duration :=
  if bool_decide (s = "1s") then Ok Second
  else if bool_decide (s = "5m") then Ok (5 * Minute)
  else Err (errorString ("time: invalid duration " +:+ Quote s)).

Definition Compile (s : string) : res string :=
  if bool_decide (s = "(") then Err (errorString "missing closing )") else Ok s.

Definition Match (re s : string) : bool := negb (strings_Index s re =? -1)%Z.

Definition Unmarshal (data : string) : res Task :=
  if bool_decide (data = "broken") then Err (errorString "yaml: did not find expected key")
  else if bool_decide (data = "disabled") then Ok (mkTask "" "" "" true [] [] "" "")
  else Ok (mkTask "" data "" false [] [] "" "").

Definition Resolve (step : ScriptStep) : res string :=
  if bool_decide (PromptFile step = "") then Ok (Prompt step)
  else Err (errorString ("open " +:+ PromptFile step +:+ ": no such file or directory")).

Definition outside (exec : World -> Cmd -> CmdResult)
    (ctxErr : World -> option ctxError)
    (readDir : string -> res (list DirEntry))
    (readFile : string -> res string) : Outside :=
  {| strconv_Quote := Quote;
     Duration_String := fun d => pretty (d / Second) +:+ "s";
     time_ParseDuration := ParseDuration;
     filepath_Join := fun elems => strings_Join elems "/";
     filepath_Abs := fun p => Ok ("/work/" +:+ p);
     os_Environ := [];
     Regexp := string;
     regexp_Compile := Compile;
     MatchString := Match;
     yaml_Unmarshal_Task := Unmarshal;
     json_Unmarshal_Names := fun s => Ok (split_lines s);
     IsolationModeCluster := "cluster";
     exec_oracle := exec;
     os_WriteFile_oracle := fun _ _ _ => None;
     os_ReadDir_oracle := fun _ => readDir;
     os_ReadFile_oracle := fun _ => readFile;
     ResolvePrompt_oracle := fun _ step _ => Resolve step;
     taskCtx_Err_oracle := ctxErr |}.

(** Every process succeeds silently, except those whose program is
    listed in [table]. *)
Definition exec_table (table : list (string * CmdResult)) : World -> Cmd -> CmdResult :=
  fun _ c =>
    match list_find (fun entry => fst entry = cmd_Path c) table with
    | Some (_, (_, r)) => r
    | None => mkCmdResult "" "" None
    end.

Definition exit_status (n : nat) : CmdResult :=
  mkCmdResult "" "" (Some (errorString ("exit status " +:+ pretty n))).

Definition no_dir : string -> res (list DirEntry) :=
  fun _ => Err (errorString "no such directory").
Definition no_file : string -> res string :=
  fun _ => Err (errorString "no such file").

Definition config : EvalConfig :=
  mkEvalConfig [] "/kube/config" "tasks" "" "/bin/agent" "kind" "out".

Definition llm : model.LLMConfig :=
  model.mkLLMConfig "gemini" "gemini" "gemini-2.5-pro" true true false.

Definition kubeconfig_env : list string := ["KUBECONFIG=/kube/config"].

(** *** A task that scales a deployment *)

Definition scale_task : Task :=
  mkTask "setup.sh" "verify.sh" "cleanup.sh" false
    [mkExpectation "3 replicas"]
    [mkScriptStep "scale the web deployment to 3 replicas" ""] "" "".

Definition transcript : string :=
  "Running: kubectl scale deployment web --replicas=3" +:+ newline +:+
  "deployment.apps/web scaled to 3 replicas" +:+ newline.

Definition agent_done : CmdResult := mkCmdResult transcript transcript None.

(** The setup script exits with status 1. *)
Definition setup_fails : Outside :=
  outside (exec_table [("/work/tasks/scale/setup.sh", exit_status 1)])
          (fun _ => None) no_dir no_file.

(** The agent scales the deployment and every script succeeds. *)
Definition all_fine : Outside :=
  outside (exec_table [("/bin/agent", agent_done)]) (fun _ => None) no_dir no_file.

(** The agent scales the deployment, the verifier exits with status 1. *)
Definition verifier_fails : Outside :=
  outside (exec_table [("/bin/agent", agent_done);
                       ("/work/tasks/scale/verify.sh", exit_status 1)])
          (fun _ => None) no_dir no_file.

(** The agent is killed when the deadline of one second expires. *)
Definition one_second_task : Task :=
  mkTask "" "" "" false [] [mkScriptStep "sleep for five seconds" ""] "" "1s".

Definition agent_killed : CmdResult :=
  mkCmdResult "" "" (Some (errorString "signal: killed")).

Definition deadline_expires : Outside :=
  outside (exec_table [("/bin/agent", agent_killed)])
          (fun _ => Some DeadlineExceeded) no_dir no_file.

(** A task whose timeout is not a duration. *)
Definition bad_timeout_task : Task :=
  mkTask "setup.sh" "verify.sh" "cleanup.sh" false [] [] "" "soon".

(** *** A task execution with two teardown actions registered *)

Definition quiet : Outside :=
  outside (exec_table []) (fun _ => None) no_dir no_file.

Definition two_teardowns : main.Frame :=
  let provider := kind.New (O := quiet) in
  main.mkFrame [] "" (model.mkTaskResult "scale" llm "" "" [])
    (main.mkTaskExecution "/kube/config" "/bin/agent" llm true scale_task "scale"
       "/work/tasks/scale" "out/scale"
       [cluster.Delete provider "first"; cluster.Delete provider "second"] provider).

(** *** A tasks directory *)

Definition tasks_dir : list DirEntry :=
  [mkDirEntry "scale" true; mkDirEntry "README.md" false;
   mkDirEntry "retired" true; mkDirEntry "fix-probe" true].

Definition tasks_files (p : string) : res string :=
  if bool_decide (p = "tasks/scale/task.yaml") then Ok "verify.sh"
  else if bool_decide (p = "tasks/retired/task.yaml") then Ok "disabled"
  else if bool_decide (p = "tasks/fix-probe/task.yaml") then Ok "broken"
  else Err (errorString ("open " +:+ p +:+ ": no such file or directory")).

Definition on_disk : Outside :=
  outside (exec_table []) (fun _ => None) (fun _ => Ok tasks_dir) tasks_files.

(** *** A provisioning that succeeds at the third attempt *)

Definition fails_twice : World -> Cmd -> CmdResult :=
  fun w _ =>
    if (length (exec_results w) <? 2)%nat then exit_status 1
    else mkCmdResult "" "" None.

Definition flaky : Outside :=
  outside fails_twice (fun _ => None) no_dir no_file.

(** *** The frames of the runs *)

Definition fine_f0 : main.Frame :=
  main.initial_frame (O := all_fine) config "scale" scale_task llm
    (kind.New (O := all_fine)) "/work/tasks/scale" [].
Definition fine_f1 : main.Frame := snd (main.runSetup (O := all_fine) fine_f0).
Definition fine_f2 : main.Frame := snd (main.runAgent (O := all_fine) fine_f1).

Definition vf_f0 : main.Frame :=
  main.initial_frame (O := verifier_fails) config "scale" scale_task llm
    (kind.New (O := verifier_fails)) "/work/tasks/scale" [].
Definition vf_f1 : main.Frame := snd (main.runSetup (O := verifier_fails) vf_f0).
Definition vf_f2 : main.Frame := snd (main.runAgent (O := verifier_fails) vf_f1).

Definition dl_f0 : main.Frame :=
  main.initial_frame (O := deadline_expires) config "nap" one_second_task llm
    (kind.New (O := deadline_expires)) "/work/tasks/nap" [].
Definition dl_f1 : main.Frame := snd (main.runSetup (O := deadline_expires) dl_f0).
Definition dl_f2 : main.Frame := snd (main.runAgent (O := deadline_expires) dl_f1).



End demo.

(** ** Substrings *)

(** [sub] occurs in [s]. *)
Definition occurs (sub s : string) : Prop :=
  exists pre post, s = pre +:+ sub +:+ post.

(** ** The output after the last run command, in words *)

(** [out] is [pre], the marker of a run command and [rest], and the
    marker occurs nowhere later in [out]. *)
Definition last_marker_split (out pre rest : string) : Prop :=
  out = pre +:+ "Running:" +:+ rest /\
  forall pre' post', out = pre' +:+ "Running:" +:+ post' ->
    (String.length pre' <= String.length pre)%nat.

(** [seg] is what follows the first line of [rest]: nothing when that
    line is not ended by a newline. *)
Definition line_cut (rest seg : string) : Prop :=
  (has_newline rest = false /\ seg = "") \/
  exists line, has_newline line = false /\ rest = line +:+ newline +:+ seg.

(** [seg] is the output after the last run command of [out]: the
    whole of [out] when no command was run, and otherwise what follows
    the line that holds the last marker. *)
Definition after_last_command (out seg : string) : Prop :=
  (~ occurs "Running:" out /\ seg = out) \/
  exists pre rest, last_marker_split out pre rest /\ line_cut rest seg.

(** ** The verdict, in words *)

Section VerdictSpec.
Context {O : Outside}.

(** The Failure an expectation leaves when the segment [seg] does not
    meet it; none when it declares no pattern or its pattern matches. *)
Definition expectation_failure (seg : string) (e : Expectation)
    : option model.Failure :=
  if bool_decide (Contains e = "") then None
  else match regexp_Compile (Contains e) with
       | Err err =>
           Some (model.mkFailure ("invalid regex " +:+ strconv_Quote (Contains e)
                   +:+ " in task spec: " +:+ Error err))
       | Ok re =>
           if MatchString re seg then None
           else Some (model.mkFailure ("regex " +:+ strconv_Quote (Contains e)
                        +:+ " did not match output " +:+ strconv_Quote seg))
       end.

(** One Failure for each expectation that is not met, in the order
    the task declares them. *)
Definition unmet_failures (seg : string) (es : list Expectation)
    : list model.Failure :=
  omap (expectation_failure seg) es.

(** What becomes of the verifier in the events [evs] that follow the
    world [w]: when none is declared no process is started; a declared
    verifier is the one process started, under the deadline of the
    task, and [verdict] tells whether the outside let it exit with
    status zero. *)
Definition verifier_verdict (verifier taskDir : string) (w : World)
    (evs : list Event) (verdict : bool) : Prop :=
  if bool_decide (verifier = "") then exec_events evs = [] /\ verdict = false
  else exists before c r,
    evs = before ++ [EvExec c r] /\ exec_events before = [] /\
    cmd_ctx c = TaskCtx /\ cmd_Path c = filepath_Join [taskDir; verifier] /\
    cmd_Args c = [] /\
    r = exec_oracle (w ++ before) c /\
    verdict = match res_err r with None => true | Some _ => false end.
End VerdictSpec.

(** ** Counting the expectations *)

Section ExpectationSpec.
Context {O : Outside}.

(** Whether an expectation is matched by the output, as a Boolean. *)
Definition expectation_ok (out : string) (e : Expectation) : bool :=
  bool_decide (Contains e = "") ||
  match regexp_Compile (Contains e) with
  | Ok re => MatchString re out
  | Err _ => false
  end.
End ExpectationSpec.

(** ** Provisioning *)

Section ProvisionSpec.
Context {O : Outside}.
Import main.

(** The name [runSetup] gives to the cluster of a task. *)
Definition isolated_cluster_name (tid : string) : string := "k8s-ai-bench-" +:+ tid.

(** The file [runSetup] writes the credentials of that cluster to. *)
Definition kubeconfig_path (e : TaskExecution) : string :=
  filepath_Join [taskDir e; "kubeconfig.yaml"].

(** The prompts the script of a task resolves to, up to the first step
    that does not resolve, and the error of that step. *)
Fixpoint resolved_prompts (w : World) (dir : string) (steps : list ScriptStep)
    : list string * option error :=
  match steps with
  | [] => ([], None)
  | step :: rest =>
      match ResolvePrompt_oracle w step dir with
      | Ok prompt =>
          let (prompts, failed) := resolved_prompts w dir rest in
          (prompt :: prompts, failed)
      | Err err => ([], Some err)
      end
  end.
End ProvisionSpec.

Section AgentSpec.
Context {O : Outside}.
Import main.


(** The command [runAgent] builds for the agent, for the lines
    [stdin] written to its standard input. *)
Definition agent_cmd (e : TaskExecution) (stdin : list string) : Cmd :=
  mkCmd TaskCtx (AgentBin e)
    (["--kubeconfig"; kubeConfig e;
      "--llm-provider"; model.ProviderID (llmConfig e);
      "--enable-tool-use-shim=" +:+ fmt_t (model.EnableToolUseShim (llmConfig e));
      "--quiet=" +:+ fmt_t (model.Quiet (llmConfig e));
      "--model"; model.ModelID (llmConfig e);
      "--trace-path"; filepath_Join [taskOutputDir e; "trace.yaml"];
      "--skip-permissions";
      "--show-tool-output"]
     ++ (if model.McpClient (llmConfig e) then ["--mcp-client"] else []))
    "" (kubeconfig_env e) stdin.
End AgentSpec.

(** ** The filter of the loader, in words *)

Section FilterSpec.
Context {O : Outside}.

(** [taskFilter] is the filter the configured task pattern stands for:
    none when the pattern is empty, and otherwise the regular
    expression the pattern compiles to. *)
Definition pattern_filter (config : EvalConfig) (taskFilter : option Regexp) : Prop :=
  match taskFilter with
  | None => TaskPattern config = ""
  | Some re =>
      TaskPattern config <> "" /\ regexp_Compile (TaskPattern config) = Ok re
  end.
End FilterSpec.

(** ** What the loader reads *)

(** The files a trace reads, in order. *)
Definition files_read (evs : list Event) : list string :=
  omap (fun e => match e with EvReadFile p => Some p | _ => None end) evs.

Section ReadSpec.
Context {O : Outside}.

(** The entries whose specification the loader opens: the candidates,
    in the order of the directory, up to and including the first one
    that does not load. *)
Fixpoint attempted (fs : string -> res string) (config : EvalConfig)
    (taskFilter : option Regexp) (entries : list DirEntry) : list DirEntry :=
  match entries with
  | [] => []
  | e :: rest =>
      if candidate taskFilter e
      then e :: match load_entry fs config e with
                | Loaded _ => attempted fs config taskFilter rest
                | _ => []
                end
      else attempted fs config taskFilter rest
  end.

(** What the loader does after it has listed the directory: it reads
    the specification of each entry it opens, and says so when it
    skips a disabled task. *)
Definition load_events (fs : string -> res string) (config : EvalConfig)
    (taskFilter : option Regexp) (entries : list DirEntry) : list Event :=
  flat_map
    (fun e =>
       EvReadFile (task_file config e) ::
       match load_entry fs config e with
       | Loaded t =>
           if Disabled t
           then [EvPrint ("Skipping disabled task: " +:+ Name e +:+ newline)]
           else []
       | _ => []
       end)
    (attempted fs config taskFilter entries).
End ReadSpec.

(** ** package vcluster, the revision with a host context only *)

(** The last revision in [vcluster.go]: its provider has a
    [HostContext] and nothing else, and starts its processes with the
    environment of the harness. *)
Module vcluster_hostcontext.
Section Vcluster.
Context {O : Outside}.

Record Provider : Type := mkProvider {
  HostContext : string;
}.

Variable p : Provider.

(** [if p.HostContext != "" { args = append(args, "--context", p.HostContext) }] *)
Definition with_context (args : list string) : list string :=
  if bool_decide (HostContext p = "") then args
  else args ++ ["--context"; HostContext p].

Fixpoint Create_loop (name : string) (retries : list nat)
    (createErr : option error) : W (option error) :=
  match retries with
  | [] =>
      wret (Some (Errorf_w
        "failed to create vcluster after multiple retries: " createErr))
  | retry :: rest =>
      ((if (0 <? retry)%nat
        then (Printf ("Retrying vcluster creation, attempt "
                      +:+ pretty (retry + 1)%nat +:+ newline) ;;;
              time_Sleep (5 * Second))
        else wret tt) ;;;
       let args := with_context ["create"; name; "--connect=false"] in
       let createCmd := mkCmd NoCtx "vcluster" args "" [] [] in
       Printf ("Creating vcluster " +:+ strconv_Quote name +:+ newline) ;;;
       r <- cmd_Run createCmd ;;
       match res_err r with
       | None => wret None
       | Some e =>
           Printf ("failed to create vcluster, retrying...: "
                   +:+ Error e +:+ newline) ;;;
           Create_loop name rest (Some e)
       end)%world
  end.

Definition Create (name : string) : W (option error) :=
  Create_loop name (seq 0 3) None.
End Vcluster.
End vcluster_hostcontext.

(** Every process [create] starts is the command [c]. *)
Definition starts_only (create : W (option error)) (c : Cmd) : Prop :=
  forall w : World, exists evs : list Event,
    snd (create w) = w ++ evs /\ Forall (eq c) (exec_cmds evs).

(** ** The provider of a run *)

Section ProviderSpec.
Context {O : Outside}.
Import main.

(** A frame with the cluster provider replaced. *)
Definition with_provider (p : cluster.Provider) (f : Frame) : Frame :=
  let e := fr_x f in
  mkFrame (fr_world f) (fr_logBuffer f) (fr_result f)
    (mkTaskExecution (kubeConfig e) (AgentBin e) (llmConfig e) (log e) (task e)
       (taskID e) (taskDir e) (taskOutputDir e) (cleanupFunctions e) p).

(** [m] does the same whatever the provider of the frame is. *)
Definition ignores_provider {A} (m : M A) (f : Frame) : Prop :=
  forall p, m (with_provider p f) = (fst (m f), with_provider p (snd (m f))).
End ProviderSpec.

(** ** More runs in the concrete outside *)

Module scenes.

(** A task that asks for a cluster of its own. *)
Definition isolated_task : Task :=
  mkTask "" "verify.sh" "" false []
    [mkScriptStep "scale the web deployment to 3 replicas" ""] "cluster" "".

Definition iso_name : string := "k8s-ai-bench-scale".

Definition iso_f0 : main.Frame :=
  main.initial_frame (O := demo.all_fine) demo.config "scale" isolated_task demo.llm
    (kind.New (O := demo.all_fine)) "/work/tasks/scale" [].

(** The world once the cluster of that task is created. *)
Definition iso_created : World :=
  snd (kind.Create (O := demo.all_fine) iso_name []).

(** No cluster can be created: [kind] exits with status 1. *)
Definition no_cluster : Outside :=
  demo.outside (demo.exec_table [("kind", demo.exit_status 1)])
               (fun _ => None) demo.no_dir demo.no_file.

Definition not_created : World :=
  snd (kind.Create (O := no_cluster) iso_name []).

Definition create_error : error :=
  wrapError "failed to create kind cluster after multiple retries: exit status 1"
            (errorString "exit status 1").

(** The agent is killed, before any deadline, in the task that scales
    a deployment. *)
Definition killed : Outside :=
  demo.outside (demo.exec_table [("/bin/agent", demo.agent_killed)])
               (fun _ => None) demo.no_dir demo.no_file.

Definition killed_f0 : main.Frame :=
  main.initial_frame (O := killed) demo.config "scale" demo.scale_task demo.llm
    (kind.New (O := killed)) "/work/tasks/scale" [].
Definition killed_f1 : main.Frame := snd (main.runSetup (O := killed) killed_f0).
Definition killed_f2 : main.Frame := snd (main.runAgent (O := killed) killed_f1).

(** The agent looks at the deployment and leaves it as it is; the
    verifier exits with status 1. *)
Definition idle_transcript : string :=
  "Running: kubectl get deployment web" +:+ newline +:+
  "web 1/1 1 1 5m" +:+ newline.

Definition agent_idle : CmdResult := mkCmdResult idle_transcript idle_transcript None.

Definition nothing_done : Outside :=
  demo.outside (demo.exec_table [("/bin/agent", agent_idle);
                                 ("/work/tasks/scale/verify.sh", demo.exit_status 1)])
               (fun _ => None) demo.no_dir demo.no_file.

Definition idle_f0 : main.Frame :=
  main.initial_frame (O := nothing_done) demo.config "scale" demo.scale_task demo.llm
    (kind.New (O := nothing_done)) "/work/tasks/scale" [].
Definition idle_f1 : main.Frame := snd (main.runSetup (O := nothing_done) idle_f0).
Definition idle_f2 : main.Frame := snd (main.runAgent (O := nothing_done) idle_f1).

(** A task whose only prompt is in a file that does not exist, and
    which is given one second. *)
Definition lost_prompt_task : Task :=
  mkTask "" "" "" false [] [mkScriptStep "" "prompt.md"] "" "1s".

Definition lost_f0 : main.Frame :=
  main.initial_frame (O := demo.deadline_expires) demo.config "nap" lost_prompt_task
    demo.llm (kind.New (O := demo.deadline_expires)) "/work/tasks/nap" [].
Definition lost_f1 : main.Frame := snd (main.runSetup (O := demo.deadline_expires) lost_f0).
Definition lost_f2 : main.Frame := snd (main.runAgent (O := demo.deadline_expires) lost_f1).

(** A tasks directory and a configuration that asks for the tasks
    whose name holds [scale]. *)
Definition tasks_dir : list DirEntry :=
  [mkDirEntry "scale" true; mkDirEntry "README.md" false;
   mkDirEntry "scale-down" true; mkDirEntry "fix-probe" true].

Definition tasks_files (p : string) : res string :=
  if bool_decide (p = "tasks/scale/task.yaml") then Ok "verify.sh"
  else if bool_decide (p = "tasks/scale-down/task.yaml") then Ok "disabled"
  else if bool_decide (p = "tasks/fix-probe/task.yaml") then Ok "broken"
  else Err (errorString ("open " +:+ p +:+ ": no such file or directory")).

Definition on_disk : Outside :=
  demo.outside (demo.exec_table []) (fun _ => None) (fun _ => Ok tasks_dir) tasks_files.

Definition scale_only : EvalConfig :=
  mkEvalConfig [] "/kube/config" "tasks" "scale" "/bin/agent" "kind" "out".

(** The output of an agent that ran two commands. *)
Definition two_commands : string :=
  "Running: kubectl get deployment web" +:+ newline +:+
  "web 1/1 1 1 5m" +:+ newline +:+
  "Running: kubectl scale deployment web --replicas=3" +:+ newline +:+
  "deployment.apps/web scaled to 3 replicas" +:+ newline.

(** The working directory of the harness is gone: no path can be
    made absolute. *)
Definition no_work_dir : Outside :=
  {| strconv_Quote := demo.Quote;
     Duration_String := fun d => pretty (d / Second) +:+ "s";
     time_ParseDuration := demo.ParseDuration;
     filepath_Join := fun elems => strings_Join elems "/";
     filepath_Abs := fun _ => Err (errorString "getwd: no such file or directory");
     os_Environ := [];
     Regexp := string;
     regexp_Compile := demo.Compile;
     MatchString := demo.Match;
     yaml_Unmarshal_Task := demo.Unmarshal;
     json_Unmarshal_Names := fun s => Ok (split_lines s);
     IsolationModeCluster := "cluster";
     exec_oracle := demo.exec_table [];
     os_WriteFile_oracle := fun _ _ _ => None;
     os_ReadDir_oracle := fun _ => demo.no_dir;
     os_ReadFile_oracle := fun _ => demo.no_file;
     ResolvePrompt_oracle := fun _ step _ => demo.Resolve step;
     taskCtx_Err_oracle := fun _ => None |}.

(** A configuration whose task pattern is not a regular expression. *)
Definition bad_pattern_config : EvalConfig :=
  mkEvalConfig [] "/kube/config" "tasks" "(" "/bin/agent" "kind" "out".

End scenes.

(** * Proofs *)

Import main.

(** Unfold the plumbing of the state monads. *)
Ltac unmonad :=
  unfold wbind, wret, lift, get_x, modify_x, modify_result, get_logBuffer,
         log_Write, Printf, emit, cmd_Run, os_WriteFile in *.

(** ** The providers *)

Section Providers.
Context {O : Outside}.

(** Name the answer of the next process and split on its error. *)
Ltac name_run r E :=
  match goal with
  | |- context [exec_oracle ?w ?c] =>
      lazymatch w with
      | context [exec_oracle _ _] => fail
      | _ => set (r := exec_oracle w c) in *; destruct (res_err r) eqn:E
      end
  end.

Ltac close_retry :=
  eexists; split;
  [ cbn [fst snd]; rewrite <- ?app_assoc; reflexivity
  | cbn -[Z.mul Second]; repeat split; eauto 10; try lia;
    try (repeat constructor; congruence) ].

Lemma kind_Create_retries (name : string) : retries_thrice (kind.Create name).
Proof.
  intros w. unfold kind.Create. cbn [seq kind.Create_loop].
  unfold wbind, wret, Printf, time_Sleep, emit, cmd_Run. cbn [Nat.ltb Nat.leb].
  name_run r1 E1; [name_run r2 E2; [name_run r3 E3|]|]; close_retry.
Qed.

Lemma vcluster_Create_retries (p : vcluster.Provider) (name : string) :
  retries_thrice (vcluster.Create p name).
Proof.
  intros w. unfold vcluster.Create. cbn [seq vcluster.Create_loop].
  unfold wbind, wret, Printf, time_Sleep, emit, cmd_Run. cbn [Nat.ltb Nat.leb].
  name_run r1 E1; [name_run r2 E2; [name_run r3 E3|]|]; close_retry.
Qed.

(** C7.  [Create] of the kind provider and of the vcluster provider
    starts at most three provisioning processes, pauses five seconds
    before each retry and before nothing else, returns nil as soon as
    one succeeds (after i processes and i-1 pauses when the i-th is
    the first to succeed) and, when all three fail, returns an error
    that wraps the error of the last one. *)
Theorem Create_retries_three_times (name : string) :
  retries_thrice (kind.Create name) /\
  forall p : vcluster.Provider, retries_thrice (vcluster.Create p name).
Proof.
  split; [apply kind_Create_retries | intros p; apply vcluster_Create_retries].
Qed.
End Providers.

(** ** What the helpers of [evaluateTask] do to its variables *)

Section Frames.
Context {O : Outside}.

Lemma same_static_refl e : same_static e e.
Proof. repeat split. Qed.

Lemma lift_frame {A} (m : W A) (f : Frame) :
  lift m f = (fst (m (fr_world f)),
              mkFrame (snd (m (fr_world f))) (fr_logBuffer f) (fr_result f) (fr_x f)).
Proof. unfold lift. destruct (m (fr_world f)); reflexivity. Qed.

Lemma runCommand_frame (cmd : Cmd) (f : Frame) :
  let w1 := fr_world f ++ [EvPrint (newline +:+ "Running command: " +:+ cmd_line cmd +:+ newline)] in
  let r := exec_oracle w1 cmd in
  runCommand cmd f =
    (match res_err r with
     | Some err => Some (Errorf_w ("running command " +:+ cmd_line cmd +:+ ": ") (Some err))
     | None => None
     end,
     mkFrame (w1 ++ [EvExec cmd r])
             (if log (fr_x f) then fr_logBuffer f +:+ res_combined r else fr_logBuffer f)
             (fr_result f) (fr_x f)).
Proof.
  unfold runCommand. unmonad. cbn.
  destruct (log (fr_x f)); destruct (res_err _); reflexivity.
Qed.

Lemma runSetup_script_frame (f : Frame) :
  fr_result (snd (runSetup_script f)) = fr_result f /\
  fr_x (snd (runSetup_script f)) = fr_x f.
Proof.
  unfold runSetup_script, wbind, get_x. cbv beta iota.
  destruct (bool_decide _); [done|]. rewrite runCommand_frame. done.
Qed.

Lemma runSetup_cluster_frame (f : Frame) :
  fr_result (snd (runSetup_cluster f)) = fr_result f /\
  same_static (fr_x f) (fr_x (snd (runSetup_cluster f))).
Proof.
  unfold runSetup_cluster. unmonad. cbn.
  destruct (cluster.Create _ _ _) as [[err|] w1]; cbn; [done|].
  destruct (cluster.GetKubeconfig _ _ _) as [[bytes|err] w2]; cbn; [|done].
  destruct (os_WriteFile_oracle _ _ _); done.
Qed.

Lemma runSetup_frame (f : Frame) :
  fr_result (snd (runSetup f)) = fr_result f /\
  same_static (fr_x f) (fr_x (snd (runSetup f))).
Proof.
  unfold runSetup. unfold wbind, get_x. cbv beta iota.
  destruct (bool_decide _).
  - pose proof (runSetup_cluster_frame f) as [Hr Hs].
    destruct (runSetup_cluster f) as [[err|] f1]; cbn [fst snd] in *;
      cbv beta iota; [done|].
    pose proof (runSetup_script_frame f1) as [Hr' Hx'].
    rewrite Hr', Hx'. done.
  - unfold wret. cbv beta iota.
    pose proof (runSetup_script_frame f) as [Hr' Hx'].
    rewrite Hr', Hx'. split; [done | apply same_static_refl].
Qed.

(** *** The expectations *)

Lemma check_expectations_acc es out acc :
  check_expectations es out acc = acc ++ check_expectations es out [].
Proof.
  revert acc. induction es as [|e es IH]; intros acc; cbn.
  - by rewrite app_nil_r.
  - destruct (bool_decide _); [apply IH|].
    destruct (regexp_Compile _) as [re|err].
    + destruct (MatchString re out); [apply IH|].
      rewrite IH, (IH [_]). by rewrite app_assoc.
    + rewrite IH, (IH [_]). by rewrite app_assoc.
Qed.

Lemma check_expectations_nil_iff es out :
  check_expectations es out [] = [] <-> Forall (expectation_matched out) es.
Proof.
  induction es as [|e es IH]; cbn.
  - split; [constructor | done].
  - destruct (bool_decide (Contains e = "")) eqn:He.
    + apply bool_decide_eq_true in He. rewrite IH. split.
      * intros Hes. constructor; [by left | done].
      * by inversion 1.
    + apply bool_decide_eq_false in He.
      destruct (regexp_Compile (Contains e)) as [re|err] eqn:Hc.
      * destruct (MatchString re out) eqn:Hm.
        -- rewrite IH. split.
           ++ intros Hes. constructor; [right; eauto | done].
           ++ by inversion 1.
        -- rewrite check_expectations_acc. split; [done|].
           inversion 1 as [|?? [Hempty|(re' & Hc' & Hm')] Hrest]; subst; [done|].
           congruence.
      * rewrite check_expectations_acc. split; [done|].
        inversion 1 as [|?? [Hempty|(re' & Hc' & Hm')] Hrest]; subst; [done|].
        congruence.
Qed.

(** *** The agent *)

Lemma feed_prompts_frame steps lines f :
  let f' := snd (feed_prompts steps lines f) in
  fr_x f' = fr_x f /\ fr_world f' = fr_world f /\
  fr_logBuffer f' = fr_logBuffer f /\
  (fr_result f' = fr_result f \/
   exists err, fr_result f' =
     model.AddFailure ("failed to resolve prompt: " +:+ Error err) (fr_result f)).
Proof.
  revert lines. induction steps as [|step steps IH]; intros lines; cbn.
  - auto.
  - unmonad. cbn. destruct (ResolvePrompt_oracle _ _ _) as [prompt|err]; cbn.
    + destruct f. apply IH.
    + eauto 10.
Qed.

Lemma runAgent_frame f a f' :
  runAgent f = (a, f') ->
  fr_x f' = fr_x f /\
  (fr_result f' = fr_result f \/
   exists err, fr_result f' =
     model.AddFailure ("failed to resolve prompt: " +:+ Error err) (fr_result f)).
Proof.
  intros Hrun. unfold runAgent in Hrun. unfold wbind, get_x in Hrun.
  pose proof (feed_prompts_frame (Script (task (fr_x f))) [] f) as (Hx & Hw & Hl & Hr).
  destruct (feed_prompts _ _ _) as [stdin f1]. cbn [snd] in *.
  unmonad. cbn in Hrun. rewrite Hx in Hrun.
  destruct (res_err _); destruct (log (fr_x f)); simplify_eq; cbn; auto.
Qed.

(** *** The verification phase *)

Lemma effective_task_fields config task :
  Expect (effective_task config task) = Expect task /\
  Verifier (effective_task config task) = Verifier task /\
  Setup (effective_task config task) = Setup task /\
  Cleanup (effective_task config task) = Cleanup task /\
  Script (effective_task config task) = Script task.
Proof. unfold effective_task. destruct (bool_decide _); done. Qed.

Lemma run_expectations_eq out f :
  run_expectations out f =
    (expectationFailures_of (task (fr_x f)) out,
     mkFrame (fr_world f ++ expectation_events (task (fr_x f)) out)
             (fr_logBuffer f) (fr_result f) (fr_x f)).
Proof.
  unfold run_expectations, expectation_events, expectationsMet_of, expectationFailures_of.
  unmonad. cbv beta iota.
  destruct (0 <? length (Expect (task (fr_x f))))%nat; cbn [andb fr_world].
  - destruct (length (check_expectations _ _ _) =? 0)%nat; [done|].
    by rewrite app_nil_r; destruct f.
  - by rewrite app_nil_r; destruct f.
Qed.

Lemma agent_succeeded_no_verifier out f :
  Verifier (task (fr_x f)) = "" ->
  agent_succeeded out f =
    (tt, mkFrame (fr_world f ++ expectation_events (task (fr_x f)) out)
           (fr_logBuffer f)
           (final_result (task (fr_x f)) out (fr_result f))
           (fr_x f)).
Proof.
  intros Hv. unfold agent_succeeded. unfold wbind at 1 2, get_x. cbv beta iota.
  rewrite run_expectations_eq. unfold run_verifier, wbind, get_x. cbn [fr_x].
  rewrite Hv. cbn. unfold final_result, expectationsMet_of.
  destruct (_ && _); done.
Qed.

Lemma agent_succeeded_verifier out f :
  Verifier (task (fr_x f)) <> "" ->
  let e := fr_x f in
  let w1 := fr_world f ++ expectation_events (task e) out
            ++ [EvPrint (newline +:+ "Running verifier for task " +:+ taskID e +:+ newline);
                EvPrint (newline +:+ "Running command: " +:+ cmd_line (verifier_cmd e) +:+ newline)] in
  let r := exec_oracle w1 (verifier_cmd e) in
  let logString := if log e then fr_logBuffer f +:+ res_combined r else fr_logBuffer f in
  agent_succeeded out f =
    (tt, mkFrame (w1 ++ [EvExec (verifier_cmd e) r]) logString
           (match res_err r with
            | None => model.set_Result "success" (fr_result f)
            | Some err =>
                final_result (task e) out
                  (model.AddFailure
                     (with_log_tail "verifier script failed: "
                        (Errorf_w ("running command " +:+ cmd_line (verifier_cmd e) +:+ ": ") (Some err))
                        logString maxLogLines (taskOutputDir e))
                     (fr_result f))
            end)
           e).
Proof.
  intros Hv e w1 r logString. unfold agent_succeeded, run_verifier.
  unfold wbind, get_x. cbv beta iota.
  rewrite run_expectations_eq. cbn [fr_x].
  rewrite bool_decide_eq_false_2 by done.
  rewrite lift_frame. cbn [fst snd Printf emit fr_world fr_logBuffer fr_result fr_x].
  rewrite runCommand_frame.
  cbn [fr_world fr_logBuffer fr_result fr_x].
  subst logString r w1 e. unfold verifier_cmd.
  rewrite <- !app_assoc. cbn [app].
  destruct (res_err _) as [err|]; unmonad; cbn [fst snd fr_world fr_logBuffer fr_result fr_x orb].
  - unfold final_result, expectationsMet_of. destruct (_ && _); done.
  - done.
Qed.

Lemma expectationFailures_of_eq t out :
  expectationFailures_of t out = check_expectations (Expect t) (lastCmdOutput out) [].
Proof. unfold expectationFailures_of. by destruct (Expect t). Qed.

Lemma expectationsMet_of_iff t out :
  expectationsMet_of t out = true <->
  Expect t <> [] /\ Forall (expectation_matched (lastCmdOutput out)) (Expect t).
Proof.
  unfold expectationsMet_of. rewrite expectationFailures_of_eq.
  rewrite <- check_expectations_nil_iff.
  rewrite andb_true_iff, Nat.ltb_lt, Nat.eqb_eq, length_zero_iff_nil.
  destruct (Expect t); cbn; [|split; intros []; split; (lia || done)].
  split; intros []; (lia || done).
Qed.

Lemma exec_events_app evs1 evs2 :
  exec_events (evs1 ++ evs2) = exec_events evs1 ++ exec_events evs2.
Proof. unfold exec_events. by rewrite omap_app. Qed.

Lemma exec_events_expectation t out : exec_events (expectation_events t out) = [].
Proof. unfold expectation_events. by destruct (expectationsMet_of t out). Qed.

Lemma final_result_cases t out r :
  (expectationsMet_of t out = true /\
   model.Result (final_result t out r) = "success") \/
  (expectationsMet_of t out = false /\
   model.Result (final_result t out r) = "fail" /\
   model.Failures (final_result t out r) =
     model.Failures r ++ check_expectations (Expect t) (lastCmdOutput out) []).
Proof.
  unfold final_result. rewrite <- expectationFailures_of_eq.
  destruct (expectationsMet_of t out); [left | right]; done.
Qed.


End Frames.

(** ** Lines of a string *)

Section Lines.

Lemma append_cons (ch : Ascii.ascii) (a b : string) :
  String ch a +:+ b = String ch (a +:+ b).
Proof. reflexivity. Qed.

Lemma append_nil_r (a : string) : a +:+ "" = a.
Proof. induction a as [|ch a IH]; [done|]. rewrite append_cons. by f_equal. Qed.

Lemma append_assoc (a b c : string) : (a +:+ b) +:+ c = a +:+ b +:+ c.
Proof.
  induction a as [|ch a IH]; [done|]. rewrite !append_cons. by f_equal.
Qed.

Lemma split_lines_nonempty (s : string) : split_lines s <> [].
Proof.
  induction s as [|c s IH]; cbn; [done|].
  destruct (is_newline c); [done|]. by destruct (split_lines s).
Qed.

Lemma is_newline_true (c : Ascii.ascii) :
  is_newline c = true -> String c "" = newline.
Proof. unfold is_newline. intros ->%Ascii.eqb_eq. done. Qed.

(** [strings.Join(strings.Split(s, "\n"), "\n")] is [s]. *)
Lemma join_split_lines (s : string) : strings_Join (split_lines s) newline = s.
Proof.
  induction s as [|c s IH]; [done|]. cbn [split_lines].
  pose proof (split_lines_nonempty s) as Hne.
  destruct (is_newline c) eqn:Hc.
  - apply is_newline_true in Hc. injection Hc as ->.
    destruct (split_lines s) as [|l ls]; [done|].
    change (strings_Join ("" :: l :: ls) newline)
      with ("" +:+ newline +:+ strings_Join (l :: ls) newline).
    by rewrite IH.
  - destruct (split_lines s) as [|l ls]; [done|].
    rewrite <- IH. destruct ls as [|l' ls]; [done|].
    change (strings_Join (String c l :: l' :: ls) newline)
      with (String c l +:+ newline +:+ strings_Join (l' :: ls) newline).
    by rewrite append_cons.
Qed.

Lemma split_lines_no_newline (s : string) :
  Forall (fun l => has_newline l = false) (split_lines s).
Proof.
  induction s as [|c s IH]; cbn [split_lines]; [by repeat constructor|].
  destruct (is_newline c) eqn:Hc; [by constructor|].
  destruct (split_lines s) as [|l ls]; [by repeat constructor; cbn; rewrite Hc|].
  inversion IH; subst. constructor; [cbn; by rewrite Hc | done].
Qed.

Lemma split_lines_line (l : string) :
  has_newline l = false -> split_lines l = [l].
Proof.
  induction l as [|c l IH]; cbn; [done|].
  intros [Hc Hl]%orb_false_iff. rewrite Hc, IH; done.
Qed.

Lemma split_lines_append_line (l rest : string) :
  has_newline l = false ->
  split_lines (l +:+ newline +:+ rest) = l :: split_lines rest.
Proof.
  induction l as [|c l IH]; cbn [split_lines has_newline].
  - done.
  - intros [Hc Hl]%orb_false_iff. rewrite append_cons. cbn [split_lines].
    rewrite Hc, IH; done.
Qed.

(** [strings.Split(strings.Join(ls, "\n"), "\n")] is [ls], for lines
    without a newline. *)
Lemma split_lines_join (ls : list string) :
  ls <> [] -> Forall (fun l => has_newline l = false) ls ->
  split_lines (strings_Join ls newline) = ls.
Proof.
  induction ls as [|l ls IH]; [done|]. intros _ Hall.
  inversion Hall as [|?? Hl Hls]; subst.
  destruct ls as [|l' ls].
  - by apply split_lines_line.
  - change (strings_Join (l :: l' :: ls) newline)
      with (l +:+ newline +:+ strings_Join (l' :: ls) newline).
    rewrite split_lines_append_line by done. by rewrite IH.
Qed.

Lemma strings_Join_app (ls1 ls2 : list string) (sep : string) :
  ls1 <> [] -> ls2 <> [] ->
  strings_Join (ls1 ++ ls2) sep =
    strings_Join ls1 sep +:+ sep +:+ strings_Join ls2 sep.
Proof.
  induction ls1 as [|l ls1 IH]; [done|]. intros _ Hne.
  destruct ls1 as [|l' ls1].
  - destruct ls2; done.
  - change (strings_Join ((l :: l' :: ls1) ++ ls2) sep)
      with (l +:+ sep +:+ strings_Join ((l' :: ls1) ++ ls2) sep).
    rewrite IH by done.
    change (strings_Join (l :: l' :: ls1) sep)
      with (l +:+ sep +:+ strings_Join (l' :: ls1) sep).
    by rewrite !append_assoc.
Qed.

(** What [getLastNLines] returns for a positive [n]: a suffix of the
    string of at most [n] lines, cut at the start of a line, and
    whether lines were dropped, which is so exactly when the string
    has more than [n] lines. *)
Lemma getLastNLines_spec (s : string) (n : nat) :
  (0 < n)%nat ->
  let (logTail, truncated) := getLastNLines s n in
  (length (split_lines logTail) <= n)%nat /\
  (truncated = true <-> (n < length (split_lines s))%nat) /\
  (if truncated
   then exists dropped, s = dropped +:+ newline +:+ logTail /\
                        length (split_lines logTail) = n
   else logTail = s).
Proof.
  intros Hn. unfold getLastNLines.
  destruct (n <? length (split_lines s))%nat eqn:Hlt.
  - apply Nat.ltb_lt in Hlt.
    set (lines := split_lines s) in *. set (k := (length lines - n)%nat).
    assert (Hd : drop k lines <> []).
    { intros Hd%(f_equal length). rewrite length_drop in Hd. cbn in Hd. lia. }
    assert (Ht : take k lines <> []).
    { intros Ht%(f_equal length). rewrite length_take in Ht. cbn in Ht. lia. }
    assert (Hnl : Forall (fun l => has_newline l = false) (drop k lines)).
    { apply Forall_drop, split_lines_no_newline. }
    rewrite split_lines_join by done.
    rewrite length_drop. repeat split; [lia.. | ].
    exists (strings_Join (take k lines) newline). split; [|lia].
    rewrite <- strings_Join_app by done.
    rewrite take_drop. subst lines. by rewrite join_split_lines.
  - apply Nat.ltb_ge in Hlt. repeat split; (done || lia).
Qed.
End Lines.

(** ** The agent returns an error *)

Section AgentError.
Context {O : Outside}.

Lemma feed_prompts_resolved steps lines f :
  (forall w' step, step ∈ steps ->
     exists p, ResolvePrompt_oracle w' step (taskDir (fr_x f)) = Ok p) ->
  fr_result (snd (feed_prompts steps lines f)) = fr_result f.
Proof.
  revert lines. induction steps as [|step steps IH]; intros lines Hall; [done|].
  cbn [feed_prompts]. unmonad. cbn.
  destruct (Hall (fr_world f) step) as [p Hp]; [by left|]. rewrite Hp.
  destruct f. apply IH. intros w' step' Hin. apply Hall. by right.
Qed.

Lemma runAgent_resolved f a f' :
  runAgent f = (a, f') ->
  (forall w' step, step ∈ Script (task (fr_x f)) ->
     exists p, ResolvePrompt_oracle w' step (taskDir (fr_x f)) = Ok p) ->
  fr_result f' = fr_result f.
Proof.
  intros Hrun Hall. unfold runAgent in Hrun. unfold wbind, get_x in Hrun.
  pose proof (feed_prompts_resolved _ [] f Hall) as Hr.
  destruct (feed_prompts _ _ _) as [stdin f1]. cbn [snd] in *.
  unmonad. cbn in Hrun.
  destruct (res_err _); destruct (log (fr_x f1)); simplify_eq; cbn; auto.
Qed.

Lemma agent_failed_eq timeout err f :
  agent_failed timeout err f =
    (tt, mkFrame (fr_world f) (fr_logBuffer f)
           (match taskCtx_Err_oracle (fr_world f) with
            | Some DeadlineExceeded =>
                model.AddFailure ("task timed out after " +:+ Duration_String timeout)
                  (model.set_Result "fail" (fr_result f))
            | _ =>
                model.set_Error
                  (with_log_tail "agent encountered error: " err (fr_logBuffer f)
                     maxErrLogLines (taskOutputDir (fr_x f)))
                  (model.set_Result "error" (fr_result f))
            end)
           (fr_x f)).
Proof.
  unfold agent_failed. unmonad. cbn.
  destruct (taskCtx_Err_oracle (fr_world f)) as [[]|]; done.
Qed.

Lemma feed_prompts_eq (steps : list ScriptStep) (lines : list string) (f : Frame) :
  feed_prompts steps lines f =
    (lines ++ fst (resolved_prompts (fr_world f) (taskDir (fr_x f)) steps),
     mkFrame (fr_world f) (fr_logBuffer f)
       (match snd (resolved_prompts (fr_world f) (taskDir (fr_x f)) steps) with
        | Some err =>
            model.AddFailure ("failed to resolve prompt: " +:+ Error err) (fr_result f)
        | None => fr_result f
        end)
       (fr_x f)).
Proof.
  revert lines. induction steps as [|step steps IH]; intros lines.
  - cbn. rewrite app_nil_r. by destruct f.
  - cbn [feed_prompts resolved_prompts]. unmonad. cbn [fst snd].
    destruct (ResolvePrompt_oracle _ _ _) as [prompt|err]; cbn [fst snd].
    + destruct f as [w l r x]. rewrite IH. cbn [fr_world fr_x fr_logBuffer fr_result].
      destruct (resolved_prompts w (taskDir x) steps) as [prompts failed].
      cbn [fst snd]. by rewrite <- app_assoc.
    + by rewrite app_nil_r.
Qed.

Lemma runAgent_eq (f : Frame) :
  let e := fr_x f in
  let prompts := fst (resolved_prompts (fr_world f) (taskDir e) (Script (task e))) in
  let failed := snd (resolved_prompts (fr_world f) (taskDir e) (Script (task e))) in
  let r := exec_oracle (fr_world f) (agent_cmd e prompts) in
  runAgent f =
    (match res_err r with
     | Some err => Err err
     | None => Ok (if log e then res_stdout r else "")
     end,
     mkFrame (fr_world f ++ [EvExec (agent_cmd e prompts) r])
       (if log e then fr_logBuffer f +:+ res_combined r else fr_logBuffer f)
       (match failed with
        | Some err =>
            model.AddFailure ("failed to resolve prompt: " +:+ Error err) (fr_result f)
        | None => fr_result f
        end)
       e).
Proof.
  intros e prompts failed r. unfold runAgent. unfold wbind at 1 2. unfold get_x.
  cbv beta iota. rewrite feed_prompts_eq. fold e. fold prompts. fold failed.
  unmonad. cbn [fst snd fr_world fr_x fr_result fr_logBuffer app].
  subst r. unfold agent_cmd. cbn [app].
  destruct (log e); destruct (res_err _); done.
Qed.

(** C5, as amended.  When [runAgent] returns an error and the deadline
    of the task has expired, the outcome is [fail], no error string is
    set, and the last Failure is one that notes the timeout; it is the
    only Failure when every prompt of the script resolved, and
    otherwise it follows the Failure of the first prompt that did not
    resolve.  When [runAgent] returns an error and the deadline has not
    expired, the outcome is [error] and the error string carries the
    agent's error and the tail of the log: at most three lines, a
    suffix of the log that starts at the start of a line, followed by
    a note when lines were dropped. *)
Theorem agent_error_outcome (config : EvalConfig) (tid : string)
    (t : Task) (llmConfig : model.LLMConfig) (provider : cluster.Provider) (w : World)
    (timeout : Duration) (taskDirAbs : string) (f1 f2 : Frame) (err : error) :
  let f0 := initial_frame config tid t llmConfig provider taskDirAbs w in
  task_timeout t = Ok timeout ->
  filepath_Abs (filepath_Join [TasksDir config; tid]) = Ok taskDirAbs ->
  runSetup f0 = (None, f1) ->
  runAgent f1 = (Err err, f2) ->
  let r := fst (evaluateTask config tid t llmConfig provider w) in
  (taskCtx_Err_oracle (fr_world f2) = Some DeadlineExceeded ->
     model.Result r = "fail" /\ model.Error r = "" /\
     model.Failures r =
       match snd (resolved_prompts (fr_world f1) taskDirAbs (Script t)) with
       | Some e' => [model.mkFailure ("failed to resolve prompt: " +:+ Error e')]
       | None => []
       end
       ++ [model.mkFailure ("task timed out after " +:+ Duration_String timeout)]) /\
  (taskCtx_Err_oracle (fr_world f2) <> Some DeadlineExceeded ->
     model.Result r = "error" /\ model.Failures r = model.Failures (fr_result f2) /\
     exists logTail truncated,
       getLastNLines (fr_logBuffer f2) maxErrLogLines = (logTail, truncated) /\
       (length (split_lines logTail) <= 3)%nat /\
       (if truncated
        then exists dropped, fr_logBuffer f2 = dropped +:+ newline +:+ logTail
        else logTail = fr_logBuffer f2) /\
       model.Error r =
         "agent encountered error: " +:+ Error err +:+ newline +:+ "---LOG---"
         +:+ newline +:+ logTail +:+
         (if truncated
          then newline +:+ "... (log truncated, full log at "
               +:+ filepath_Join [OutputDir config; tid] +:+ ")"
          else "")).
Proof.
  intros f0 Ht Habs Hsetup Hagent r. subst r.
  unfold evaluateTask. rewrite Ht, Habs. fold f0. cbn [fst].
  unfold evaluateTask_phases, wbind. rewrite Hsetup, Hagent.
  pose proof (runSetup_frame f0) as [Hres Hs]. rewrite Hsetup in Hres, Hs.
  cbn [snd] in Hres, Hs.
  destruct Hs as (_ & _ & _ & Htask & _ & Hdir & Hout & _).
  pose proof (runAgent_frame _ _ _ Hagent) as [Hx Hr].
  rewrite agent_failed_eq. cbn [snd fr_result].
  split.
  - intros ->. cbn. split; [done|].
    assert (Hf0 : fr_result f1 = model.mkTaskResult tid llmConfig "" "" []) by done.
    assert (Hf2 : fr_result f2 =
              match snd (resolved_prompts (fr_world f1) taskDirAbs (Script t)) with
              | Some e' =>
                  model.AddFailure ("failed to resolve prompt: " +:+ Error e')
                    (fr_result f1)
              | None => fr_result f1
              end).
    { pose proof (runAgent_eq f1) as Heq. cbv zeta in Heq. rewrite Hagent in Heq.
      injection Heq as _ ->. cbn [fr_result]. rewrite Htask, Hdir. cbn.
      destruct (effective_task_fields config t) as (_ & _ & _ & _ & ->). done. }
    rewrite Hf2, Hf0.
    destruct (snd (resolved_prompts (fr_world f1) taskDirAbs (Script t))); done.
  - intros Hnd.
    assert (Hres' : exists r', 
      match taskCtx_Err_oracle (fr_world f2) with
      | Some DeadlineExceeded =>
          model.AddFailure ("task timed out after " +:+ Duration_String timeout)
            (model.set_Result "fail" (fr_result f2))
      | _ => model.set_Error
               (with_log_tail "agent encountered error: " err (fr_logBuffer f2)
                  maxErrLogLines (taskOutputDir (fr_x f2)))
               (model.set_Result "error" (fr_result f2))
      end = r' /\ r' = model.set_Error
               (with_log_tail "agent encountered error: " err (fr_logBuffer f2)
                  maxErrLogLines (taskOutputDir (fr_x f2)))
               (model.set_Result "error" (fr_result f2))).
    { eexists; split; [reflexivity|].
      destruct (taskCtx_Err_oracle (fr_world f2)) as [[]|]; done. }
    destruct Hres' as (r' & -> & ->). cbn [model.Result model.set_Error model.set_Result
      model.Failures model.Error].
    split; [done|]. split; [done|].
    unfold with_log_tail.
    pose proof (getLastNLines_spec (fr_logBuffer f2) maxErrLogLines) as Hspec.
    destruct (getLastNLines (fr_logBuffer f2) maxErrLogLines) as [logTail truncated].
    specialize (Hspec ltac:(unfold maxErrLogLines; lia)).
    destruct Hspec as (Hlen & _ & Hsuf).
    exists logTail, truncated. split; [done|]. split; [done|].
    rewrite Hx, Hout. cbn [taskOutputDir initial_frame fr_x f0 set_taskDir].
    destruct truncated.
    + destruct Hsuf as (dropped & Hd & _). split; [eauto|].
      by rewrite !append_assoc.
    + split; [done|]. by rewrite append_nil_r.
Qed.
End AgentError.

(** ** Cleanup *)

Section Cleanup.
Context {O : Outside}.

Lemma prefix_append (a b : string) : String.prefix a (a +:+ b) = true.
Proof.
  induction a as [|ch a IH]; [by destruct b|].
  rewrite append_cons. cbn. destruct (Ascii.ascii_dec ch ch); done.
Qed.

Lemma omap_id_Some {A} (l : list A) : omap id (map Some l) = l.
Proof. induction l as [|a l IH]; [done|]. cbn. by rewrite IH. Qed.

Lemma errors_Join_omap (es : list (option error)) :
  errors_Join (map Some (omap id es)) = errors_Join es.
Proof. unfold errors_Join. by rewrite omap_id_Some. Qed.

(** The loop over the cleanup functions runs every one of them, in
    the order of the list, and keeps the errors. *)
Lemma run_cleanupFunctions_all fns errs f :
  run_cleanupFunctions fns errs f =
    (errs ++ omap id (fst (run_all fns (fr_world f))),
     mkFrame (snd (run_all fns (fr_world f))) (fr_logBuffer f) (fr_result f) (fr_x f)).
Proof.
  revert errs f. induction fns as [|fn fns IH]; intros errs f.
  - cbn. rewrite app_nil_r. by destruct f.
  - cbn [run_cleanupFunctions run_all]. unfold wbind. rewrite lift_frame.
    destruct (fn (fr_world f)) as [[err|] w1]; cbn [fst snd];
      rewrite IH; cbn [fr_world fr_logBuffer fr_result fr_x];
      destruct (run_all fns w1) as [es w2]; cbn [fst snd omap].
    + cbn. by rewrite <- app_assoc.
    + done.
Qed.

Lemma runCleanup_eq (f : Frame) :
  exists evs logString,
    script_contract f evs /\
    runCleanup f =
      (errors_Join (fst (run_all (cleanupFunctions (fr_x f)) (fr_world f ++ evs))),
       mkFrame (snd (run_all (cleanupFunctions (fr_x f)) (fr_world f ++ evs)))
               logString (fr_result f) (fr_x f)).
Proof.
  unfold script_contract, runCleanup. unfold wbind, get_x. cbv beta iota.
  destruct (bool_decide (Cleanup (task (fr_x f)) = "")) eqn:Hc.
  - exists [], (fr_logBuffer f). split; [done|]. rewrite app_nil_r. unfold wret at 1.
    rewrite run_cleanupFunctions_all. unfold wret. cbn [app].
    by rewrite errors_Join_omap.
  - fold (cleanup_cmd (fr_x f)). rewrite runCommand_frame.
    set (w1 := fr_world f ++ [_]). set (r := exec_oracle w1 _).
    destruct (res_err r) as [err|] eqn:Herr.
    + rewrite lift_frame. cbn [fst snd Printf emit fr_world fr_logBuffer fr_result fr_x].
      rewrite run_cleanupFunctions_all. cbn [fst snd wret fr_world fr_logBuffer fr_result fr_x].
      eexists [_; _; _], _. split; cycle 1.
      * subst w1. rewrite <- !app_assoc. cbn [app]. unfold wret.
        by rewrite errors_Join_omap.
      * exists r. split; [done|]. intros ? _. eexists. split; [cbn; by right; left|].
        rewrite <- append_assoc. apply prefix_append.
    + unfold wret at 1. rewrite run_cleanupFunctions_all.
      cbn [fst snd wret fr_world fr_logBuffer fr_result fr_x].
      eexists [_; _], _. split; cycle 1.
      * subst w1. rewrite <- !app_assoc. cbn [app]. unfold wret.
        by rewrite errors_Join_omap.
      * exists r. split; [done|]. intros ?. congruence.
Qed.

(** C6, as amended.  [runCleanup] first starts the cleanup script, if
    one is declared, and prints a warning when it fails; then it runs
    every registered teardown action, in the order of registration,
    whatever the earlier ones return, and returns their errors
    joined.  The error of the script is not among them. *)
Theorem runCleanup_in_registration_order (f : Frame) :
  cleanup_contract (fun fns => fns) f.
Proof.
  destruct (runCleanup_eq f) as (evs & logString & Hs & Heq).
  unfold cleanup_contract. exists evs. split; [exact Hs|].
  rewrite Heq. by destruct (run_all _ _).
Qed.

Lemma evaluateTask_deferred_eq (f : Frame) :
  evaluateTask_deferred f =
    (tt, mkFrame (fr_world (snd (runCleanup f))
                  ++ deferred_warning (taskID (fr_x f)) (fst (runCleanup f)))
           (fr_logBuffer (snd (runCleanup f)))
           (fr_result (snd (runCleanup f)))
           (fr_x (snd (runCleanup f)))).
Proof.
  unfold evaluateTask_deferred, wbind, get_x.
  destruct (runCleanup f) as [[err|] f']; cbn [fst snd deferred_warning].
  - by rewrite lift_frame.
  - unfold wret. rewrite app_nil_r. by destruct f'.
Qed.

Lemma phases_static (timeout : Duration) (f : Frame) :
  same_static (fr_x f) (fr_x (snd (evaluateTask_phases timeout f))).
Proof.
  unfold evaluateTask_phases, wbind.
  pose proof (runSetup_frame f) as [_ Hs].
  destruct (runSetup f) as [[err|] f1]; cbn [snd] in *; [done|].
  destruct (runAgent f1) as [[out|err] f2] eqn:Hagent;
    pose proof (runAgent_frame _ _ _ Hagent) as [Hx _].
  - destruct (decide (Verifier (task (fr_x f2)) = "")) as [Hv|Hv].
    + rewrite agent_succeeded_no_verifier by done. cbn. by rewrite Hx.
    + pose proof (agent_succeeded_verifier out f2 Hv) as Heq. cbv zeta in Heq.
      rewrite Heq. cbn. by rewrite Hx.
  - rewrite agent_failed_eq. cbn. by rewrite Hx.
Qed.

(** C8, as amended.  A job whose timeout does not parse, or whose task
    directory does not resolve to an absolute path, is returned as
    [fail] with the error of the check, and nothing is done to the
    outside: no cleanup runs for it.  For every other job, however the
    phases end, [evaluateTask] returns the result as it is when they
    end, and then runs [runCleanup]: the world it leaves is the one
    [runCleanup] leaves, plus a warning when [runCleanup] returned an
    error.  [runCleanup] meets its contract, the cleanup script is
    started under [context.Background()], and the result record is
    the same after it as before. *)
Theorem cleanup_runs_and_keeps_result (config : EvalConfig) (tid : string)
    (t : Task) (llmConfig : model.LLMConfig) (provider : cluster.Provider) (w : World) :
  let done := evaluateTask config tid t llmConfig provider w in
  match task_timeout t with
  | Err err =>
      done = (model.mkTaskResult tid llmConfig "fail"
                ("parsing timeout: " +:+ Error err) [], w)
  | Ok timeout =>
      match filepath_Abs (filepath_Join [TasksDir config; tid]) with
      | Err err =>
          done = (model.mkTaskResult tid llmConfig "fail" (Error err) [], w)
      | Ok taskDirAbs =>
          let f0 := initial_frame config tid t llmConfig provider taskDirAbs w in
          let f1 := snd (evaluateTask_phases timeout f0) in
          fst done = fr_result f1 /\
          fr_result (snd (runCleanup f1)) = fr_result f1 /\
          snd done = fr_world (snd (runCleanup f1))
                     ++ deferred_warning tid (fst (runCleanup f1)) /\
          cleanup_contract (fun fns => fns) f1 /\
          cmd_ctx (cleanup_cmd (fr_x f1)) = BackgroundCtx
      end
  end.
Proof.
  intros done. subst done. unfold evaluateTask.
  destruct (task_timeout t) as [timeout|err]; [|done].
  destruct (filepath_Abs (filepath_Join [TasksDir config; tid])) as [taskDirAbs|err];
    [|done].
  set (f0 := initial_frame config tid t llmConfig provider taskDirAbs w).
  set (f1 := snd (evaluateTask_phases timeout f0)). cbn [fst snd].
  rewrite evaluateTask_deferred_eq. cbn [snd fr_world].
  destruct (runCleanup_eq f1) as (evs & logString & Hs & Heq).
  split; [done|]. split; [by rewrite Heq|]. split.
  - f_equal. f_equal.
    destruct (phases_static timeout f0) as (_ & _ & _ & _ & Hid & _). exact Hid.
  - split; [|done]. unfold cleanup_contract. exists evs. split; [exact Hs|].
    rewrite Heq. by destruct (run_all _ _).
Qed.
End Cleanup.

(** ** The outcome *)

Section Outcome.
Context {O : Outside}.

(** When [runSetup] returns an error, [evaluateTask] records its
    message and returns with the outcome it started with, which is
    the empty string. *)
Lemma setup_error_outcome (config : EvalConfig) (tid : string)
    (t : Task) (llmConfig : model.LLMConfig) (provider : cluster.Provider) (w : World)
    (timeout : Duration) (taskDirAbs : string) (f1 : Frame) (err : error) :
  task_timeout t = Ok timeout ->
  filepath_Abs (filepath_Join [TasksDir config; tid]) = Ok taskDirAbs ->
  runSetup (initial_frame config tid t llmConfig provider taskDirAbs w) = (Some err, f1) ->
  let r := fst (evaluateTask config tid t llmConfig provider w) in
  model.Result r = "" /\ model.Error r = Error err /\ model.Failures r = [].
Proof.
  intros Ht Habs Hsetup r. subst r.
  unfold evaluateTask. rewrite Ht, Habs. cbn [fst].
  unfold evaluateTask_phases, wbind. rewrite Hsetup.
  pose proof (runSetup_frame (initial_frame config tid t llmConfig provider taskDirAbs w))
    as [Hres _].
  rewrite Hsetup in Hres. cbn [snd] in Hres.
  unfold modify_result. cbn [snd fr_result]. rewrite Hres. done.
Qed.

(** Every other path of [evaluateTask] sets one of the three outcomes. *)
Lemma outcome_cases (config : EvalConfig) (tid : string)
    (t : Task) (llmConfig : model.LLMConfig) (provider : cluster.Provider) (w : World) :
  let r := fst (evaluateTask config tid t llmConfig provider w) in
  model.Result r = "success" \/ model.Result r = "fail" \/ model.Result r = "error" \/
  (model.Result r = "" /\
   exists timeout taskDirAbs err f1,
     task_timeout t = Ok timeout /\
     filepath_Abs (filepath_Join [TasksDir config; tid]) = Ok taskDirAbs /\
     runSetup (initial_frame config tid t llmConfig provider taskDirAbs w) = (Some err, f1)).
Proof.
  intros r.
  destruct (task_timeout t) as [timeout|e] eqn:Ht;
    [|subst r; unfold evaluateTask; rewrite Ht; auto].
  destruct (filepath_Abs (filepath_Join [TasksDir config; tid])) as [dir|e] eqn:Habs;
    [|subst r; unfold evaluateTask; rewrite Ht, Habs; auto].
  set (f0 := initial_frame config tid t llmConfig provider dir w).
  destruct (runSetup f0) as [[err|] f1] eqn:Hsetup.
  { destruct (setup_error_outcome _ _ _ _ _ _ _ _ _ _ Ht Habs Hsetup) as (Hr & _).
    right; right; right. split; [exact Hr|]. eauto 10. }
  subst r. unfold evaluateTask. rewrite Ht, Habs. fold f0. cbn [fst].
  unfold evaluateTask_phases, wbind. rewrite Hsetup.
  destruct (runAgent f1) as [[out|err] f2].
  - destruct (decide (Verifier (task (fr_x f2)) = "")) as [Hv|Hv].
    + rewrite agent_succeeded_no_verifier by done. cbn [snd fr_result].
      destruct (final_result_cases (task (fr_x f2)) out (fr_result f2))
        as [[_ ->]|(_ & -> & _)]; auto.
    + pose proof (agent_succeeded_verifier out f2 Hv) as Heq. cbv zeta in Heq.
      rewrite Heq. cbn [snd fr_result]. destruct (res_err _); [|auto].
      match goal with
      | |- context [final_result ?t' ?o ?r'] =>
          destruct (final_result_cases t' o r') as [[_ ->]|(_ & -> & _)]; auto
      end.
  - rewrite agent_failed_eq. cbn [snd fr_result].
    destruct (taskCtx_Err_oracle (fr_world f2)) as [[]|]; auto.
Qed.
End Outcome.

(** ** The program run in the concrete outside *)

Section Runs.

(** C3.  The task declares a setup script and the script exits with
    status 1: the agent is not started and the error of the setup is
    recorded, but the outcome of the result is left empty instead of
    being [error]. *)
Theorem setup_failure_outcome_not_error :
  let done := evaluateTask (O := demo.setup_fails) demo.config "scale"
                demo.scale_task demo.llm (kind.New (O := demo.setup_fails)) [] in
  model.Result (fst done) = "" /\
  model.Result (fst done) <> "error" /\
  model.Error (fst done) = "running command /work/tasks/scale/setup.sh: exit status 1" /\
  map cmd_Path (exec_cmds (snd done)) =
    ["/work/tasks/scale/setup.sh"; "/work/tasks/scale/cleanup.sh"].
Proof. vm_compute. repeat split; discriminate. Qed.

(** C2.  For the same task the outcome [evaluateTask] returns is none
    of [success], [fail] and [error]: the return after a failed setup
    leaves it unset. *)
Theorem setup_failure_outcome_outside_set :
  let r := fst (evaluateTask (O := demo.setup_fails) demo.config "scale"
                  demo.scale_task demo.llm (kind.New (O := demo.setup_fails)) []) in
  model.Result r <> "success" /\ model.Result r <> "fail" /\ model.Result r <> "error".
Proof. vm_compute. repeat split; discriminate. Qed.

(** C6 as stated does not hold: with two teardown actions registered,
    [runCleanup] does not meet its contract for the reverse of the
    registration order. *)
Lemma teardowns_not_in_reverse_order :
  ~ cleanup_contract (O := demo.quiet) (@rev _) demo.two_teardowns.
Proof.
  intros (evs & _ & H). revert H.
  change (rev (cleanupFunctions (fr_x demo.two_teardowns)))
    with [cluster.Delete (kind.New (O := demo.quiet)) "second";
          cluster.Delete (kind.New (O := demo.quiet)) "first"].
  cbn [run_all cluster.Delete kind.New]. unfold kind.Delete, wbind, wret, Printf, emit, cmd_Run.
  cbn [fst snd]. intros [Hw _]. revert Hw.
  vm_compute. intros Hw. apply (f_equal (@rev _)) in Hw.
  rewrite !rev_app_distr in Hw. cbn in Hw. discriminate.
Qed.

(** C8 as stated does not hold: the timeout of the task is not a
    duration, and [evaluateTask] returns [fail] without starting the
    cleanup script the task declares. *)
Lemma cleanup_not_run_on_bad_timeout :
  Cleanup demo.bad_timeout_task = "cleanup.sh" /\
  evaluateTask (O := demo.quiet) demo.config "scale" demo.bad_timeout_task
    demo.llm (kind.New (O := demo.quiet)) [] =
  (model.mkTaskResult "scale" demo.llm "fail"
     ("parsing timeout: time: invalid duration " +:+ demo.Quote "soon") [],
   []).
Proof. split; reflexivity. Qed.

(** C5 as stated does not hold: the prompt of the task does not
    resolve and the deadline expires while the agent runs; the result
    is [fail] with two Failures, of which the note of the timeout is
    the second. *)
Lemma timeout_after_unresolved_prompt :
  let done := evaluateTask (O := demo.deadline_expires) demo.config "nap"
                scenes.lost_prompt_task demo.llm
                (kind.New (O := demo.deadline_expires)) [] in
  runAgent (O := demo.deadline_expires) scenes.lost_f1
    = (Err (errorString "signal: killed"), scenes.lost_f2) /\
  taskCtx_Err_oracle (Outside := demo.deadline_expires) (fr_world scenes.lost_f2)
    = Some DeadlineExceeded /\
  model.Result (fst done) = "fail" /\
  model.Failures (fst done) =
    [model.mkFailure
       "failed to resolve prompt: open prompt.md: no such file or directory";
     model.mkFailure "task timed out after 1s"] /\
  length (model.Failures (fst done)) <> 1%nat.
Proof. vm_compute. repeat split; discriminate. Qed.
End Runs.

(** ** Loading the tasks *)

Section Load.
Context {O : Outside}.

Variable fs : string -> res string.
Hypothesis static : forall (w : World) (p : string), os_ReadFile_oracle w p = fs p.
Variable config : EvalConfig.
Variable taskFilter : option Regexp.

Lemma candidate_false_skip e rest tasks w :
  candidate taskFilter e = false ->
  loadTasks_loop config taskFilter (e :: rest) tasks w =
  loadTasks_loop config taskFilter rest tasks w.
Proof.
  unfold candidate. cbn [loadTasks_loop].
  destruct (IsDir e); cbn [negb andb]; [|done].
  destruct taskFilter as [re|]; [|done]. by intros ->.
Qed.

Lemma candidate_true_load e rest tasks w :
  candidate taskFilter e = true ->
  fst (loadTasks_loop config taskFilter (e :: rest) tasks w) =
  match load_entry fs config e with
  | Unreadable inner =>
      Err (Errorf_w ("failed to read task file " +:+ task_file config e +:+ ": ") (Some inner))
  | Malformed inner =>
      Err (Errorf_w ("failed to parse task file " +:+ task_file config e +:+ ": ") (Some inner))
  | Loaded t =>
      if Disabled t
      then fst (loadTasks_loop config taskFilter rest tasks
                  (w ++ [EvReadFile (task_file config e);
                         EvPrint ("Skipping disabled task: " +:+ Name e +:+ newline)]))
      else fst (loadTasks_loop config taskFilter rest (<[Name e := t]> tasks)
                  (w ++ [EvReadFile (task_file config e)]))
  end.
Proof.
  unfold candidate, load_entry. cbn [loadTasks_loop].
  intros [-> Hm]%andb_true_iff. cbn [negb].
  replace (match taskFilter with Some re => negb (MatchString re (Name e)) | None => false end)
    with false by (destruct taskFilter; [by rewrite Hm | done]).
  unfold wbind, os_ReadFile, wret, Printf, emit. rewrite static.
  fold (task_file config e).
  destruct (fs (task_file config e)) as [data|inner]; [|done].
  destruct (yaml_Unmarshal_Task data) as [t|inner]; [|done].
  destruct (Disabled t); [|done]. by rewrite <- app_assoc.
Qed.

(** A failing candidate aborts the load, if all candidates before it load. *)
Lemma loadTasks_loop_fails pre e post tasks w err :
  Forall (loadable fs config taskFilter) pre ->
  candidate taskFilter e = true ->
  load_error config e (load_entry fs config e) = Some err ->
  fst (loadTasks_loop config taskFilter (pre ++ e :: post) tasks w) = Err err.
Proof.
  intros Hpre He Herr. revert tasks w.
  induction Hpre as [|e' pre He' Hpre IH]; intros tasks w; cbn [app].
  - rewrite candidate_true_load by done.
    destruct (load_entry fs config e); cbn in Herr; simplify_eq; cbn;
      by rewrite !append_assoc.
  - destruct (candidate taskFilter e') eqn:Hc.
    + rewrite candidate_true_load by done.
      destruct (He' Hc) as [t' ->]. destruct (Disabled t'); apply IH.
    + rewrite candidate_false_skip by done. apply IH.
Qed.

(** When every candidate loads, the mapping gets the enabled ones. *)
Lemma loadTasks_loop_ok entries tasks w :
  Forall (loadable fs config taskFilter) entries ->
  NoDup (map Name entries) ->
  exists tasks',
    fst (loadTasks_loop config taskFilter entries tasks w) = Ok tasks' /\
    (forall id, id ∉ map Name entries -> tasks' !! id = tasks !! id) /\
    (forall e, e ∈ entries ->
       tasks' !! Name e =
         match kept fs config taskFilter e with
         | Some t => Some t
         | None => tasks !! Name e
         end).
Proof.
  intros Hall. revert tasks w.
  induction Hall as [|e entries He Hall IH]; intros tasks w Hnd.
  - exists tasks. split; [done|]. split; [done|]. by intros e ?%elem_of_nil.
  - cbn [map] in Hnd. apply NoDup_cons in Hnd as [Hnotin Hnd].
    assert (Hstep : exists tasks1 w1,
      fst (loadTasks_loop config taskFilter (e :: entries) tasks w) =
      fst (loadTasks_loop config taskFilter entries tasks1 w1) /\
      tasks1 !! Name e = match kept fs config taskFilter e with
                         | Some t => Some t | None => tasks !! Name e end /\
      forall id, id <> Name e -> tasks1 !! id = tasks !! id).
    { unfold kept. destruct (candidate taskFilter e) eqn:Hc.
      - rewrite candidate_true_load by done. destruct (He Hc) as [t ->].
        destruct (Disabled t).
        + eexists tasks, _. done.
        + eexists _, _. split; [done|]. split; [by rewrite lookup_insert_eq|].
          intros id Hid. by rewrite lookup_insert_ne.
      - rewrite candidate_false_skip by done. eexists tasks, w. done. }
    destruct Hstep as (tasks1 & w1 & -> & Hhere & Hother).
    destruct (IH tasks1 w1 Hnd) as (tasks' & -> & Hout & Hin).
    exists tasks'. split; [done|]. split.
    + intros id Hid. cbn [map] in Hid. apply not_elem_of_cons in Hid as [Hne Hid].
      rewrite Hout by done. by apply Hother.
    + intros e' [->|He']%elem_of_cons.
      * rewrite Hout by done. apply Hhere.
      * rewrite Hin by done. destruct (kept fs config taskFilter e'); [done|].
        apply Hother. intros Heq. apply Hnotin. rewrite <- Heq.
        by apply list_elem_of_fmap_2.
Qed.
End Load.

Section LoadTasks.
Context {O : Outside}.

Lemma compile_pattern_filter (config : EvalConfig) (taskFilter : option Regexp) :
  pattern_filter config taskFilter -> compile_taskFilter config = Ok taskFilter.
Proof.
  unfold pattern_filter, compile_taskFilter. destruct taskFilter as [re|].
  - intros [Hne ->]. by rewrite bool_decide_eq_false_2.
  - intros ->. done.
Qed.

(** Either every candidate loads, or there is a first one that does
    not. *)
Lemma first_failure_or_all (fs : string -> res string) (config : EvalConfig)
    (taskFilter : option Regexp) (entries : list DirEntry) :
  (exists pre e post err,
     entries = pre ++ e :: post /\
     Forall (loadable fs config taskFilter) pre /\
     candidate taskFilter e = true /\
     load_error config e (load_entry fs config e) = Some err) \/
  Forall (loadable fs config taskFilter) entries.
Proof.
  induction entries as [|e rest IH]; [right; constructor|].
  assert (Hcase : loadable fs config taskFilter e \/
                  (candidate taskFilter e = true /\
                   exists err, load_error config e (load_entry fs config e) = Some err)).
  { unfold loadable. destruct (candidate taskFilter e); [|by left].
    destruct (load_entry fs config e) as [t|inner|inner]; [left; eauto| |];
      right; cbn; eauto. }
  destruct Hcase as [Hl|(Hc & err & Herr)].
  - destruct IH as [(pre & e' & post & err & -> & Hpre & Hc & Herr)|Hall].
    + left. exists (e :: pre), e', post, err. repeat split; try done.
      by constructor.
    + right. by constructor.
  - left. exists [], e, rest, err. repeat split; try done.
Qed.

(** C9.  In a file system that does not change while the tasks are
    loaded, with the filter that the configured task pattern stands
    for, [loadTasks] does one of two things.  When, among the
    directories that the filter lets through, there is a first one
    whose specification cannot be read or parsed, it returns no
    mapping but an error that names the file and wraps the error of
    the read or the parse.  When all of them load, it returns the
    mapping that holds exactly the enabled ones: an entry that is not
    a directory, that the filter rejects or whose specification is
    disabled is absent, and nothing else is present. *)
Theorem loadTasks_contract (fs : string -> res string) (config : EvalConfig)
    (taskFilter : option Regexp) (entries : list DirEntry) (w : World) :
  (forall (w' : World) (p : string), os_ReadFile_oracle w' p = fs p) ->
  pattern_filter config taskFilter ->
  os_ReadDir_oracle w (TasksDir config) = Ok entries ->
  NoDup (map Name entries) ->
  (exists pre e post err,
     entries = pre ++ e :: post /\
     Forall (loadable fs config taskFilter) pre /\
     candidate taskFilter e = true /\
     load_error config e (load_entry fs config e) = Some err /\
     fst (loadTasks config w) = Err err) \/
  (Forall (loadable fs config taskFilter) entries /\
   exists tasks,
     fst (loadTasks config w) = Ok tasks /\
     (forall e, e ∈ entries -> tasks !! Name e = kept fs config taskFilter e) /\
     (forall id, id ∉ map Name entries -> tasks !! id = None)).
Proof.
  intros Hstatic Hfilter%compile_pattern_filter Hdir Hnd.
  assert (Hload : fst (loadTasks config w) =
    fst (loadTasks_loop config taskFilter entries ∅ (w ++ [EvReadDir (TasksDir config)]))).
  { unfold loadTasks. rewrite Hfilter. unfold wbind, os_ReadDir.
    by rewrite Hdir. }
  destruct (first_failure_or_all fs config taskFilter entries)
    as [(pre & e & post & err & -> & Hpre & Hc & Herr)|Hall].
  - left. exists pre, e, post, err. repeat split; try done. rewrite Hload.
    by apply (loadTasks_loop_fails fs Hstatic).
  - right. split; [exact Hall|]. rewrite Hload.
    destruct (loadTasks_loop_ok fs Hstatic config taskFilter entries ∅
                (w ++ [EvReadDir (TasksDir config)]) Hall Hnd)
      as (tasks & -> & Hout & Hin).
    exists tasks. split; [done|]. split.
    + intros e He. rewrite Hin by done. rewrite lookup_empty.
      by destruct (kept fs config taskFilter e).
    + intros id Hid. rewrite Hout by done. apply lookup_empty.
Qed.
End LoadTasks.

(** ** pass@k: rounding to a double *)

Section Rounding.
Local Open Scope Q_scope.

Lemma two_pos (z : Z) : 0 < 2 ^ z.
Proof. by apply Qpower_0_lt. Qed.

Lemma two_add (a b : Z) : 2 ^ (a + b) == 2 ^ a * 2 ^ b.
Proof. by apply Qpower_plus. Qed.

Lemma two_le (a b : Z) : (a <= b)%Z -> 2 ^ a <= 2 ^ b.
Proof. intros H. by apply Qpower_le_compat_l. Qed.

Lemma two_lt_inv (a b : Z) : 2 ^ a < 2 ^ b -> (a < b)%Z.
Proof. intros H. by apply (Qpower_lt_compat_l_inv 2). Qed.

Lemma two_inject (n : Z) : (0 <= n)%Z -> inject_Z (2 ^ n) == 2 ^ n.
Proof. intros H. by rewrite Zpower_Qpower. Qed.

Lemma binade_spec (x : Q) :
  0 < x -> 2 ^ site.binade x <= x /\ x < 2 ^ (site.binade x + 1).
Proof.
  intros Hx. destruct x as [a d].
  assert (Ha : (0 < a)%Z) by (unfold Qlt in Hx; cbn in Hx; lia).
  set (la := Z.log2 a). set (ld := Z.log2 (Z.pos d)).
  destruct (Z.log2_spec a Ha) as [Hla1 Hla2]. fold la in Hla1, Hla2.
  destruct (Z.log2_spec (Z.pos d) ltac:(lia)) as [Hld1 Hld2]. fold ld in Hld1, Hld2.
  pose proof (Z.log2_nonneg a) as Hla0. fold la in Hla0.
  pose proof (Z.log2_nonneg (Z.pos d)) as Hld0. fold ld in Hld0.
  assert (HD : 0 < inject_Z (Z.pos d)) by (rewrite <- (Zlt_Qlt 0); lia).
  assert (Hq : a # d == inject_Z a / inject_Z (Z.pos d)) by apply Qmake_Qdiv.
  assert (Hlow : 2 ^ (la - ld - 1) <= a # d).
  { rewrite Hq. apply Qle_shift_div_l; [done|].
    apply Qle_trans with (2 ^ (la - ld - 1) * 2 ^ (ld + 1)).
    - apply Qmult_le_l; [apply two_pos|].
      rewrite <- two_inject by lia. rewrite <- Zle_Qle. unfold Z.succ in Hld2. lia.
    - rewrite <- two_add. replace (la - ld - 1 + (ld + 1))%Z with la by lia.
      rewrite <- two_inject by lia. by rewrite <- Zle_Qle. }
  assert (Hup : a # d < 2 ^ (la - ld + 1)).
  { rewrite Hq. apply Qlt_shift_div_r; [done|].
    apply Qlt_le_trans with (2 ^ (la - ld + 1) * 2 ^ ld).
    - rewrite <- two_add. replace (la - ld + 1 + ld)%Z with (la + 1)%Z by lia.
      rewrite <- two_inject by lia. rewrite <- Zlt_Qlt. unfold Z.succ in Hla2. lia.
    - apply Qmult_le_l; [apply two_pos|].
      rewrite <- two_inject by lia. by rewrite <- Zle_Qle. }
  unfold site.binade. cbn [Qnum Qden]. fold la ld.
  destruct (Qle_bool (2 ^ (la - ld)) (a # d)) eqn:Hb.
  - apply Qle_bool_iff in Hb. done.
  - split.
    + exact Hlow.
    + replace (la - ld - 1 + 1)%Z with (la - ld)%Z by lia.
      apply Qnot_le_lt. intros Hle. apply Qle_bool_iff in Hle. congruence.
Qed.

Lemma nearest_even_cases (q : Q) :
  site.nearest_even q = Qfloor q \/ site.nearest_even q = (Qfloor q + 1)%Z.
Proof.
  unfold site.nearest_even.
  destruct (q - inject_Z (Qfloor q) ?= 1 # 2); [destruct (Z.even _)| |]; auto.
Qed.

Lemma nearest_even_le (q : Q) (m : Z) :
  q <= inject_Z m -> (site.nearest_even q <= m)%Z.
Proof.
  intros Hq. pose proof (Qfloor_resp_le _ _ Hq) as Hf. rewrite Qfloor_Z in Hf.
  destruct (Z.eq_dec (Qfloor q) m) as [E|E].
  - unfold site.nearest_even.
    assert (H0 : q - inject_Z (Qfloor q) == 0).
    { rewrite E. pose proof (Qfloor_le q) as Hl. rewrite E in Hl.
      assert (q == inject_Z m) by (by apply Qle_antisym). rewrite H. ring. }
    rewrite H0. change (0 ?= 1 # 2) with Lt. cbv iota. lia.
  - destruct (nearest_even_cases q) as [-> | ->]; lia.
Qed.

Lemma nearest_even_ge (q : Q) (m : Z) :
  inject_Z m <= q -> (m <= site.nearest_even q)%Z.
Proof.
  intros Hq. pose proof (Qfloor_resp_le _ _ Hq) as Hf. rewrite Qfloor_Z in Hf.
  destruct (nearest_even_cases q) as [-> | ->]; lia.
Qed.

Lemma double_binade (b : Q) (m e : Z) :
  (2 ^ 52 <= m < 2 ^ 53)%Z -> b == inject_Z m * 2 ^ (e - 52) ->
  2 ^ e <= b /\ b < 2 ^ (e + 1).
Proof.
  intros [Hm1 Hm2] ->. split.
  - replace e with (52 + (e - 52))%Z at 1 by lia. rewrite two_add.
    apply Qmult_le_r; [apply two_pos|].
    rewrite <- two_inject by lia. by rewrite <- Zle_Qle.
  - replace (e + 1)%Z with (53 + (e - 52))%Z by lia. rewrite two_add.
    apply Qmult_lt_r; [apply two_pos|].
    rewrite <- two_inject by lia. by rewrite <- Zlt_Qlt.
Qed.

Lemma round_pos_nonneg (x : Q) : 0 < x -> 0 <= site.round_pos x.
Proof.
  intros Hx. unfold site.round_pos.
  apply Qmult_le_0_compat; [|apply Qlt_le_weak, two_pos].
  rewrite <- (Zle_Qle 0). apply nearest_even_ge. cbn.
  apply Qle_shift_div_l; [apply two_pos|]. rewrite Qmult_0_l. by apply Qlt_le_weak.
Qed.

(** Rounding does not step over a double. *)
Lemma round_pos_le (x b : Q) :
  0 < x -> x <= b -> double b -> site.round_pos x <= b.
Proof.
  intros Hx Hxb (m & e & Hm & Hb).
  destruct (binade_spec x Hx) as [Hx1 Hx2].
  destruct (double_binade b m e Hm Hb) as [Hb1 Hb2].
  set (ex := site.binade x) in *.
  assert (Hex : (ex <= e)%Z).
  { enough (ex < e + 1)%Z by lia. apply two_lt_inv.
    eapply Qle_lt_trans; [exact Hx1|]. eapply Qle_lt_trans; [exact Hxb|]. exact Hb2. }
  unfold site.round_pos. fold ex.
  pose proof (two_pos (ex - 52)) as Hulp.
  destruct (Z.eq_dec ex e) as [E|E].
  - rewrite Hb, <- E. apply Qmult_le_r; [done|]. rewrite <- Zle_Qle.
    apply nearest_even_le. apply Qle_shift_div_r; [done|].
    rewrite E, <- Hb. exact Hxb.
  - apply Qle_trans with (2 ^ (ex + 1)).
    + replace (ex + 1)%Z with (53 + (ex - 52))%Z by lia. rewrite two_add.
      apply Qmult_le_r; [done|]. rewrite <- (two_inject 53) by lia. rewrite <- Zle_Qle.
      apply nearest_even_le. apply Qle_shift_div_r; [done|].
      apply Qle_trans with (2 ^ 53 * 2 ^ (ex - 52)).
      * rewrite <- two_add.
        replace (53 + (ex - 52))%Z with (ex + 1)%Z by lia. by apply Qlt_le_weak.
      * apply Qmult_le_r; [done|]. rewrite <- (two_inject 53) by lia. apply Qle_refl.
    + apply Qle_trans with (2 ^ e); [apply two_le; lia | done].
Qed.

Lemma round_proper (x y : Q) : x == y -> site.round x = site.round y.
Proof. intros H. unfold site.round. by rewrite (Qred_complete x y H). Qed.

Lemma round_nonneg (x : Q) : 0 <= x -> 0 <= site.round x.
Proof.
  intros Hx. unfold site.round.
  destruct (Qred x ?= 0) eqn:Hc; [apply Qle_refl| |].
  - rewrite <- Qlt_alt in Hc. rewrite Qred_correct in Hc.
    exfalso. apply (Qlt_irrefl 0). eapply Qle_lt_trans; eassumption.
  - rewrite <- Qgt_alt in Hc. rewrite Qred_correct. by apply round_pos_nonneg.
Qed.

Lemma round_le (x b : Q) : x <= b -> double b -> site.round x <= b.
Proof.
  intros Hxb Hb.
  assert (H0b : 0 < b).
  { destruct Hb as (m & e & Hm & ->). apply Qmult_lt_0_compat; [|apply two_pos].
    rewrite <- (Zlt_Qlt 0). lia. }
  unfold site.round.
  destruct (Qred x ?= 0) eqn:Hc; [by apply Qlt_le_weak| |].
  - rewrite <- Qlt_alt in Hc. rewrite Qred_correct.
    apply Qle_trans with 0; [|by apply Qlt_le_weak].
    apply (Qopp_le_compat 0). apply round_pos_nonneg.
    apply (Qopp_lt_compat _ 0). exact Hc.
  - rewrite <- Qgt_alt in Hc. rewrite Qred_correct.
    apply round_pos_le; [done| |done]. by rewrite Qred_correct.
Qed.

Lemma binade_scaled (x : Q) :
  0 < x ->
  inject_Z (2 ^ 52) <= x / 2 ^ (site.binade x - 52) /\
  x / 2 ^ (site.binade x - 52) <= inject_Z (2 ^ 53).
Proof.
  intros Hx. destruct (binade_spec x Hx) as [H1 H2].
  set (ex := site.binade x) in *. pose proof (two_pos (ex - 52)) as Hulp.
  split.
  - apply Qle_shift_div_l; [done|]. rewrite (two_inject 52) by lia.
    rewrite <- two_add. by replace (52 + (ex - 52))%Z with ex by lia.
  - apply Qle_shift_div_r; [done|]. rewrite (two_inject 53) by lia.
    rewrite <- two_add. replace (53 + (ex - 52))%Z with (ex + 1)%Z by lia.
    by apply Qlt_le_weak.
Qed.

(** What rounding returns is a double. *)
Lemma round_pos_double (x : Q) : 0 < x -> double (site.round_pos x).
Proof.
  intros Hx. destruct (binade_scaled x Hx) as [H1 H2].
  apply nearest_even_ge in H1. apply nearest_even_le in H2.
  unfold site.round_pos. set (ex := site.binade x) in *.
  set (m := site.nearest_even _) in *.
  destruct (Z.eq_dec m (2 ^ 53)%Z) as [E|E].
  - exists (2 ^ 52)%Z, (ex + 1)%Z. split; [lia|]. rewrite E.
    rewrite (two_inject 53), (two_inject 52) by lia. rewrite <- !two_add.
    by replace (53 + (ex - 52))%Z with (52 + (ex + 1 - 52))%Z by lia.
  - exists m, ex. split; [lia | reflexivity].
Qed.

(** Rounding does not step under a double either. *)
Lemma round_pos_ge (x b : Q) :
  0 < x -> b <= x -> double b -> b <= site.round_pos x.
Proof.
  intros Hx Hbx (m & e & Hm & Hb).
  destruct (binade_spec x Hx) as [Hx1 Hx2].
  destruct (double_binade b m e Hm Hb) as [Hb1 Hb2].
  destruct (binade_scaled x Hx) as [Hs1 _].
  set (ex := site.binade x) in *.
  assert (Hex : (e <= ex)%Z).
  { enough (e < ex + 1)%Z by lia. apply two_lt_inv.
    eapply Qle_lt_trans; [exact Hb1|]. eapply Qle_lt_trans; [exact Hbx|]. exact Hx2. }
  unfold site.round_pos. fold ex.
  pose proof (two_pos (ex - 52)) as Hulp.
  destruct (Z.eq_dec ex e) as [E|E].
  - rewrite Hb, <- E. apply Qmult_le_r; [done|]. rewrite <- Zle_Qle.
    apply nearest_even_ge. apply Qle_shift_div_l; [done|].
    rewrite E, <- Hb. exact Hbx.
  - apply Qle_trans with (2 ^ ex).
    + apply Qle_trans with (2 ^ (e + 1)); [by apply Qlt_le_weak | apply two_le; lia].
    + replace ex with (52 + (ex - 52))%Z at 1 by lia. rewrite two_add.
      apply Qmult_le_r; [done|]. rewrite <- (two_inject 52) by lia. rewrite <- Zle_Qle.
      by apply nearest_even_ge.
Qed.

(** A double is rounded to itself. *)
Lemma round_double (b : Q) : double b -> site.round b == b.
Proof.
  intros Hb.
  assert (H0b : 0 < b).
  { destruct Hb as (m & e & Hm & ->). apply Qmult_lt_0_compat; [|apply two_pos].
    rewrite <- (Zlt_Qlt 0). lia. }
  apply Qle_antisym; [apply round_le; [apply Qle_refl | done]|].
  unfold site.round.
  assert (Hc : (Qred b ?= 0) = Gt).
  { rewrite <- Qgt_alt. by rewrite Qred_correct. }
  rewrite Hc, Qred_correct.
  apply round_pos_ge; [by rewrite Qred_correct | rewrite Qred_correct; apply Qle_refl | done].
Qed.

(** The nearest integer is at most a half away. *)
Lemma nearest_even_near (q : Q) :
  Qabs (inject_Z (site.nearest_even q) - q) <= 1 # 2.
Proof.
  pose proof (Qfloor_le q) as Hl. pose proof (Qlt_floor q) as Hu.
  unfold site.nearest_even. set (f := Qfloor q) in *.
  rewrite inject_Z_plus in Hu. change (inject_Z 1) with 1 in Hu.
  apply Qabs_Qle_condition.
  destruct (q - inject_Z f ?= 1 # 2) eqn:Hc.
  - apply Qeq_alt in Hc.
    destruct (Z.even f); [|rewrite inject_Z_plus; change (inject_Z 1) with 1]; lra.
  - apply Qlt_alt in Hc. lra.
  - apply Qgt_alt in Hc. rewrite inject_Z_plus. change (inject_Z 1) with 1. lra.
Qed.

(** Rounding moves a number by at most half a unit in the last place. *)
Lemma round_pos_near (x : Q) :
  0 < x -> Qabs (site.round_pos x - x) <= (1 # 2) * 2 ^ (site.binade x - 52).
Proof.
  intros Hx. unfold site.round_pos. set (ulp := 2 ^ (site.binade x - 52)).
  assert (Hulp : 0 < ulp) by apply two_pos.
  assert (E : inject_Z (site.nearest_even (x / ulp)) * ulp - x
              == (inject_Z (site.nearest_even (x / ulp)) - x / ulp) * ulp).
  { field. intros H0. rewrite H0 in Hulp. by apply (Qlt_irrefl 0). }
  rewrite E, Qabs_Qmult. rewrite (Qabs_pos ulp) by (by apply Qlt_le_weak).
  apply Qmult_le_r; [done | apply nearest_even_near].
Qed.

Lemma double_1 : double 1.
Proof. exists (2 ^ 52)%Z, 0%Z. split; [lia|]. reflexivity. Qed.

Lemma double_100 : double 100.
Proof. exists (100 * 2 ^ 46)%Z, 6%Z. split; [lia|]. reflexivity. Qed.
End Rounding.

(** ** The score *)

Section Score.
Local Open Scope Q_scope.

Lemma Qpower_succ (q : Q) (k : nat) :
  q ^ Z.of_nat (S k) == q * q ^ Z.of_nat k.
Proof.
  rewrite Nat2Z.inj_succ. unfold Z.succ. rewrite Z.add_comm.
  rewrite Qpower_plus' by lia. by rewrite Qpower_1_r.
Qed.

Lemma Qpower_unit_interval (q : Q) (k : nat) :
  0 <= q <= 1 -> 0 <= q ^ Z.of_nat k <= 1.
Proof.
  intros [H0 H1]. induction k as [|k [IH0 IH1]].
  - cbn. split; discriminate.
  - rewrite Qpower_succ. split.
    + by apply Qmult_le_0_compat.
    + apply Qle_trans with (1 * 1); [|discriminate].
      apply Qmult_le_compat_nonneg; split; assumption.
Qed.

Lemma count_ratio (n c : nat) :
  (c <= n)%nat -> (0 < n)%nat -> 0 <= count c / count n <= 1.
Proof.
  intros Hc Hn. unfold count.
  assert (Hpos : 0 < inject_Z (Z.of_nat n)).
  { rewrite <- (Zlt_Qlt 0). lia. }
  split.
  - apply Qle_shift_div_l; [done|]. rewrite Qmult_0_l.
    rewrite <- (Zle_Qle 0). lia.
  - apply Qle_shift_div_r; [done|]. rewrite Qmult_1_l.
    rewrite <- Zle_Qle. lia.
Qed.

Lemma round_unit (x : Q) : 0 <= x <= 1 -> 0 <= site.round x <= 1.
Proof.
  intros [H0 H1]. split; [by apply round_nonneg | apply round_le; [done | apply double_1]].
Qed.

Lemma one_minus_unit (x : Q) : 0 <= x <= 1 -> 0 <= 1 - x <= 1.
Proof.
  intros [H0 H1]. split.
  - apply (Qplus_le_r _ _ x). ring_simplify. done.
  - apply (Qplus_le_r _ _ (x - 1)). ring_simplify. done.
Qed.

Lemma count_0_iff (n : nat) : Qeq_bool (count n) 0 = true <-> n = 0%nat.
Proof.
  rewrite Qeq_bool_iff. unfold count. split.
  - intros H. apply (inject_Z_injective (Z.of_nat n) 0) in H. lia.
  - intros ->. reflexivity.
Qed.

Lemma count_nonzero (n : nat) : (0 < n)%nat -> Qeq_bool (count n) 0 = false.
Proof.
  intros Hn. destruct (Qeq_bool (count n) 0) eqn:E; [|done].
  apply count_0_iff in E. lia.
Qed.

Lemma count_S (n : nat) : count (S n) == count n + 1.
Proof.
  unfold count. rewrite Nat2Z.inj_succ. unfold Z.succ.
  by rewrite inject_Z_plus.
Qed.

Ltac halves := unfold Qdiv in *; change (/ 2) with (1 # 2) in *.

Lemma round_pos_relative (x : Q) :
  0 < x -> Qabs (site.round_pos x - x) <= x * (EPSILON / 2).
Proof.
  intros Hx. eapply Qle_trans; [by apply round_pos_near|].
  destruct (binade_spec x Hx) as [H1 _].
  replace (site.binade x - 52)%Z with (site.binade x + -52)%Z by lia.
  rewrite two_add. fold EPSILON.
  assert (Hu : 0 < EPSILON) by reflexivity.
  assert (E : (1 # 2) * (2 ^ site.binade x * EPSILON)
              == 2 ^ site.binade x * (EPSILON / 2)) by field.
  rewrite E. apply Qmult_le_compat_r; [done | halves; lra].
Qed.

(** Rounding moves a number by at most half of [EPSILON], relative to
    the number. *)
Lemma round_relative (x : Q) :
  0 <= x -> Qabs (site.round x - x) <= x * (EPSILON / 2).
Proof.
  intros Hx. unfold site.round.
  remember (Qred x) as x' eqn:Ex'.
  assert (Hx' : x' == x) by (rewrite Ex'; apply Qred_correct).
  rewrite <- Hx'. rewrite <- Hx' in Hx.
  destruct (x' ?= 0) eqn:Hc.
  - apply Qeq_alt in Hc. rewrite Hc. discriminate.
  - rewrite <- Qlt_alt in Hc. lra.
  - rewrite <- Qgt_alt in Hc. rewrite Qred_correct. by apply round_pos_relative.
Qed.

Lemma round_unit_near (x : Q) :
  0 <= x <= 1 -> Qabs (site.round x - x) <= EPSILON / 2.
Proof.
  intros [H0 H1]. eapply Qle_trans; [by apply round_relative|].
  assert (Hu : 0 < EPSILON) by reflexivity.
  apply Qle_trans with (1 * (EPSILON / 2)); [|halves; lra].
  apply Qmult_le_compat_r; [done | halves; lra].
Qed.

Lemma Qpower_near (a b d : Q) (k : nat) :
  0 <= a <= 1 -> 0 <= b <= 1 -> Qabs (a - b) <= d ->
  Qabs (a ^ Z.of_nat k - b ^ Z.of_nat k) <= count k * d.
Proof.
  intros Ha Hb Hd. apply Qabs_Qle_condition in Hd.
  induction k as [|k IH].
  - cbn. discriminate.
  - apply Qabs_Qle_condition in IH. apply Qabs_Qle_condition.
    rewrite !Qpower_succ, count_S.
    pose proof (Qpower_unit_interval b k Hb) as Hbk.
    set (ak := a ^ Z.of_nat k) in *. set (bk := b ^ Z.of_nat k) in *.
    set (m := count k * d) in *.
    assert (E : a * ak - b * bk == a * (ak - bk) + (a - b) * bk) by ring.
    rewrite E.
    assert (E2 : (count k + 1) * d == m + d) by (unfold m; ring).
    rewrite E2. nra.
Qed.

(** C4, as amended.  With a [Math.pow] that keeps the unit interval,
    for [n] trials of which [c <= n] succeeded and [k >= 1], [passAtK]
    is between 0 and 100; it is 0 when [n = 0] and when [c = 0], and
    it is 100 when [c = n > 0].  For [n > 0] it need not be
    (1 - (1 - c/n)^k) * 100; with a [Math.pow] that is within
    [EPSILON] of the power it is within 100 * (k + 2) * [EPSILON] of
    that number. *)
Theorem passAtK_range (E : site.Engine) (n c k : nat) :
  pow_keeps_unit_interval E ->
  (c <= n)%nat -> (1 <= k)%nat ->
  0 <= site.passAtK (count n) (count c) (count k) <= 100 /\
  site.passAtK (count 0) (count c) (count k) = 0 /\
  site.passAtK (count n) (count 0) (count k) = 0 /\
  ((0 < n)%nat -> site.passAtK (count n) (count n) (count k) = 100) /\
  (pow_within_epsilon E -> (0 < n)%nat ->
   Qabs (site.passAtK (count n) (count c) (count k)
         - (1 - (1 - count c / count n) ^ Z.of_nat k) * 100)
   <= 100 * (count k + 2) * EPSILON).
Proof.
  intros Hpow Hc Hk.
  assert (Hk1 : 1 <= count k).
  { unfold count. rewrite <- (Zle_Qle 1). lia. }
  destruct (Hpow (count k) Hk1) as (Hunit & Hzero & Hone).
  assert (Hnone : forall m : nat, (0 < m)%nat ->
            site.passAtK (count m) (count 0) (count k) = 0).
  { intros m Hm. unfold site.passAtK. rewrite count_nonzero by done. cbv zeta.
    assert (E0 : count 0 / count m == 0) by (unfold count, Qdiv; cbn; ring).
    rewrite (round_proper _ 0 E0).
    change (site.round 0) with 0. change (site.round (1 - 0)) with 1.
    assert (E1 : 1 - site.Math_pow 1 (count k) == 0) by (rewrite Hone; ring).
    rewrite (round_proper _ 0 E1). reflexivity. }
  split; [|split; [reflexivity|split; [|split]]].
  - unfold site.passAtK.
    destruct (Qeq_bool (count n) 0) eqn:Hn0; [split; discriminate|].
    assert (Hn : (0 < n)%nat).
    { destruct n; [|lia]. discriminate Hn0. }
    cbv zeta.
    pose proof (round_unit _ (count_ratio n c Hc Hn)) as Hp.
    pose proof (round_unit _ (one_minus_unit _ Hp)) as Hq.
    pose proof (round_unit _ (one_minus_unit _ (Hunit _ Hq))) as [Hv0 Hv1].
    set (v := site.round (1 - site.Math_pow _ _)) in *. split.
    + apply round_nonneg. apply Qmult_le_0_compat; [done | discriminate].
    + apply round_le; [|apply double_100].
      apply Qle_trans with (1 * 100); [|discriminate].
      apply Qmult_le_compat_r; [done | discriminate].
  - destruct n as [|n]; [reflexivity | apply Hnone; lia].
  - intros Hn. unfold site.passAtK. rewrite count_nonzero by done. cbv zeta.
    assert (E1 : count n / count n == 1).
    { field. intros H0. apply (inject_Z_injective (Z.of_nat n) 0) in H0. lia. }
    rewrite (round_proper _ 1 E1).
    change (site.round 1) with 1. change (site.round (1 - 1)) with 0.
    assert (E2 : 1 - site.Math_pow 0 (count k) == 1) by (rewrite Hzero; ring).
    rewrite (round_proper _ 1 E2). reflexivity.
  - intros Hacc Hn. unfold site.passAtK. rewrite count_nonzero by done. cbv zeta.
    pose proof (count_ratio n c Hc Hn) as Hp'.
    set (p' := count c / count n) in *.
    pose proof (round_unit _ Hp') as Hp.
    pose proof (round_unit_near _ Hp') as Ep.
    set (p := site.round p') in *.
    pose proof (round_unit _ (one_minus_unit _ Hp)) as Hq.
    pose proof (round_unit_near _ (one_minus_unit _ Hp)) as Eq.
    set (q := site.round (1 - p)) in *.
    pose proof (one_minus_unit _ Hp') as Hq'.
    assert (Eqq : Qabs (q - (1 - p')) <= EPSILON).
    { apply Qabs_Qle_condition in Ep, Eq. apply Qabs_Qle_condition.
      halves. lra. }
    pose proof (Qpower_near q (1 - p') EPSILON k Hq Hq' Eqq) as Epow.
    pose proof (Hacc q k Hk Hq) as Ew.
    pose proof (Hunit q Hq) as Hw.
    set (w := site.Math_pow q (count k)) in *.
    pose proof (round_unit _ (one_minus_unit _ Hw)) as Hr.
    pose proof (round_unit_near _ (one_minus_unit _ Hw)) as Er.
    set (r := site.round (1 - w)) in *.
    assert (Hy : 0 <= r * 100 <= 100) by lra.
    pose proof (round_relative (r * 100) (proj1 Hy)) as Ev.
    set (v := site.round (r * 100)) in *.
    assert (Hu : 0 < EPSILON) by reflexivity.
    assert (Hyu : r * 100 * (EPSILON / 2) <= 100 * (EPSILON / 2)).
    { apply Qmult_le_compat_r; [lra | halves; lra]. }
    set (pk := q ^ Z.of_nat k) in *. set (pk' := (1 - p') ^ Z.of_nat k) in *.
    assert (Eb : 100 * (count k + 2) * EPSILON == 100 * (count k * EPSILON) + 200 * EPSILON)
      by ring.
    rewrite Eb. set (m := count k * EPSILON) in *.
    apply Qabs_Qle_condition in Epow, Ew, Er, Ev. apply Qabs_Qle_condition.
    halves. lra.
Qed.

Lemma exact_pow_keeps_unit_interval : pow_keeps_unit_interval exact_pow.
Proof.
  intros k Hk. cbn [site.Math_pow exact_pow].
  assert (Hz : (1 <= Qfloor k)%Z).
  { apply Qfloor_resp_le in Hk. exact Hk. }
  replace (Qfloor k) with (Z.of_nat (Z.to_nat (Qfloor k))) by lia.
  split; [|split].
  - intros x Hx. apply round_unit. by apply Qpower_unit_interval.
  - assert (E0 : 0 ^ Z.of_nat (Z.to_nat (Qfloor k)) == 0) by (apply Qpower_0; lia).
    by rewrite (round_proper _ 0 E0).
  - assert (E1 : 1 ^ Z.of_nat (Z.to_nat (Qfloor k)) == 1) by apply Qpower_1.
    by rewrite (round_proper _ 1 E1).
Qed.

Lemma exact_pow_within_epsilon : pow_within_epsilon exact_pow.
Proof.
  intros x k Hk Hx. cbn [site.Math_pow exact_pow].
  unfold count. rewrite Qfloor_Z.
  pose proof (Qpower_unit_interval x k Hx) as Hxk.
  pose proof (round_unit_near _ Hxk) as Hr.
  assert (Hu : 0 < EPSILON) by reflexivity.
  eapply Qle_trans; [exact Hr|]. halves. lra.
Qed.

(** C4 as stated does not hold: one success in five trials, scored at
    [k = 1], is 19.999999999999996 and not (1 - (1 - 1/5)^1) * 100,
    which is 20. *)
Lemma passAtK_one_of_five :
  site.passAtK (E := exact_pow) (count 5) (count 1) (count 1)
    = 5629499534213119 # 281474976710656 /\
  ~ site.passAtK (E := exact_pow) (count 5) (count 1) (count 1)
    == (1 - (1 - count 1 / count 5) ^ 1) * 100.
Proof. split; [vm_compute; reflexivity|]. intros H. vm_compute in H. discriminate. Qed.
End Score.

(** ** The theorems at work *)

Section Witnesses.

(** Three successes in five trials, scored at [k = 5] by the engine
    whose [Math.pow] is correctly rounded. *)
Lemma passAtK_range_witness :
  pow_keeps_unit_interval exact_pow /\ pow_within_epsilon exact_pow /\
  (3 <= 5)%nat /\ (1 <= 5)%nat /\
  (0 <= site.passAtK (E := exact_pow) (count 5) (count 3) (count 5) <= 100 /\
   site.passAtK (E := exact_pow) (count 0) (count 3) (count 5) = 0 /\
   site.passAtK (E := exact_pow) (count 5) (count 0) (count 5) = 0 /\
   site.passAtK (E := exact_pow) (count 5) (count 5) (count 5) = 100 /\
   Qabs (site.passAtK (E := exact_pow) (count 5) (count 3) (count 5)
         - (1 - (1 - count 3 / count 5) ^ Z.of_nat 5) * 100)
   <= 100 * (count 5 + 2) * EPSILON)%Q.
Proof.
  split; [exact exact_pow_keeps_unit_interval|].
  split; [exact exact_pow_within_epsilon|]. split; [lia|]. split; [lia|].
  destruct (passAtK_range exact_pow 5 3 5 exact_pow_keeps_unit_interval
              ltac:(lia) ltac:(lia)) as (Hrange & Hnone & Hzero & Hall & Hnear).
  split; [exact Hrange|]. split; [exact Hnone|]. split; [exact Hzero|].
  split; [apply Hall; lia | apply Hnear; [exact exact_pow_within_epsilon | lia]].
Defined.


(** The agent killed at the deadline of one second; the same when its
    prompt is in a file that does not exist; and the agent killed
    before any deadline. *)
Lemma agent_error_outcome_witness :
  (task_timeout (O := demo.deadline_expires) demo.one_second_task = Ok (Second) /\
   filepath_Abs (Outside := demo.deadline_expires)
     (filepath_Join (Outside := demo.deadline_expires) [TasksDir demo.config; "nap"])
     = Ok "/work/tasks/nap" /\
   runSetup (O := demo.deadline_expires) demo.dl_f0 = (None, demo.dl_f1) /\
   runAgent (O := demo.deadline_expires) demo.dl_f1 = (Err (errorString "signal: killed"), demo.dl_f2) /\
   taskCtx_Err_oracle (Outside := demo.deadline_expires) (fr_world demo.dl_f2) = Some DeadlineExceeded /\
   let r := fst (evaluateTask (O := demo.deadline_expires) demo.config "nap"
                   demo.one_second_task demo.llm (kind.New (O := demo.deadline_expires)) []) in
   model.Result r = "fail" /\ model.Error r = "" /\
   model.Failures r = [model.mkFailure "task timed out after 1s"]) /\
  (task_timeout (O := demo.deadline_expires) scenes.lost_prompt_task = Ok (Second) /\
   filepath_Abs (Outside := demo.deadline_expires)
     (filepath_Join (Outside := demo.deadline_expires) [TasksDir demo.config; "nap"])
     = Ok "/work/tasks/nap" /\
   runSetup (O := demo.deadline_expires) scenes.lost_f0 = (None, scenes.lost_f1) /\
   runAgent (O := demo.deadline_expires) scenes.lost_f1 = (Err (errorString "signal: killed"), scenes.lost_f2) /\
   taskCtx_Err_oracle (Outside := demo.deadline_expires) (fr_world scenes.lost_f2) = Some DeadlineExceeded /\
   let r := fst (evaluateTask (O := demo.deadline_expires) demo.config "nap"
                   scenes.lost_prompt_task demo.llm (kind.New (O := demo.deadline_expires)) []) in
   model.Result r = "fail" /\ model.Error r = "" /\
   model.Failures r =
     [model.mkFailure
        "failed to resolve prompt: open prompt.md: no such file or directory";
      model.mkFailure "task timed out after 1s"]) /\
  (task_timeout (O := scenes.killed) demo.scale_task = Ok (10 * Minute) /\
   filepath_Abs (Outside := scenes.killed)
     (filepath_Join (Outside := scenes.killed) [TasksDir demo.config; "scale"])
     = Ok "/work/tasks/scale" /\
   runSetup (O := scenes.killed) scenes.killed_f0 = (None, scenes.killed_f1) /\
   runAgent (O := scenes.killed) scenes.killed_f1 = (Err (errorString "signal: killed"), scenes.killed_f2) /\
   taskCtx_Err_oracle (Outside := scenes.killed) (fr_world scenes.killed_f2)
     <> Some DeadlineExceeded /\
   let r := fst (evaluateTask (O := scenes.killed) demo.config "scale"
                   demo.scale_task demo.llm (kind.New (O := scenes.killed)) []) in
   model.Result r = "error" /\
   model.Failures r = model.Failures (fr_result scenes.killed_f2) /\
   exists logTail truncated,
     getLastNLines (fr_logBuffer scenes.killed_f2) maxErrLogLines = (logTail, truncated) /\
     (length (split_lines logTail) <= 3)%nat /\
     (if truncated
      then exists dropped, fr_logBuffer scenes.killed_f2 = dropped +:+ newline +:+ logTail
      else logTail = fr_logBuffer scenes.killed_f2) /\
     model.Error r =
       "agent encountered error: " +:+ Error (errorString "signal: killed")
       +:+ newline +:+ "---LOG---"
       +:+ newline +:+ logTail +:+
       (if truncated
        then newline +:+ "... (log truncated, full log at "
             +:+ filepath_Join (Outside := scenes.killed) [OutputDir demo.config; "scale"] +:+ ")"
        else "")).
Proof.
  split; [|split].
  - do 5 (split; [vm_compute; reflexivity|]).
    exact (proj1 (agent_error_outcome (O := demo.deadline_expires) demo.config "nap"
                demo.one_second_task demo.llm (kind.New (O := demo.deadline_expires)) []
                (Second) "/work/tasks/nap" demo.dl_f1 demo.dl_f2 (errorString "signal: killed")
                eq_refl eq_refl eq_refl eq_refl) eq_refl).
  - do 5 (split; [vm_compute; reflexivity|]).
    exact (proj1 (agent_error_outcome (O := demo.deadline_expires) demo.config "nap"
                scenes.lost_prompt_task demo.llm (kind.New (O := demo.deadline_expires)) []
                (Second) "/work/tasks/nap" scenes.lost_f1 scenes.lost_f2 (errorString "signal: killed")
                eq_refl eq_refl eq_refl eq_refl) eq_refl).
  - do 5 (split; [first [discriminate | vm_compute; reflexivity]|]).
    apply (proj2 (agent_error_outcome (O := scenes.killed) demo.config "scale"
                demo.scale_task demo.llm (kind.New (O := scenes.killed)) []
                (10 * Minute) "/work/tasks/scale" scenes.killed_f1 scenes.killed_f2 (errorString "signal: killed")
                eq_refl eq_refl eq_refl eq_refl)).
    discriminate.
Defined.

(** The cleanup of the task that scales a deployment; a task whose
    timeout is not a duration; and a task directory that cannot be
    made absolute. *)
Lemma cleanup_runs_and_keeps_result_witness :
  (task_timeout (O := demo.all_fine) demo.scale_task = Ok (10 * Minute) /\
   filepath_Abs (Outside := demo.all_fine)
     (filepath_Join (Outside := demo.all_fine) [TasksDir demo.config; "scale"])
     = Ok "/work/tasks/scale" /\
   let f1 := snd (evaluateTask_phases (O := demo.all_fine) (10 * Minute) demo.fine_f0) in
   let done := evaluateTask (O := demo.all_fine) demo.config "scale" demo.scale_task
                 demo.llm (kind.New (O := demo.all_fine)) [] in
   fst done = fr_result f1 /\
   fr_result (snd (runCleanup (O := demo.all_fine) f1)) = fr_result f1 /\
   snd done = fr_world (snd (runCleanup (O := demo.all_fine) f1))
              ++ deferred_warning "scale" (fst (runCleanup (O := demo.all_fine) f1)) /\
   cleanup_contract (O := demo.all_fine) (fun fns => fns) f1 /\
   cmd_ctx (cleanup_cmd (O := demo.all_fine) (fr_x f1)) = BackgroundCtx) /\
  (task_timeout (O := demo.quiet) demo.bad_timeout_task
     = Err (errorString ("time: invalid duration " +:+ demo.Quote "soon")) /\
   evaluateTask (O := demo.quiet) demo.config "scale" demo.bad_timeout_task
     demo.llm (kind.New (O := demo.quiet)) []
   = (model.mkTaskResult "scale" demo.llm "fail"
        ("parsing timeout: time: invalid duration " +:+ demo.Quote "soon") [], [])) /\
  (task_timeout (O := scenes.no_work_dir) demo.scale_task = Ok (10 * Minute) /\
   filepath_Abs (Outside := scenes.no_work_dir)
     (filepath_Join (Outside := scenes.no_work_dir) [TasksDir demo.config; "scale"])
     = Err (errorString "getwd: no such file or directory") /\
   evaluateTask (O := scenes.no_work_dir) demo.config "scale" demo.scale_task
     demo.llm (kind.New (O := scenes.no_work_dir)) []
   = (model.mkTaskResult "scale" demo.llm "fail"
        "getwd: no such file or directory" [], [])).
Proof.
  split; [|split].
  - split; [reflexivity|]. split; [reflexivity|].
    exact (cleanup_runs_and_keeps_result (O := demo.all_fine) demo.config "scale"
             demo.scale_task demo.llm (kind.New (O := demo.all_fine)) []).
  - split; [reflexivity|].
    exact (cleanup_runs_and_keeps_result (O := demo.quiet) demo.config "scale"
             demo.bad_timeout_task demo.llm (kind.New (O := demo.quiet)) []).
  - split; [reflexivity|]. split; [reflexivity|].
    exact (cleanup_runs_and_keeps_result (O := scenes.no_work_dir) demo.config "scale"
             demo.scale_task demo.llm (kind.New (O := scenes.no_work_dir)) []).
Defined.

(** A tasks directory read with the pattern [scale]: one task is
    enabled, one is disabled, and the one whose specification is
    broken is not let through, so the load succeeds.  The same
    directory read with no pattern: the load fails on the broken
    specification. *)
Lemma loadTasks_contract_witness :
  ((forall (w' : World) (p : string),
      os_ReadFile_oracle (Outside := scenes.on_disk) w' p = scenes.tasks_files p) /\
   pattern_filter (O := scenes.on_disk) scenes.scale_only (Some "scale") /\
   os_ReadDir_oracle (Outside := scenes.on_disk) [] (TasksDir scenes.scale_only)
     = Ok scenes.tasks_dir /\
   NoDup (map Name scenes.tasks_dir) /\
   Forall (loadable (O := scenes.on_disk) scenes.tasks_files scenes.scale_only
             (Some "scale")) scenes.tasks_dir /\
   exists tasks,
     fst (loadTasks (O := scenes.on_disk) scenes.scale_only []) = Ok tasks /\
     (forall e, e ∈ scenes.tasks_dir ->
        tasks !! Name e
        = kept (O := scenes.on_disk) scenes.tasks_files scenes.scale_only
            (Some "scale") e) /\
     (forall id, id ∉ map Name scenes.tasks_dir -> tasks !! id = None)) /\
  ((forall (w' : World) (p : string),
      os_ReadFile_oracle (Outside := scenes.on_disk) w' p = scenes.tasks_files p) /\
   pattern_filter (O := scenes.on_disk) demo.config None /\
   os_ReadDir_oracle (Outside := scenes.on_disk) [] (TasksDir demo.config)
     = Ok scenes.tasks_dir /\
   NoDup (map Name scenes.tasks_dir) /\
   exists pre e post err,
     scenes.tasks_dir = pre ++ e :: post /\
     Forall (loadable (O := scenes.on_disk) scenes.tasks_files demo.config None) pre /\
     candidate (O := scenes.on_disk) None e = true /\
     load_error (O := scenes.on_disk) demo.config e
       (load_entry (O := scenes.on_disk) scenes.tasks_files demo.config e)
       = Some err /\
     fst (loadTasks (O := scenes.on_disk) demo.config []) = Err err).
Proof.
  assert (Hnd : NoDup (map Name scenes.tasks_dir)).
  { apply (bool_decide_unpack _). vm_compute. exact I. }
  assert (Hfs : forall (w' : World) (p : string),
            os_ReadFile_oracle (Outside := scenes.on_disk) w' p = scenes.tasks_files p)
    by (intros; reflexivity).
  assert (Hscale : pattern_filter (O := scenes.on_disk) scenes.scale_only (Some "scale"))
    by (split; [discriminate | reflexivity]).
  split.
  - split; [exact Hfs|]. split; [exact Hscale|]. split; [reflexivity|].
    split; [exact Hnd|].
    destruct (loadTasks_contract (O := scenes.on_disk) scenes.tasks_files
                scenes.scale_only (Some "scale") scenes.tasks_dir [] Hfs Hscale
                eq_refl Hnd)
      as [(pre & e & post & err & _ & _ & _ & _ & Hfail) | Hloaded].
    + vm_compute in Hfail. discriminate Hfail.
    + exact Hloaded.
  - split; [exact Hfs|]. split; [reflexivity|]. split; [reflexivity|].
    split; [exact Hnd|].
    destruct (loadTasks_contract (O := scenes.on_disk) scenes.tasks_files
                demo.config None scenes.tasks_dir [] Hfs eq_refl eq_refl Hnd)
      as [Hfailed | (_ & tasks & Hok & _)].
    + exact Hfailed.
    + vm_compute in Hok. discriminate Hok.
Defined.
End Witnesses.

(** ** The scenarios of the specification *)

Section Scenarios.

(** The output after the last run command. *)
Example lastCmdOutput_transcript :
  lastCmdOutput demo.transcript
  = "deployment.apps/web scaled to 3 replicas" +:+ newline.
Proof. reflexivity. Qed.

Example lastCmdOutput_two_commands :
  lastCmdOutput scenes.two_commands
  = "deployment.apps/web scaled to 3 replicas" +:+ newline.
Proof. reflexivity. Qed.

Example lastCmdOutput_no_marker : lastCmdOutput "no tool was run" = "no tool was run".
Proof. reflexivity. Qed.

Example lastCmdOutput_no_newline : lastCmdOutput "Running: kubectl get pods" = "".
Proof. reflexivity. Qed.

Example getLastNLines_drops :
  getLastNLines ("a" +:+ newline +:+ "b" +:+ newline +:+ "c" +:+ newline +:+ "d") 3
  = ("b" +:+ newline +:+ "c" +:+ newline +:+ "d", true).
Proof. reflexivity. Qed.

Example getLastNLines_keeps :
  getLastNLines ("a" +:+ newline +:+ "b") 3 = ("a" +:+ newline +:+ "b", false).
Proof. reflexivity. Qed.

(** [Create] fails twice and succeeds at the third attempt: no error,
    three processes and two pauses of five seconds. *)
Example Create_third_attempt :
  let done := kind.Create (O := demo.flaky) "k8s-ai-bench-eval" [] in
  fst done = None /\
  skeleton (snd done)
  = [TExec; TSleep (5 * Second); TExec; TSleep (5 * Second); TExec].
Proof. split; reflexivity. Qed.

(** The expectation is met and no verifier fails: [success]. *)
Example scale_succeeds :
  fst (evaluateTask (O := demo.all_fine) demo.config "scale" demo.scale_task
         demo.llm (kind.New (O := demo.all_fine)) [])
  = model.mkTaskResult "scale" demo.llm "success" "" [].
Proof. reflexivity. Qed.

(** The timeout is one second and the agent is killed at the deadline:
    [fail], with the one Failure that notes the timeout. *)
Example nap_times_out :
  fst (evaluateTask (O := demo.deadline_expires) demo.config "nap"
         demo.one_second_task demo.llm (kind.New (O := demo.deadline_expires)) [])
  = model.mkTaskResult "nap" demo.llm "fail" ""
      [model.mkFailure "task timed out after 1s"].
Proof. reflexivity. Qed.

(** No expectation and no verifier: [fail], whatever the agent prints. *)
Example no_criteria_fails :
  model.Result
    (fst (evaluateTask (O := demo.all_fine) demo.config "idle"
            (mkTask "" "" "" false [] [] "" "") demo.llm
            (kind.New (O := demo.all_fine)) []))
  = "fail".
Proof. reflexivity. Qed.

(** The tasks directory holds a specification that does not parse:
    the load fails and names the file. *)
Example load_fails_on_broken_file :
  fst (loadTasks (O := demo.on_disk) demo.config [])
  = Err (wrapError
           "failed to parse task file tasks/fix-probe/task.yaml: yaml: did not find expected key"
           (errorString "yaml: did not find expected key")).
Proof. reflexivity. Qed.

(** With a filter that lets only [scale] through, the broken file is
    not looked at, and the mapping holds that one task. *)
Example load_with_filter :
  fst (loadTasks (O := demo.on_disk)
         (mkEvalConfig [] "/kube/config" "tasks" "scale" "/bin/agent" "kind" "out") [])
  = Ok {[ "scale" := mkTask "" "verify.sh" "" false [] [] "" "" ]}.
Proof. reflexivity. Qed.

(** 0.1 and 1/3 as doubles. *)
Example round_tenth : site.round (1 # 10) = (3602879701896397 # 36028797018963968)%Q.
Proof. vm_compute. reflexivity. Qed.

Example round_third : site.round (1 # 3) = (6004799503160661 # 18014398509481984)%Q.
Proof. vm_compute. reflexivity. Qed.

Example passAtK_three_of_five :
  site.passAtK (E := exact_pow) (count 5) (count 3) (count 1) = 60%Q.
Proof. vm_compute. reflexivity. Qed.

(** 99.968 as a double. *)
Example passAtK_four_of_five :
  site.passAtK (E := exact_pow) (count 5) (count 4) (count 5)
  = (7034622617952715 # 70368744177664)%Q.
Proof. vm_compute. reflexivity. Qed.

End Scenarios.

(** * Further properties *)

(** ** Searching a string *)

Section Search.

Lemma prefix_split (a s : string) :
  String.prefix a s = true -> exists b, s = a +:+ b.
Proof.
  revert a. induction s as [|c s IH]; intros [|c' a]; cbn; try done; eauto.
  destruct (Ascii.ascii_dec c' c) as [->|]; [|done].
  intros [b ->]%IH. by exists b.
Qed.

Lemma slice_from_app (pre s : string) :
  slice_from (String.length pre) (pre +:+ s) = s.
Proof. induction pre as [|c pre IH]; [by destruct s|]. exact IH. Qed.

Lemma slice_from_suffix (i : nat) (s : string) :
  exists pre, s = pre +:+ slice_from i s.
Proof.
  revert s. induction i as [|i IH]; intros s; [by exists ""|].
  destruct s as [|c s]; [by exists ""|].
  destruct (IH s) as [pre Hpre]. exists (String c pre).
  rewrite append_cons. cbn [slice_from]. by rewrite <- Hpre.
Qed.

Lemma slice_from_slice_from (a b : nat) (s : string) :
  slice_from a (slice_from b s) = slice_from (b + a) s.
Proof.
  revert s. induction b as [|b IH]; intros s; [done|].
  destruct s as [|c s]; [by destruct a|]. apply IH.
Qed.

Lemma slice_from_nonempty (j : nat) (s : string) :
  slice_from j s <> "" -> (j < String.length s)%nat.
Proof.
  revert s. induction j as [|j IH]; intros [|c s]; cbn; intros H;
    try congruence; try lia.
  apply IH in H. lia.
Qed.

Lemma length_append (a b : string) :
  String.length (a +:+ b) = (String.length a + String.length b)%nat.
Proof.
  induction a as [|c a IH]; [done|]. rewrite append_cons. cbn. by rewrite IH.
Qed.

Lemma occurs_prefix (sub s : string) :
  occurs sub s <->
  exists i, (i <= String.length s)%nat /\ String.prefix sub (slice_from i s) = true.
Proof.
  split.
  - intros (pre & post & ->). exists (String.length pre). split.
    + rewrite length_append. lia.
    + rewrite slice_from_app. apply prefix_append.
  - intros (i & _ & [b Hb]%prefix_split).
    destruct (slice_from_suffix i s) as [pre Hpre].
    exists pre, b. by rewrite <- Hb.
Qed.

Lemma strings_LastIndex_ge (s sub : string) : -1 <= strings_LastIndex s sub.
Proof.
  induction s as [|c s IH]; cbn [strings_LastIndex].
  - destruct (String.prefix sub ""); lia.
  - destruct (Z.eqb_spec (strings_LastIndex s sub) (-1)).
    + destruct (String.prefix sub (String c s)); lia.
    + lia.
Qed.

(** [strings_LastIndex] is -1 only when [sub] occurs nowhere. *)
Lemma strings_LastIndex_none (s sub : string) :
  strings_LastIndex s sub = -1 ->
  forall i, String.prefix sub (slice_from i s) = false.
Proof.
  induction s as [|c s IH]; cbn [strings_LastIndex].
  - intros H [|i]; cbn [slice_from]; by destruct (String.prefix sub "").
  - pose proof (strings_LastIndex_ge s sub).
    destruct (Z.eqb_spec (strings_LastIndex s sub) (-1)) as [E|E]; [|lia].
    intros H' [|i]; cbn [slice_from].
    + by destruct (String.prefix sub (String c s)).
    + by apply IH.
Qed.

(** Otherwise it is the position of the last occurrence. *)
Lemma strings_LastIndex_last (s sub : string) (i : nat) :
  strings_LastIndex s sub = Z.of_nat i ->
  (i <= String.length s)%nat /\
  String.prefix sub (slice_from i s) = true /\
  forall j, (i < j <= String.length s)%nat -> String.prefix sub (slice_from j s) = false.
Proof.
  revert i. induction s as [|c s IH]; intros i; cbn [strings_LastIndex].
  - destruct (String.prefix sub "") eqn:E; [|lia].
    intros Hi. assert (i = 0%nat) as -> by lia. cbn. repeat split; [lia|done|lia].
  - pose proof (strings_LastIndex_ge s sub).
    destruct (Z.eqb_spec (strings_LastIndex s sub) (-1)) as [E|E].
    + destruct (String.prefix sub (String c s)) eqn:Ep; [|lia].
      intros Hi. assert (i = 0%nat) as -> by lia. cbn [slice_from String.length].
      repeat split; [lia|done|]. intros [|j] Hj; [lia|]. cbn [slice_from].
      by apply strings_LastIndex_none.
    + intros Hi. destruct i as [|i]; [lia|].
      destruct (IH i ltac:(lia)) as (Hle & Hp & Hlast). cbn [slice_from String.length].
      repeat split; [lia|done|]. intros [|j] Hj; [lia|]. cbn [slice_from].
      apply Hlast. lia.
Qed.

Lemma strings_Index_ge (s sub : string) : -1 <= strings_Index s sub.
Proof.
  induction s as [|c s IH]; cbn [strings_Index];
    destruct (String.prefix sub _); try lia.
  destruct (Z.eqb_spec (strings_Index s sub) (-1)); lia.
Qed.

Lemma prefix_newline (c : Ascii.ascii) (s : string) :
  String.prefix newline (String c s) = is_newline c.
Proof.
  unfold is_newline. cbn.
  destruct (Ascii.ascii_dec _ c) as [<-|Hne].
  - rewrite Ascii.eqb_refl. by destruct s.
  - symmetry. apply Ascii.eqb_neq. congruence.
Qed.

(** [strings_Index] for a newline: -1 when there is none, and otherwise
    the length of the line up to the first one. *)
Lemma strings_Index_newline_none (s : string) :
  strings_Index s newline = -1 -> has_newline s = false.
Proof.
  induction s as [|c s IH]; [done|]. cbn [strings_Index has_newline].
  rewrite prefix_newline. destruct (is_newline c); [done|].
  destruct (Z.eqb_spec (strings_Index s newline) (-1)) as [E|E]; [auto|].
  pose proof (strings_Index_ge s newline). lia.
Qed.

Lemma strings_Index_newline_first (s : string) (n : nat) :
  strings_Index s newline = Z.of_nat n ->
  exists line, has_newline line = false /\
    String.length line = n /\
    s = line +:+ newline +:+ slice_from (n + 1) s.
Proof.
  revert n. induction s as [|c s IH]; intros n; [cbn; lia|].
  cbn [strings_Index]. rewrite prefix_newline.
  destruct (is_newline c) eqn:Hc.
  - intros Hn. assert (n = 0%nat) as -> by lia.
    apply is_newline_true in Hc. injection Hc as ->. by exists "".
  - destruct (Z.eqb_spec (strings_Index s newline) (-1)) as [E|E]; [lia|].
    intros Hn. destruct n as [|n]; [pose proof (strings_Index_ge s newline); lia|].
    destruct (IH n ltac:(lia)) as (line & Hl & Hlen & Hs).
    exists (String c line). cbn [has_newline String.length]. rewrite Hc, Hl.
    repeat split; [lia|]. rewrite append_cons. cbn [Nat.add slice_from].
    f_equal. exact Hs.
Qed.
End Search.

(** ** The output after the last run command *)

Section LastCommand.

Lemma slice_from_prefix_length (i : nat) (s : string) :
  (i <= String.length s)%nat ->
  exists pre, s = pre +:+ slice_from i s /\ String.length pre = i.
Proof.
  revert s. induction i as [|i IH]; intros s Hi; [by exists ""|].
  destruct s as [|c s]; [cbn in Hi; lia|].
  destruct (IH s) as (pre & Hpre & Hlen); [cbn in Hi; lia|].
  exists (String c pre). rewrite append_cons. cbn [slice_from String.length].
  by rewrite <- Hpre, Hlen.
Qed.

Lemma has_newline_app (a b : string) :
  has_newline (a +:+ b) = has_newline a || has_newline b.
Proof.
  induction a as [|c a IH]; [done|]. rewrite append_cons. cbn [has_newline].
  by rewrite IH, orb_assoc.
Qed.

Lemma first_newline_after (m rest l b : string) :
  has_newline m = false -> has_newline l = false ->
  m +:+ rest = l +:+ newline +:+ b ->
  exists line, l = m +:+ line /\ rest = line +:+ newline +:+ b.
Proof.
  revert l. induction m as [|c m IH]; intros l Hm Hl Heq.
  - exists l. done.
  - cbn [has_newline] in Hm. apply orb_false_iff in Hm as [Hc Hm].
    destruct l as [|c' l].
    + rewrite append_cons in Heq. injection Heq as -> _. done.
    + rewrite !append_cons in Heq. injection Heq as -> Heq.
      cbn [has_newline] in Hl. apply orb_false_iff in Hl as [_ Hl].
      destruct (IH l Hm Hl Heq) as (line & -> & Hrest). by exists line.
Qed.

(** No occurrence of [sub] starts after the position [strings_LastIndex]
    returns. *)
Lemma strings_LastIndex_occurs (s sub : string) (i : nat) :
  strings_LastIndex s sub = Z.of_nat i ->
  forall pre post, s = pre +:+ sub +:+ post -> (String.length pre <= i)%nat.
Proof.
  intros Hi pre post Hs.
  destruct (strings_LastIndex_last s sub i Hi) as (_ & _ & Hlast).
  destruct (le_lt_dec (String.length pre) i) as [|Hlt]; [done|].
  specialize (Hlast (String.length pre)).
  rewrite Hs, slice_from_app, prefix_append in Hlast.
  rewrite length_append in Hlast. discriminate Hlast. lia.
Qed.

Lemma strings_LastIndex_absent (s sub : string) :
  strings_LastIndex s sub = -1 -> ~ occurs sub s.
Proof.
  intros Hi (pre & post & Hs).
  pose proof (strings_LastIndex_none s sub Hi (String.length pre)) as Hp.
  by rewrite Hs, slice_from_app, prefix_append in Hp.
Qed.

(** How [lastCmdOutput] cuts the output of the agent. *)
Lemma lastCmdOutput_cut (out : string) :
  (~ occurs "Running:" out /\ lastCmdOutput out = out) \/
  exists pre rest,
    out = pre +:+ "Running:" +:+ rest /\
    (forall pre' post', out = pre' +:+ "Running:" +:+ post' ->
       (String.length pre' <= String.length pre)%nat) /\
    ((has_newline rest = false /\ lastCmdOutput out = "") \/
     exists line, has_newline line = false /\
       rest = line +:+ newline +:+ lastCmdOutput out).
Proof.
  unfold lastCmdOutput.
  pose proof (strings_LastIndex_ge out "Running:") as Hge.
  destruct (Z.eqb_spec (strings_LastIndex out "Running:") (-1)) as [E|E].
  { left. split; [by apply strings_LastIndex_absent | done]. }
  right.
  assert (Hi : strings_LastIndex out "Running:"
               = Z.of_nat (Z.to_nat (strings_LastIndex out "Running:"))) by lia.
  set (i := Z.to_nat (strings_LastIndex out "Running:")) in *.
  destruct (strings_LastIndex_last _ _ _ Hi) as (Hle & Hp & _).
  destruct (slice_from_prefix_length i out Hle) as (pre & Hpre & Hlen).
  destruct (prefix_split _ _ Hp) as [rest Hrest].
  exists pre, rest. split; [by rewrite <- Hrest|]. split.
  { intros pre' post' Hs. rewrite Hlen. by eapply strings_LastIndex_occurs. }
  pose proof (strings_Index_ge (slice_from i out) newline) as Hge'.
  destruct (Z.eqb_spec (strings_Index (slice_from i out) newline) (-1)) as [En|En].
  - left. split; [|done]. apply strings_Index_newline_none in En.
    rewrite Hrest, has_newline_app in En. by apply orb_false_iff in En as [_ ?].
  - right.
    assert (Hn : strings_Index (slice_from i out) newline
                 = Z.of_nat (Z.to_nat (strings_Index (slice_from i out) newline))) by lia.
    set (n := Z.to_nat (strings_Index (slice_from i out) newline)) in *.
    destruct (strings_Index_newline_first _ _ Hn) as (l & Hl & _ & Hs).
    replace (Z.to_nat (strings_Index (slice_from i out) newline + 1)) with (n + 1)%nat by lia.
    rewrite Hrest in Hs at 1.
    destruct (first_newline_after "Running:" rest l _ eq_refl Hl Hs) as (line & -> & Hr).
    exists line. split; [|done].
    rewrite has_newline_app in Hl. by apply orb_false_iff in Hl as [_ ?].
Qed.

(** X1.  The output after the last run command is the end of the agent's
    output, and the marker of a run command does not occur in it. *)
Theorem lastCmdOutput_clear_of_marker (out : string) :
  (exists skipped, out = skipped +:+ lastCmdOutput out) /\
  ~ occurs "Running:" (lastCmdOutput out).
Proof.
  destruct (lastCmdOutput_cut out) as [[Hno ->]|(pre & rest & Hout & Hlast & Hcase)].
  { split; [by exists "" | done]. }
  destruct Hcase as [[_ ->]|(line & _ & Hrest)].
  - split; [exists out; by rewrite append_nil_r|].
    intros (a & b & Hab). by destruct a.
  - split.
    + exists (pre +:+ "Running:" +:+ line +:+ newline).
      rewrite Hout at 1. rewrite Hrest. by rewrite !append_assoc.
    + intros (a & b & Hab).
      specialize (Hlast (pre +:+ "Running:" +:+ line +:+ newline +:+ a) b).
      rewrite !length_append in Hlast. cbn in Hlast.
      enough (String.length pre + S (S (S (S (S (S (S (S
                (String.length line + S (String.length a))))))))) <= String.length pre)%nat
        by lia.
      apply Hlast. rewrite Hout at 1. rewrite Hrest, Hab. by rewrite !append_assoc.
Qed.

Lemma lastCmdOutput_after_last_command (out : string) :
  after_last_command out (lastCmdOutput out).
Proof.
  destruct (lastCmdOutput_cut out) as [H|(pre & rest & Hout & Hlast & Hcase)];
    [by left|].
  right. exists pre, rest. done.
Qed.

Lemma append_inv_length (a a' b b' : string) :
  a +:+ b = a' +:+ b' -> String.length a = String.length a' -> a = a' /\ b = b'.
Proof.
  revert a'. induction a as [|c a IH]; intros [|c' a'] Heq Hlen; try done.
  rewrite !append_cons in Heq. injection Heq as -> Heq.
  destruct (IH a' Heq) as [-> ->]; [cbn in Hlen; lia | done].
Qed.

Lemma last_marker_split_unique (out pre rest pre' rest' : string) :
  last_marker_split out pre rest -> last_marker_split out pre' rest' ->
  pre = pre' /\ rest = rest'.
Proof.
  intros [Hout Hmax] [Hout' Hmax'].
  pose proof (Hmax _ _ Hout'). pose proof (Hmax' _ _ Hout).
  rewrite Hout in Hout'.
  destruct (append_inv_length _ _ _ _ Hout') as [-> Hrest]; [lia|].
  split; [done|].
  by destruct (append_inv_length "Running:" "Running:" _ _ Hrest eq_refl).
Qed.

Lemma line_cut_unique (rest seg seg' : string) :
  line_cut rest seg -> line_cut rest seg' -> seg = seg'.
Proof.
  intros [[Hn ->]|(l & Hl & Hr)] [[Hn' ->]|(l' & Hl' & Hr')]; [done| | |].
  - rewrite Hr', !has_newline_app in Hn. cbn in Hn.
    rewrite orb_true_r in Hn. discriminate.
  - rewrite Hr, !has_newline_app in Hn'. cbn in Hn'.
    rewrite orb_true_r in Hn'. discriminate.
  - rewrite Hr in Hr'.
    destruct (first_newline_after l' (newline +:+ seg') l seg Hl' Hl (eq_sym Hr'))
      as (line & -> & Hline).
    rewrite has_newline_app in Hl. apply orb_false_iff in Hl as [_ Hl].
    destruct line as [|c line]; [by injection Hline|].
    rewrite append_cons in Hline. injection Hline as <- _. done.
Qed.

(** The words above fix one segment. *)
Lemma after_last_command_unique (out seg seg' : string) :
  after_last_command out seg -> after_last_command out seg' -> seg = seg'.
Proof.
  intros [[Hno ->]|(pre & rest & Hsplit & Hcut)]
         [[Hno' ->]|(pre' & rest' & Hsplit' & Hcut')]; [done| | |].
  - destruct Hsplit' as [Hout _]. destruct Hno. by exists pre', rest'.
  - destruct Hsplit as [Hout _]. destruct Hno'. by exists pre, rest.
  - destruct (last_marker_split_unique _ _ _ _ _ Hsplit Hsplit') as [-> ->].
    by eapply line_cut_unique.
Qed.

(** X2.  When the agent ran a command, the segment [lastCmdOutput]
    returns is what follows the line that holds the last marker of the
    output, no marker occurring later, and it is empty when that line
    is not ended; the segment is the only one that fits the words. *)
Theorem lastCmdOutput_after_marker_line (out : string) :
  occurs "Running:" out ->
  (exists pre rest,
     last_marker_split out pre rest /\ line_cut rest (lastCmdOutput out)) /\
  forall seg, after_last_command out seg -> seg = lastCmdOutput out.
Proof.
  intros Hocc. split.
  - destruct (lastCmdOutput_after_last_command out) as [[Hno _]|H]; done.
  - intros seg Hseg. eapply after_last_command_unique; [exact Hseg|].
    apply lastCmdOutput_after_last_command.
Qed.
End LastCommand.

(** ** The tail of the log *)

Section LogTail.

(** X3.  For a positive [n], the lines of what [getLastNLines] returns are
    the last [n] lines of the string, or all of them when there are
    fewer; lines are reported as dropped exactly when there are more;
    and taking the last [n] lines of the result drops nothing. *)
Theorem getLastNLines_last_lines (s : string) (n : nat) :
  (0 < n)%nat ->
  let lines := split_lines s in
  let tail := fst (getLastNLines s n) in
  split_lines tail = drop (length lines - n) lines /\
  snd (getLastNLines s n) = bool_decide (n < length lines)%nat /\
  getLastNLines tail n = (tail, false).
Proof.
  intros Hn lines tail. subst tail. unfold getLastNLines. fold lines.
  destruct (Nat.ltb_spec n (length lines)) as [Hlt|Hge]; cbn [fst snd].
  - assert (Hd : drop (length lines - n) lines <> []).
    { intros Hd%(f_equal length). rewrite length_drop in Hd. cbn in Hd. lia. }
    assert (Hs : split_lines (strings_Join (drop (length lines - n) lines) newline)
                 = drop (length lines - n) lines).
    { apply split_lines_join; [done|]. apply Forall_drop, split_lines_no_newline. }
    rewrite Hs. split; [done|]. split; [by rewrite bool_decide_eq_true_2|].
    rewrite length_drop.
    destruct (Nat.ltb_spec n (length lines - (length lines - n))); [lia|done].
  - replace (length lines - n)%nat with 0%nat by lia. split; [done|].
    split; [by rewrite bool_decide_eq_false_2 by lia|].
    fold lines. destruct (Nat.ltb_spec n (length lines)); [lia|done].
Qed.
End LogTail.

(** ** The failures of the expectations *)

Section ExpectationCount.
Context {O : Outside}.

Lemma expectation_ok_matched (out : string) (e : Expectation) :
  expectation_ok out e = true <-> expectation_matched out e.
Proof.
  unfold expectation_ok, expectation_matched. rewrite orb_true_iff, bool_decide_eq_true.
  split; (intros [?|H]; [by left|right]).
  - destruct (regexp_Compile (Contains e)) as [re|]; [eauto|done].
  - destruct H as (re & -> & ?). done.
Qed.

(** X4.  [check_expectations] records one failure for each expectation that
    is not matched and none for the others, so never more failures
    than there are expectations. *)
Theorem check_expectations_count (es : list Expectation) (out : string) :
  length (check_expectations es out [])
  = length (filter (fun e => expectation_ok out e = false) es) /\
  (length (check_expectations es out []) <= length es)%nat.
Proof.
  assert (H : length (check_expectations es out [])
              = length (filter (fun e => expectation_ok out e = false) es)).
  { induction es as [|e es IH]; [done|].
    cbn [check_expectations].
    destruct (expectation_ok out e) eqn:Hok.
    - rewrite filter_cons_False by (rewrite Hok; done).
      unfold expectation_ok in Hok.
      destruct (bool_decide (Contains e = "")); [exact IH|]. cbn [orb] in Hok.
      destruct (regexp_Compile (Contains e)) as [re|err]; [|done].
      by rewrite Hok.
    - rewrite filter_cons_True by done.
      unfold expectation_ok in Hok. apply orb_false_iff in Hok as [-> Hok].
      destruct (regexp_Compile (Contains e)) as [re|err]; [rewrite Hok|];
        rewrite check_expectations_acc; cbn; by rewrite IH. }
  split; [exact H|]. rewrite H. apply length_filter.
Qed.
End ExpectationCount.

(** ** Provisioning the cluster of a task *)

Section Provision.
Context {O : Outside}.

(** [runSetup_cluster], branch by branch. *)
Lemma runSetup_cluster_eq (f : Frame) :
  let e := fr_x f in
  let name := isolated_cluster_name (taskID e) in
  let path := kubeconfig_path e in
  let e1 := set_cleanupFunctions
              (cleanupFunctions e ++ [cluster.Delete (clusterProvider e) name])
              (set_kubeConfig path e) in
  runSetup_cluster f =
    match cluster.Create (clusterProvider e) name (fr_world f) with
    | (Some err, w1) =>
        (Some (Errorf_w ("failed to create isolated cluster "
                 +:+ strconv_Quote name +:+ ": ") (Some err)),
         mkFrame w1 (fr_logBuffer f) (fr_result f) (set_kubeConfig path e))
    | (None, w1) =>
        match cluster.GetKubeconfig (clusterProvider e) name w1 with
        | (Err err, w2) =>
            (Some (Errorf_w ("failed to get kubeconfig for isolated cluster "
                     +:+ strconv_Quote name +:+ ": ") (Some err)),
             mkFrame w2 (fr_logBuffer f) (fr_result f) e1)
        | (Ok bytes, w2) =>
            let r := os_WriteFile_oracle w2 path bytes in
            (match r with
             | Some err =>
                 Some (Errorf_w ("failed to write kubeconfig for isolated cluster "
                         +:+ strconv_Quote name +:+ ": ") (Some err))
             | None => None
             end,
             mkFrame (w2 ++ [EvWriteFile path bytes r]) (fr_logBuffer f) (fr_result f) e1)
        end
    end.
Proof.
  intros e name path e1. unfold runSetup_cluster. unmonad. cbn.
  fold e. fold name. fold path.
  destruct (cluster.Create _ _ _) as [[err|] w1]; cbn; [done|].
  destruct (cluster.GetKubeconfig _ _ _) as [[bytes|err] w2]; cbn; [|done].
  destruct (os_WriteFile_oracle _ _ _); done.
Qed.

(** [runSetup] after a successful [Create] of the task's cluster: the
    deletion of the cluster is registered. *)
Lemma runSetup_created (f : Frame) (w1 : World) :
  let e := fr_x f in
  let name := isolated_cluster_name (taskID e) in
  Isolation (task e) = IsolationModeCluster ->
  cluster.Create (clusterProvider e) name (fr_world f) = (None, w1) ->
  cleanupFunctions (fr_x (snd (runSetup f)))
    = cleanupFunctions e ++ [cluster.Delete (clusterProvider e) name].
Proof.
  intros e name Hiso Hcreate. unfold runSetup. unfold wbind, get_x. cbv beta iota.
  rewrite bool_decide_eq_true_2 by done.
  pose proof (runSetup_cluster_eq f) as Heq. cbv zeta in Heq.
  fold e name in Heq. rewrite Hcreate in Heq. rewrite Heq. clear Heq.
  destruct (cluster.GetKubeconfig _ _ _) as [[bytes|err] w2]; [|done].
  destruct (os_WriteFile_oracle _ _ _); cbn [fst snd]; cbv beta iota; [done|].
  match goal with
  | |- context [runSetup_script ?f'] =>
      pose proof (runSetup_script_frame f') as [_ Hx]
  end.
  by rewrite Hx.
Qed.

(** X5.  Once the cluster of a task is created, [runSetup] has registered
    its deletion, whatever happens next, and the kubeconfig of the
    execution is the file [kubeconfig.yaml] in the task's directory;
    when [runSetup] returns nil, the credentials of the cluster were
    fetched and written to that file before anything else was done. *)
Theorem runSetup_registers_teardown (f : Frame) (w1 : World) :
  let e := fr_x f in
  let name := isolated_cluster_name (taskID e) in
  Isolation (task e) = IsolationModeCluster ->
  cluster.Create (clusterProvider e) name (fr_world f) = (None, w1) ->
  cleanupFunctions (fr_x (snd (runSetup f)))
    = cleanupFunctions e ++ [cluster.Delete (clusterProvider e) name] /\
  kubeConfig (fr_x (snd (runSetup f))) = kubeconfig_path e /\
  (fst (runSetup f) = None ->
   exists bytes w2 evs,
     cluster.GetKubeconfig (clusterProvider e) name w1 = (Ok bytes, w2) /\
     fr_world (snd (runSetup f))
       = w2 ++ EvWriteFile (kubeconfig_path e) bytes None :: evs).
Proof.
  intros e name Hiso Hcreate. unfold runSetup. unfold wbind, get_x. cbv beta iota.
  rewrite bool_decide_eq_true_2 by done.
  pose proof (runSetup_cluster_eq f) as Heq. cbv zeta in Heq.
  fold e name in Heq. rewrite Hcreate in Heq. rewrite Heq. clear Heq.
  destruct (cluster.GetKubeconfig _ _ _) as [[bytes|err] w2].
  - destruct (os_WriteFile_oracle w2 (kubeconfig_path e) bytes) as [err|] eqn:Hwrite;
      cbn [fst snd]; cbv beta iota.
    + repeat split; try done.
    + match goal with
      | |- context [runSetup_script ?f'] =>
          pose proof (runSetup_script_frame f') as [_ Hx];
          assert (Hw : exists evs, fr_world (snd (runSetup_script f')) = fr_world f' ++ evs)
      end.
      { unfold runSetup_script, wbind, get_x. cbv beta iota.
        destruct (bool_decide _); [exists []; by rewrite app_nil_r|].
        rewrite runCommand_frame. cbn [snd fr_world]. rewrite <- app_assoc. eauto. }
      rewrite Hx. cbn [fr_x]. repeat split; try done.
      intros _. destruct Hw as [evs Hw]. exists bytes, w2, evs. split; [done|].
      rewrite Hw. cbn [fr_world]. by rewrite <- app_assoc.
  - cbn [fst snd]. cbv beta iota. repeat split; try done.
Qed.
End Provision.

(** ** The verdict *)

Section Verdict.
Context {O : Outside}.

Lemma expectation_failure_matched (seg : string) (e : Expectation) :
  expectation_failure seg e = None <-> expectation_matched seg e.
Proof.
  unfold expectation_failure, expectation_matched.
  destruct (bool_decide (Contains e = "")) eqn:He.
  - apply bool_decide_eq_true in He. split; [by left | done].
  - apply bool_decide_eq_false in He.
    destruct (regexp_Compile (Contains e)) as [re|err].
    + destruct (MatchString re seg) eqn:Hm.
      * split; [right; eauto | done].
      * split; [done|]. intros [?|(re' & Hre & Hm')]; [done|]. congruence.
    + split; [done|]. intros [?|(re' & Hre & _)]; done.
Qed.

(** The loop over the expectations keeps what it had and adds the
    Failure of each expectation that is not met. *)
Lemma check_expectations_unmet (es : list Expectation) (seg : string) :
  check_expectations es seg [] = unmet_failures seg es.
Proof.
  unfold unmet_failures. induction es as [|e es IH]; [done|].
  cbn [check_expectations].
  change (omap (expectation_failure seg) (e :: es))
    with (match expectation_failure seg e with
          | Some y => y :: omap (expectation_failure seg) es
          | None => omap (expectation_failure seg) es
          end).
  unfold expectation_failure at 1.
  destruct (bool_decide (Contains e = "")); [exact IH|].
  destruct (regexp_Compile (Contains e)) as [re|err].
  - destruct (MatchString re seg); [exact IH|].
    rewrite check_expectations_acc, IH. done.
  - rewrite check_expectations_acc, IH. done.
Qed.

(** C1.  When [runSetup] returns nil and [runAgent] returns the
    agent's output, [evaluateTask] starts the declared verifier, and
    nothing else, and the outcome it returns is [success] if and only
    if the outside let the verifier exit with status zero, or at least
    one expectation is declared and every expectation is matched by
    the output after the last run command; otherwise the outcome is
    [fail] and the Failures end with one Failure for each expectation
    that is not met, in the order they are declared.  An expectation
    that declares no pattern counts as matched. *)
Theorem evaluateTask_success_iff (config : EvalConfig) (tid : string)
    (t : Task) (llmConfig : model.LLMConfig) (provider : cluster.Provider) (w : World)
    (timeout : Duration) (taskDirAbs : string) (f1 f2 : Frame) (out : string) :
  let f0 := initial_frame config tid t llmConfig provider taskDirAbs w in
  task_timeout t = Ok timeout ->
  filepath_Abs (filepath_Join [TasksDir config; tid]) = Ok taskDirAbs ->
  runSetup f0 = (None, f1) ->
  runAgent f1 = (Ok out, f2) ->
  let r := fst (evaluateTask config tid t llmConfig provider w) in
  exists (evs : list Event) (seg : string) (verifierSucceeded : bool),
    fr_world (snd (evaluateTask_phases timeout f0)) = fr_world f2 ++ evs /\
    after_last_command out seg /\
    verifier_verdict (Verifier t) taskDirAbs (fr_world f2) evs verifierSucceeded /\
    (model.Result r = "success" <->
       verifierSucceeded = true \/
       (Expect t <> [] /\ Forall (expectation_matched seg) (Expect t))) /\
    (model.Result r <> "success" ->
       model.Result r = "fail" /\
       exists earlier, model.Failures r = earlier ++ unmet_failures seg (Expect t)).
Proof.
  intros f0 Ht Habs Hsetup Hagent r. subst r.
  unfold evaluateTask. rewrite Ht, Habs. fold f0. cbn [fst].
  unfold evaluateTask_phases, wbind. rewrite Hsetup, Hagent.
  pose proof (runSetup_frame f0) as [_ Hs]. rewrite Hsetup in Hs. cbn [snd] in Hs.
  destruct Hs as (_ & _ & _ & Htask & _ & Hdir & _).
  pose proof (runAgent_frame _ _ _ Hagent) as [Hx _].
  rewrite <- Hx in Htask, Hdir. cbn in Htask, Hdir.
  pose proof (effective_task_fields config t) as (HE & HV & _).
  rewrite <- Htask in HE, HV.
  pose proof (lastCmdOutput_after_last_command out) as Hseg.
  unfold verifier_verdict.
  destruct (decide (Verifier t = "")) as [Hv|Hv].
  - rewrite agent_succeeded_no_verifier by congruence. cbn [snd fr_world fr_result].
    rewrite (bool_decide_eq_true_2 _ Hv).
    eexists _, (lastCmdOutput out), false. split; [reflexivity|].
    split; [exact Hseg|]. split; [by rewrite exec_events_expectation|].
    rewrite <- HE. rewrite <- expectationsMet_of_iff, <- check_expectations_unmet.
    destruct (final_result_cases (task (fr_x f2)) out (fr_result f2))
      as [[Hm Hr]|(Hm & Hr & Hf)]; rewrite Hr.
    + split; [split; auto | done].
    + split.
      * split; [done|]. intros [?|?]; congruence.
      * intros _. split; [done|]. eauto.
  - pose proof (agent_succeeded_verifier out f2) as Heq.
    cbv zeta in Heq. rewrite Heq by congruence. clear Heq.
    set (vr := exec_oracle _ _).
    cbn [snd fr_world fr_result]. rewrite <- (app_assoc (fr_world f2)).
    rewrite (bool_decide_eq_false_2 _ Hv).
    eexists _, (lastCmdOutput out),
      (match res_err vr with None => true | Some _ => false end).
    split; [reflexivity|]. split; [exact Hseg|]. split.
    { eexists _, (verifier_cmd (fr_x f2)), vr.
      split; [reflexivity|]. split.
      { rewrite exec_events_app, exec_events_expectation. done. }
      split; [done|]. split; [cbn; by rewrite <- Hdir, <- HV|]. split; [done|].
      split; [|done]. done. }
    rewrite <- HE. rewrite <- expectationsMet_of_iff, <- check_expectations_unmet.
    destruct (res_err vr) as [err|] eqn:Herr.
    + match goal with
      | |- context [final_result ?t' ?o ?r'] =>
          destruct (final_result_cases t' o r') as [[Hm Hr]|(Hm & Hr & Hf)]; rewrite Hr
      end.
      * split; [split; auto | done].
      * split.
        -- split; [done|]. intros [?|?]; congruence.
        -- intros _. split; [done|]. eauto.
    + cbn [model.Result model.set_Result]. split; [|done].
      split; [|done]. intros _. by left.
Qed.
End Verdict.

(** ** The phases of a run, put together *)

Section Composition.
Context {O : Outside}.

(** After [runSetup] nothing assigns to [x]. *)
Lemma phases_x (timeout : Duration) (f : Frame) :
  fr_x (snd (evaluateTask_phases timeout f)) = fr_x (snd (runSetup f)).
Proof.
  unfold evaluateTask_phases, wbind.
  destruct (runSetup f) as [[err|] f1]; cbn [snd] in *; [done|].
  destruct (runAgent f1) as [[out|err] f2] eqn:Hagent;
    pose proof (runAgent_frame _ _ _ Hagent) as [Hx _].
  - destruct (decide (Verifier (task (fr_x f2)) = "")) as [Hv|Hv].
    + rewrite agent_succeeded_no_verifier by done. cbn. by rewrite Hx.
    + pose proof (agent_succeeded_verifier out f2 Hv) as Heq. cbv zeta in Heq.
      rewrite Heq. cbn. by rewrite Hx.
  - rewrite agent_failed_eq. cbn. by rewrite Hx.
Qed.

Lemma isolation_requested (config : EvalConfig) (t : Task) :
  ClusterProvider config = "vcluster" \/ Isolation t = IsolationModeCluster ->
  Isolation (effective_task config t) = IsolationModeCluster.
Proof.
  unfold effective_task. intros [H|H].
  - by rewrite bool_decide_eq_true_2.
  - by destruct (bool_decide _).
Qed.

(** X6.  When the cluster of a task was created, [evaluateTask] ends by
    deleting it: after the phases and the cleanup script, the last
    thing it does is the provider's [Delete] for the cluster's name,
    and a warning when that failed; this holds whether fetching the
    credentials, the setup script, the agent or the verification
    failed or not. *)
Theorem isolated_cluster_is_deleted (config : EvalConfig) (tid : string)
    (t : Task) (llmConfig : model.LLMConfig) (provider : cluster.Provider)
    (w w1 : World) (timeout : Duration) (taskDirAbs : string) :
  task_timeout t = Ok timeout ->
  filepath_Abs (filepath_Join [TasksDir config; tid]) = Ok taskDirAbs ->
  ClusterProvider config = "vcluster" \/ Isolation t = IsolationModeCluster ->
  cluster.Create provider (isolated_cluster_name tid) w = (None, w1) ->
  let f0 := initial_frame config tid t llmConfig provider taskDirAbs w in
  let f1 := snd (evaluateTask_phases timeout f0) in
  let done := evaluateTask config tid t llmConfig provider w in
  exists evs : list Event,
    script_contract f1 evs /\
    let deleted := cluster.Delete provider (isolated_cluster_name tid) (fr_world f1 ++ evs) in
    snd done = snd deleted ++ deferred_warning tid (errors_Join [fst deleted]).
Proof.
  intros Ht Habs Hiso Hcreate f0 f1 done. subst done.
  unfold evaluateTask. rewrite Ht, Habs. fold f0. fold f1. cbn [fst snd].
  rewrite evaluateTask_deferred_eq. cbn [snd fr_world].
  destruct (runCleanup_eq f1) as (evs & logString & Hs & Heq).
  exists evs. split; [exact Hs|]. rewrite Heq. cbn [fst snd fr_world].
  destruct (phases_static timeout f0) as (_ & _ & _ & _ & Hid & _). fold f1 in Hid.
  rewrite Hid.
  assert (Hfns : cleanupFunctions (fr_x f1)
                 = [cluster.Delete provider (isolated_cluster_name tid)]).
  { unfold f1. rewrite phases_x.
    apply (runSetup_created f0 w1); [by apply isolation_requested | exact Hcreate]. }
  rewrite Hfns. cbn [run_all].
  destruct (cluster.Delete provider _ _) as [err w2]. done.
Qed.

(** X7.  When the cluster of a task cannot be created, [evaluateTask]
    reports it in the [Error] of the result, records no Failure, and
    starts nothing but the cleanup script: the agent and the verifier
    are not run, and no deletion of the cluster is attempted. *)
Theorem provisioning_failure_reported (config : EvalConfig) (tid : string)
    (t : Task) (llmConfig : model.LLMConfig) (provider : cluster.Provider)
    (w w1 : World) (timeout : Duration) (taskDirAbs : string) (err : error) :
  task_timeout t = Ok timeout ->
  filepath_Abs (filepath_Join [TasksDir config; tid]) = Ok taskDirAbs ->
  ClusterProvider config = "vcluster" \/ Isolation t = IsolationModeCluster ->
  cluster.Create provider (isolated_cluster_name tid) w = (Some err, w1) ->
  let f0 := initial_frame config tid t llmConfig provider taskDirAbs w in
  let f1 := snd (evaluateTask_phases timeout f0) in
  let done := evaluateTask config tid t llmConfig provider w in
  model.Error (fst done)
    = "failed to create isolated cluster "
      +:+ strconv_Quote (isolated_cluster_name tid) +:+ ": " +:+ Error err /\
  model.Failures (fst done) = [] /\
  exists evs : list Event,
    script_contract f1 evs /\ snd done = w1 ++ evs.
Proof.
  intros Ht Habs Hiso Hcreate f0 f1 done.
  assert (Hsetup : runSetup f0 =
            (Some (Errorf_w ("failed to create isolated cluster "
                     +:+ strconv_Quote (isolated_cluster_name tid) +:+ ": ") (Some err)),
             mkFrame w1 (fr_logBuffer f0) (fr_result f0)
                     (set_kubeConfig (kubeconfig_path (fr_x f0)) (fr_x f0)))).
  { unfold runSetup. unfold wbind, get_x. cbv beta iota.
    rewrite bool_decide_eq_true_2 by by apply isolation_requested.
    pose proof (runSetup_cluster_eq f0) as Heq. cbv zeta in Heq.
    change (taskID (fr_x f0)) with tid in Heq.
    change (clusterProvider (fr_x f0)) with provider in Heq.
    change (fr_world f0) with w in Heq.
    rewrite Hcreate in Heq. rewrite Heq. done. }
  destruct (setup_error_outcome _ _ _ _ _ _ _ _ _ _ Ht Habs Hsetup) as (_ & He & Hf).
  subst done. split; [rewrite He; cbn [Errorf_w Error]; by rewrite <- !append_assoc|].
  split; [exact Hf|].
  unfold evaluateTask. rewrite Ht, Habs. fold f0. fold f1. cbn [fst snd].
  rewrite evaluateTask_deferred_eq. cbn [snd fr_world].
  destruct (runCleanup_eq f1) as (evs & logString & Hs & Heq).
  exists evs. split; [exact Hs|]. rewrite Heq. cbn [fst snd fr_world].
  assert (Hf1 : cleanupFunctions (fr_x f1) = [] /\ fr_world f1 = w1).
  { unfold f1. rewrite phases_x. unfold evaluateTask_phases, wbind.
    rewrite Hsetup. done. }
  destruct Hf1 as [Hfns Hw]. rewrite Hfns, Hw. cbn. by rewrite app_nil_r.
Qed.

(** X8.  A task that declares neither expectations nor a verifier is never
    a success, whatever the agent does. *)
Theorem no_criteria_never_success (config : EvalConfig) (tid : string)
    (t : Task) (llmConfig : model.LLMConfig) (provider : cluster.Provider) (w : World) :
  Expect t = [] -> Verifier t = "" ->
  model.Result (fst (evaluateTask config tid t llmConfig provider w)) <> "success".
Proof.
  intros He Hv.
  destruct (task_timeout t) as [timeout|e] eqn:Ht;
    [|unfold evaluateTask; rewrite Ht; done].
  destruct (filepath_Abs (filepath_Join [TasksDir config; tid])) as [dir|e] eqn:Habs;
    [|unfold evaluateTask; rewrite Ht, Habs; done].
  set (f0 := initial_frame config tid t llmConfig provider dir w).
  destruct (runSetup f0) as [[err|] f1] eqn:Hsetup.
  { destruct (setup_error_outcome _ _ _ _ _ _ _ _ _ _ Ht Habs Hsetup) as (Hr & _).
    by rewrite Hr. }
  unfold evaluateTask. rewrite Ht, Habs. fold f0. cbn [fst].
  unfold evaluateTask_phases, wbind. rewrite Hsetup.
  pose proof (runSetup_frame f0) as [_ Hs]. rewrite Hsetup in Hs. cbn [snd] in Hs.
  destruct Hs as (_ & _ & _ & Htask & _).
  destruct (effective_task_fields config t) as (Hexp & Hver & _).
  destruct (runAgent f1) as [[out|err] f2] eqn:Hagent;
    pose proof (runAgent_frame _ _ _ Hagent) as [Hx _].
  - assert (Htask2 : task (fr_x f2) = effective_task config t)
      by (rewrite Hx, Htask; done).
    rewrite agent_succeeded_no_verifier by (rewrite Htask2, Hver; done).
    cbn [snd fr_result].
    destruct (final_result_cases (task (fr_x f2)) out (fr_result f2))
      as [[Hmet _]|(_ & Hr & _)].
    + apply expectationsMet_of_iff in Hmet as [Hne _].
      rewrite Htask2, Hexp in Hne. done.
    + by rewrite Hr.
  - rewrite agent_failed_eq. cbn [snd fr_result].
    destruct (taskCtx_Err_oracle _) as [[]|]; done.
Qed.

(** X9.  After an error of the agent the run goes straight to cleanup: no
    expectation is checked and the verifier is not started, whether
    the task declares one or not; nothing is printed or logged. *)
Theorem agent_error_skips_verification (timeout : Duration) (f0 f1 f2 : Frame)
    (err : error) :
  runSetup f0 = (None, f1) ->
  runAgent f1 = (Err err, f2) ->
  fr_world (snd (evaluateTask_phases timeout f0)) = fr_world f2 /\
  fr_logBuffer (snd (evaluateTask_phases timeout f0)) = fr_logBuffer f2 /\
  fr_x (snd (evaluateTask_phases timeout f0)) = fr_x f2.
Proof.
  intros Hsetup Hagent. unfold evaluateTask_phases, wbind.
  rewrite Hsetup, Hagent, agent_failed_eq. done.
Qed.

Lemma with_log_tail_prefix (what : string) (err : error) (logString : string)
    (maxLines : nat) (logPath : string) :
  String.prefix what (with_log_tail what err logString maxLines logPath) = true.
Proof.
  unfold with_log_tail. destruct (getLastNLines logString maxLines) as [logTail []].
  - rewrite append_assoc. apply prefix_append.
  - apply prefix_append.
Qed.

(** X10.  What the verification leaves in [Failures], once the agent has
    returned its output: the Failures recorded before, then one
    Failure for the verifier exactly when a verifier is declared and
    it did not exit with status zero, then one Failure for each
    expectation that the output after the last run command does not
    meet, in the order of the expectations, unless the outcome is
    [success]: a successful verifier makes the unmet expectations
    leave no trace in the result. *)
Theorem verification_failures (config : EvalConfig) (tid : string)
    (t : Task) (llmConfig : model.LLMConfig) (provider : cluster.Provider) (w : World)
    (timeout : Duration) (taskDirAbs : string) (f1 f2 : Frame) (out : string) :
  let f0 := initial_frame config tid t llmConfig provider taskDirAbs w in
  task_timeout t = Ok timeout ->
  filepath_Abs (filepath_Join [TasksDir config; tid]) = Ok taskDirAbs ->
  runSetup f0 = (None, f1) ->
  runAgent f1 = (Ok out, f2) ->
  let r := fst (evaluateTask config tid t llmConfig provider w) in
  exists (evs : list Event) (seg : string) (noted : list model.Failure),
    fr_world (snd (evaluateTask_phases timeout f0)) = fr_world f2 ++ evs /\
    after_last_command out seg /\
    model.Failures r
      = model.Failures (fr_result f2) ++ noted
        ++ (if bool_decide (model.Result r = "success") then []
            else unmet_failures seg (Expect t)) /\
    (forall e, expectation_failure seg e = None <-> expectation_matched seg e) /\
    (noted = [] <->
       Verifier t = "" \/ verifier_exited_zero (Verifier t) taskDirAbs evs) /\
    (length noted <= 1)%nat /\
    Forall (fun x => String.prefix "verifier script failed: " (model.Message x) = true)
           noted.
Proof.
  intros f0 Ht Habs Hsetup Hagent r. subst r.
  unfold evaluateTask. rewrite Ht, Habs. fold f0. cbn [fst].
  unfold evaluateTask_phases, wbind. rewrite Hsetup, Hagent.
  pose proof (runSetup_frame f0) as [_ Hs]. rewrite Hsetup in Hs. cbn [snd] in Hs.
  destruct Hs as (_ & _ & _ & Htask & _ & Hdir & _).
  pose proof (runAgent_frame _ _ _ Hagent) as [Hx _].
  rewrite <- Hx in Htask, Hdir. cbn in Htask, Hdir.
  pose proof (effective_task_fields config t) as (HE & HV & _).
  rewrite <- Htask in HE, HV.
  pose proof (lastCmdOutput_after_last_command out) as Hseg.
  pose proof (expectation_failure_matched (lastCmdOutput out)) as Hfm.
  destruct (decide (Verifier t = "")) as [Hv|Hv].
  - rewrite agent_succeeded_no_verifier by congruence. cbn [snd fr_world fr_result].
    eexists _, (lastCmdOutput out), []. split; [reflexivity|]. split; [exact Hseg|].
    rewrite <- HE, <- check_expectations_unmet. cbn [app length].
    split; [|split; [exact Hfm|split; [split; auto|split; [lia|constructor]]]].
    destruct (final_result_cases (task (fr_x f2)) out (fr_result f2))
      as [[Hm Hr]|(Hm & Hr & Hf)]; rewrite Hr.
    + rewrite bool_decide_eq_true_2 by done. unfold final_result. rewrite Hm.
      cbn. by rewrite app_nil_r.
    + rewrite bool_decide_eq_false_2 by done. exact Hf.
  - pose proof (agent_succeeded_verifier out f2) as Heq.
    cbv zeta in Heq. rewrite Heq by congruence. clear Heq.
    set (vr := exec_oracle _ _).
    cbn [snd fr_world fr_result]. rewrite <- (app_assoc (fr_world f2)).
    unfold verifier_exited_zero.
    destruct (res_err vr) as [err|] eqn:Herr.
    + eexists _, (lastCmdOutput out), [_]. split; [reflexivity|]. split; [exact Hseg|].
      rewrite !exec_events_app, exec_events_expectation. cbn [app exec_events omap].
      rewrite <- HE, <- check_expectations_unmet.
      split; [|split; [exact Hfm|split; [|split; [cbn; lia|]]]].
      * match goal with
        | |- context [final_result ?t' ?o ?r'] =>
            destruct (final_result_cases t' o r') as [[Hm Hr]|(Hm & Hr & Hf)];
              rewrite Hr
        end.
        -- rewrite bool_decide_eq_true_2 by done. unfold final_result. rewrite Hm.
           cbn. reflexivity.
        -- rewrite bool_decide_eq_false_2 by done. rewrite Hf. cbn.
           by rewrite <- app_assoc.
      * split; [done|].
        intros [?|(_ & c & r' & rest & Hev & _ & _ & Hnone)]; [done|].
        cbn in Hev. simplify_eq.
      * constructor; [|constructor]. cbn [model.Message]. apply with_log_tail_prefix.
    + eexists _, (lastCmdOutput out), []. split; [reflexivity|]. split; [exact Hseg|].
      rewrite !exec_events_app, exec_events_expectation. cbn [app exec_events omap].
      cbn [model.Result model.set_Result model.Failures].
      rewrite bool_decide_eq_true_2 by done. rewrite app_nil_r.
      split; [done|]. split; [exact Hfm|]. split; [|split; [cbn; lia|constructor]].
      split; [|done]. intros _. right. split; [done|].
      eexists _, _, _. split; [reflexivity|]. cbn. rewrite <- Hdir, <- HV. done.
Qed.
End Composition.

(** ** The agent *)

Section Agent.
Context {O : Outside}.




End Agent.

(** ** What the loader touches *)

Section LoadReads.
Context {O : Outside}.

Lemma files_read_app (evs1 evs2 : list Event) :
  files_read (evs1 ++ evs2) = files_read evs1 ++ files_read evs2.
Proof. unfold files_read. by rewrite omap_app. Qed.

Lemma loadTasks_loop_events (fs : string -> res string) (config : EvalConfig)
    (taskFilter : option Regexp) (entries : list DirEntry)
    (tasks : gmap string Task) (w : World) :
  (forall (w' : World) (p : string), os_ReadFile_oracle w' p = fs p) ->
  snd (loadTasks_loop config taskFilter entries tasks w)
  = w ++ load_events fs config taskFilter entries.
Proof.
  intros Hstatic. unfold load_events. revert tasks w.
  induction entries as [|e rest IH]; intros tasks w.
  - cbn. by rewrite app_nil_r.
  - cbn [attempted]. destruct (candidate taskFilter e) eqn:Hc.
    + revert Hc. unfold candidate. cbn [loadTasks_loop].
      intros [-> Hm]%andb_true_iff. cbn [negb].
      replace (match taskFilter with
               | Some re => negb (MatchString re (Name e)) | None => false end)
        with false by (destruct taskFilter; [by rewrite Hm | done]).
      unfold wbind, os_ReadFile, wret, Printf, emit. rewrite Hstatic.
      fold (task_file config e). cbn [flat_map]. unfold load_entry at 1 3.
      destruct (fs (task_file config e)) as [data|inner]; [|done].
      destruct (yaml_Unmarshal_Task data) as [t|inner]; [|done].
      destruct (Disabled t); rewrite IH, <- !app_assoc; done.
    + rewrite candidate_false_skip by done. apply IH.
Qed.

Lemma load_events_reads (fs : string -> res string) (config : EvalConfig)
    (taskFilter : option Regexp) (entries : list DirEntry) :
  files_read (load_events fs config taskFilter entries)
    = map (task_file config) (attempted fs config taskFilter entries) /\
  exec_events (load_events fs config taskFilter entries) = [].
Proof.
  unfold load_events.
  induction (attempted fs config taskFilter entries) as [|e l [IHr IHx]]; [done|].
  cbn [flat_map map]. rewrite files_read_app, exec_events_app, IHr, IHx.
  destruct (load_entry fs config e) as [t| |]; [destruct (Disabled t)| |]; done.
Qed.

(** X13.  In a file system that does not change during the load, with
    the filter that the configured task pattern stands for,
    [loadTasks] lists the tasks directory once and after that only
    opens specification files, those of the directories the filter
    lets through, in the order of the listing and none after the first
    that cannot be read or parsed, and prints a note for each disabled
    task: it does nothing else, and starts no process. *)
Theorem loadTasks_reads_candidates (fs : string -> res string) (config : EvalConfig)
    (taskFilter : option Regexp) (entries : list DirEntry) (w : World) :
  (forall (w' : World) (p : string), os_ReadFile_oracle w' p = fs p) ->
  pattern_filter config taskFilter ->
  os_ReadDir_oracle w (TasksDir config) = Ok entries ->
  exists evs : list Event,
    snd (loadTasks config w) = w ++ evs /\
    evs = EvReadDir (TasksDir config) :: load_events fs config taskFilter entries /\
    files_read evs = map (task_file config) (attempted fs config taskFilter entries) /\
    exec_events evs = [].
Proof.
  intros Hstatic Hfilter Hdir.
  assert (Hc : compile_taskFilter config = Ok taskFilter).
  { revert Hfilter. unfold pattern_filter, compile_taskFilter.
    destruct taskFilter as [re|].
    - intros [Hne ->]. by rewrite bool_decide_eq_false_2.
    - intros ->. done. }
  unfold loadTasks. rewrite Hc. unfold wbind, os_ReadDir. rewrite Hdir.
  rewrite (loadTasks_loop_events fs config taskFilter entries ∅ _ Hstatic).
  destruct (load_events_reads fs config taskFilter entries) as [Hr Hx].
  eexists. split; [by rewrite <- app_assoc|]. split; [done|]. cbn. done.
Qed.

(** X14.  A task pattern that is not a regular expression makes [loadTasks]
    fail before it looks at the tasks directory: the error wraps the
    error of the compilation and quotes the pattern, and nothing is
    listed or read. *)
Theorem loadTasks_bad_pattern (config : EvalConfig) (w : World) (err : error) :
  TaskPattern config <> "" ->
  regexp_Compile (TaskPattern config) = Err err ->
  exists e : error,
    loadTasks config w = (Err e, w) /\
    Unwrap e = Some err /\
    Error e = "compiling task pattern regex " +:+ strconv_Quote (TaskPattern config)
              +:+ ": " +:+ Error err.
Proof.
  intros Hne Hc. unfold loadTasks, compile_taskFilter.
  rewrite bool_decide_eq_false_2 by done. rewrite Hc.
  eexists. split; [reflexivity|]. split; [done|].
  cbn [Errorf_w Error]. by rewrite !append_assoc.
Qed.
End LoadReads.

(** ** The providers *)

Section MoreProviders.
Context {O : Outside}.

Ltac next_run r E :=
  match goal with
  | |- context [exec_oracle ?w ?c] =>
      lazymatch w with
      | context [exec_oracle _ _] => fail
      | _ => set (r := exec_oracle w c) in *; destruct (res_err r) eqn:E
      end
  end.

(** X15.  [Create] of the vcluster provider that has only a host context
    meets the retry contract of the other two: at most three
    provisioning processes, a pause of five seconds before each but
    the first, nil as soon as one succeeds and, after three failures,
    an error that wraps the error of the third. *)
Theorem vcluster_hostcontext_Create_retries
    (p : vcluster_hostcontext.Provider) (name : string) :
  retries_thrice (vcluster_hostcontext.Create p name).
Proof.
  intros w. unfold vcluster_hostcontext.Create.
  cbn [seq vcluster_hostcontext.Create_loop].
  unfold wbind, wret, Printf, time_Sleep, emit, cmd_Run. cbn [Nat.ltb Nat.leb].
  next_run r1 E1; [next_run r2 E2; [next_run r3 E3|]|];
    (eexists; split;
     [ cbn [fst snd]; rewrite <- ?app_assoc; reflexivity
     | cbn -[Z.mul Second]; repeat split; eauto 10; try lia;
       try (repeat constructor; congruence) ]).
Qed.

(** X16.  A provider's [Create] starts the same command at every attempt
    and no other process: a cluster left half created by a failed
    attempt is not deleted before the next one.  The vcluster
    providers pass [--context] exactly when a host context is set. *)
Theorem Create_repeats_one_command (name : string) :
  starts_only (kind.Create name)
    (mkCmd NoCtx "kind" ["create"; "cluster"; "--name"; name; "--wait"; "5m"]
           "" [] []) /\
  (forall p : vcluster.Provider,
     starts_only (vcluster.Create p name)
       (mkCmd NoCtx "vcluster"
          (["create"; name; "--connect=false"; "--values"; vcluster.ValuesPath p]
           ++ (if bool_decide (vcluster.HostContext p = "") then []
               else ["--context"; vcluster.HostContext p]))
          "" (os_Environ ++ ["KUBECONFIG=" +:+ vcluster.HostKubeConfig p]) [])) /\
  (forall p : vcluster_hostcontext.Provider,
     starts_only (vcluster_hostcontext.Create p name)
       (mkCmd NoCtx "vcluster"
          (["create"; name; "--connect=false"]
           ++ (if bool_decide (vcluster_hostcontext.HostContext p = "") then []
               else ["--context"; vcluster_hostcontext.HostContext p]))
          "" [] [])).
Proof.
  split; [|split; intros p]; intros w.
  - unfold kind.Create. cbn [seq kind.Create_loop].
    unfold wbind, wret, Printf, time_Sleep, emit, cmd_Run. cbn [Nat.ltb Nat.leb].
    next_run r1 E1; [next_run r2 E2; [next_run r3 E3|]|];
      (eexists; split;
       [ cbn [fst snd]; rewrite <- ?app_assoc; reflexivity
       | cbn; repeat constructor ]).
  - unfold vcluster.Create. cbn [seq vcluster.Create_loop].
    unfold wbind, wret, Printf, time_Sleep, emit, cmd_Run. cbn [Nat.ltb Nat.leb].
    unfold vcluster.with_context, vcluster.host_env.
    destruct (bool_decide (vcluster.HostContext p = ""));
      rewrite ?app_nil_r;
      (next_run r1 E1; [next_run r2 E2; [next_run r3 E3|]|];
       (eexists; split;
        [ cbn [fst snd]; rewrite <- ?app_assoc; reflexivity
        | cbn; repeat constructor ])).
  - unfold vcluster_hostcontext.Create. cbn [seq vcluster_hostcontext.Create_loop].
    unfold wbind, wret, Printf, time_Sleep, emit, cmd_Run. cbn [Nat.ltb Nat.leb].
    unfold vcluster_hostcontext.with_context.
    destruct (bool_decide (vcluster_hostcontext.HostContext p = ""));
      rewrite ?app_nil_r;
      (next_run r1 E1; [next_run r2 E2; [next_run r3 E3|]|];
       (eexists; split;
        [ cbn [fst snd]; rewrite <- ?app_assoc; reflexivity
        | cbn; repeat constructor ])).
Qed.
End MoreProviders.

(** ** Tasks that share the cluster *)

Section Shared.
Context {O : Outside}.

Lemma runCommand_ignores (cmd : Cmd) (f : Frame) : ignores_provider (runCommand cmd) f.
Proof. intros p. rewrite !runCommand_frame. done. Qed.

Lemma runSetup_ignores (f : Frame) :
  Isolation (task (fr_x f)) <> IsolationModeCluster ->
  ignores_provider runSetup f.
Proof.
  intros Hiso p. unfold runSetup. unfold wbind, get_x. cbv beta iota.
  cbn [with_provider fr_x task].
  rewrite bool_decide_eq_false_2 by done. unfold wret. cbv beta iota.
  unfold runSetup_script, wbind, get_x. cbv beta iota. cbn [with_provider fr_x task].
  destruct (bool_decide _); [done|]. apply runCommand_ignores.
Qed.

Lemma runAgent_ignores (f : Frame) : ignores_provider runAgent f.
Proof.
  intros p. pose proof (runAgent_eq f) as Heq. cbv zeta in Heq. rewrite Heq.
  pose proof (runAgent_eq (with_provider p f)) as Heq'. cbv zeta in Heq'.
  rewrite Heq'. done.
Qed.

Lemma agent_failed_ignores (timeout : Duration) (err : error) (f : Frame) :
  ignores_provider (agent_failed timeout err) f.
Proof. intros p. rewrite !agent_failed_eq. done. Qed.

Lemma agent_succeeded_ignores (out : string) (f : Frame) :
  ignores_provider (agent_succeeded out) f.
Proof.
  intros p. destruct (decide (Verifier (task (fr_x f)) = "")) as [Hv|Hv].
  - rewrite !agent_succeeded_no_verifier by done. done.
  - pose proof (agent_succeeded_verifier out f Hv) as Heq. cbv zeta in Heq.
    pose proof (agent_succeeded_verifier out (with_provider p f) Hv) as Heq'.
    cbv zeta in Heq'. rewrite Heq, Heq'. done.
Qed.

Lemma phases_ignore (timeout : Duration) (f : Frame) :
  Isolation (task (fr_x f)) <> IsolationModeCluster ->
  ignores_provider (evaluateTask_phases timeout) f.
Proof.
  intros Hiso p. unfold evaluateTask_phases, wbind.
  rewrite (runSetup_ignores f Hiso p).
  destruct (runSetup f) as [[err|] f1]; cbn [fst snd]; [done|].
  rewrite (runAgent_ignores f1 p).
  destruct (runAgent f1) as [[out|err] f2]; cbn [fst snd].
  - rewrite (agent_succeeded_ignores out f2 p). by destruct (agent_succeeded out f2).
  - rewrite (agent_failed_ignores timeout err f2 p).
    by destruct (agent_failed timeout err f2).
Qed.

Lemma run_cleanupFunctions_ignores fns errs (f : Frame) :
  ignores_provider (run_cleanupFunctions fns errs) f.
Proof. intros p. rewrite !run_cleanupFunctions_all. done. Qed.

Lemma runCleanup_ignores (f : Frame) : ignores_provider runCleanup f.
Proof.
  intros p. unfold runCleanup. unfold wbind, get_x. cbv beta iota.
  unfold kubeconfig_env.
  cbn [with_provider fr_x task cleanupFunctions taskID taskDir kubeConfig].
  destruct (bool_decide (Cleanup (task (fr_x f)) = "")).
  - unfold wret. cbv beta iota. rewrite !run_cleanupFunctions_all. done.
  - rewrite !runCommand_frame.
    cbn [with_provider fr_x fr_world fr_logBuffer fr_result log].
    destruct (res_err _); rewrite ?lift_frame; unfold wret; cbv beta iota;
      rewrite !run_cleanupFunctions_all; done.
Qed.

Lemma deferred_ignores (f : Frame) : ignores_provider evaluateTask_deferred f.
Proof.
  intros p. unfold evaluateTask_deferred, wbind, get_x.
  cbn [with_provider fr_x taskID].
  rewrite (runCleanup_ignores f p).
  destruct (runCleanup f) as [[err|] f1]; cbn [fst snd]; [|done].
  rewrite !lift_frame. done.
Qed.

(** X19.  A task that is not isolated never reaches for the cluster
    provider: when the configured provider is not vcluster and the
    task does not ask for a cluster of its own, the result
    [evaluateTask] returns and everything it does to the outside are
    the same whatever provider it is given. *)
Theorem shared_cluster_ignores_provider (config : EvalConfig) (tid : string)
    (t : Task) (llmConfig : model.LLMConfig) (provider provider' : cluster.Provider)
    (w : World) :
  ClusterProvider config <> "vcluster" ->
  Isolation t <> IsolationModeCluster ->
  evaluateTask config tid t llmConfig provider' w
  = evaluateTask config tid t llmConfig provider w.
Proof.
  intros Hprov Hiso. unfold evaluateTask.
  destruct (task_timeout t) as [timeout|e]; [|done].
  destruct (filepath_Abs _) as [dir|e]; [|done].
  set (f0 := initial_frame config tid t llmConfig provider dir w).
  change (initial_frame config tid t llmConfig provider' dir w)
    with (with_provider provider' f0).
  assert (Hiso0 : Isolation (task (fr_x f0)) <> IsolationModeCluster).
  { cbn. unfold effective_task. by rewrite bool_decide_eq_false_2. }
  rewrite (phases_ignore timeout f0 Hiso0 provider'). cbn [snd].
  rewrite (deferred_ignores _ provider'). done.
Qed.
End Shared.

(** ** What every result carries *)

Section Identity.
Context {O : Outside}.

Lemma final_result_fields (t : Task) (out : string) (r : model.TaskResult) :
  model.Task (final_result t out r) = model.Task r /\
  model.LLMConfig_ (final_result t out r) = model.LLMConfig_ r /\
  model.Error (final_result t out r) = model.Error r /\
  model.Result (final_result t out r) <> "error".
Proof. unfold final_result. destruct (expectationsMet_of t out); done. Qed.

(** X20.  Whatever path [evaluateTask] takes, the result it returns names
    the task and the model configuration it was called with; a result
    whose outcome is [success] has an empty [Error], and a result whose
    outcome is [error] has an [Error] that starts with the note of the
    agent's failure. *)
Theorem evaluateTask_result_identity (config : EvalConfig) (tid : string)
    (t : Task) (llmConfig : model.LLMConfig) (provider : cluster.Provider) (w : World) :
  let r := fst (evaluateTask config tid t llmConfig provider w) in
  model.Task r = tid /\ model.LLMConfig_ r = llmConfig /\
  (model.Result r = "success" -> model.Error r = "") /\
  (model.Result r = "error" ->
   String.prefix "agent encountered error: " (model.Error r) = true).
Proof.
  intros r. subst r.
  destruct (task_timeout t) as [timeout|e] eqn:Ht;
    [|unfold evaluateTask; rewrite Ht; done].
  destruct (filepath_Abs (filepath_Join [TasksDir config; tid])) as [dir|e] eqn:Habs;
    [|unfold evaluateTask; rewrite Ht, Habs; done].
  unfold evaluateTask. rewrite Ht, Habs. cbn [fst].
  set (f0 := initial_frame config tid t llmConfig provider dir w).
  unfold evaluateTask_phases, wbind.
  pose proof (runSetup_frame f0) as [Hr1 _].
  destruct (runSetup f0) as [[err|] f1] eqn:Hsetup; cbn [snd] in Hr1.
  { unfold modify_result. cbn [snd fr_result]. rewrite Hr1. done. }
  assert (Hf2 : forall a f2, runAgent f1 = (a, f2) ->
            model.Task (fr_result f2) = tid /\
            model.LLMConfig_ (fr_result f2) = llmConfig /\
            model.Error (fr_result f2) = "").
  { intros a f2 Hagent. destruct (runAgent_frame _ _ _ Hagent) as [_ [Hr|[e Hr]]];
      rewrite Hr, Hr1; done. }
  destruct (runAgent f1) as [[out|err] f2] eqn:Hagent;
    destruct (Hf2 _ _ eq_refl) as (Hid & Hllm & Herr).
  - destruct (decide (Verifier (task (fr_x f2)) = "")) as [Hv|Hv].
    + rewrite agent_succeeded_no_verifier by done. cbn [snd fr_result].
      destruct (final_result_fields (task (fr_x f2)) out (fr_result f2))
        as (-> & -> & -> & Hne). done.
    + pose proof (agent_succeeded_verifier out f2 Hv) as Heq. cbv zeta in Heq.
      rewrite Heq. clear Heq. cbn [snd fr_result].
      destruct (res_err _) as [e|]; [|done].
      match goal with
      | |- context [final_result ?t' ?o ?r'] =>
          destruct (final_result_fields t' o r') as (-> & -> & -> & Hne)
      end. done.
  - rewrite agent_failed_eq. cbn [snd fr_result].
    destruct (taskCtx_Err_oracle _) as [[]|];
      cbn [model.Task model.LLMConfig_ model.Result model.Error model.AddFailure
           model.set_Result model.set_Error];
      repeat split; try done; intros _; apply with_log_tail_prefix.
Qed.
End Identity.

(** ** The further properties at concrete inputs *)

Section MoreWitnesses.

(** The output of an agent that ran two commands. *)
Lemma lastCmdOutput_after_marker_line_witness :
  occurs "Running:" scenes.two_commands /\
  (exists pre rest,
     last_marker_split scenes.two_commands pre rest /\
     line_cut rest (lastCmdOutput scenes.two_commands)) /\
  forall seg, after_last_command scenes.two_commands seg ->
    seg = lastCmdOutput scenes.two_commands.
Proof.
  assert (H : occurs "Running:" scenes.two_commands).
  { exists "", (" kubectl get deployment web" +:+ newline +:+
                "web 1/1 1 1 5m" +:+ newline +:+
                "Running: kubectl scale deployment web --replicas=3" +:+ newline +:+
                "deployment.apps/web scaled to 3 replicas" +:+ newline).
    reflexivity. }
  split; [exact H|]. exact (lastCmdOutput_after_marker_line scenes.two_commands H).
Defined.

(** The last two lines of the same transcript. *)
Lemma getLastNLines_last_lines_witness :
  (0 < 2)%nat /\
  let lines := split_lines demo.transcript in
  let tail := fst (getLastNLines demo.transcript 2) in
  split_lines tail = drop (length lines - 2) lines /\
  snd (getLastNLines demo.transcript 2) = bool_decide (2 < length lines)%nat /\
  getLastNLines tail 2 = (tail, false).
Proof.
  split; [lia|]. apply (getLastNLines_last_lines demo.transcript 2). lia.
Defined.

(** The setup of the task that asks for a cluster of its own. *)
Lemma runSetup_registers_teardown_witness :
  let e := fr_x scenes.iso_f0 in
  Isolation (task e) = IsolationModeCluster (Outside := demo.all_fine) /\
  cluster.Create (clusterProvider e) (isolated_cluster_name (taskID e))
    (fr_world scenes.iso_f0) = (None, scenes.iso_created) /\
  cleanupFunctions (fr_x (snd (runSetup (O := demo.all_fine) scenes.iso_f0)))
    = cleanupFunctions e
      ++ [cluster.Delete (clusterProvider e) (isolated_cluster_name (taskID e))] /\
  kubeConfig (fr_x (snd (runSetup (O := demo.all_fine) scenes.iso_f0)))
    = kubeconfig_path (O := demo.all_fine) e /\
  (fst (runSetup (O := demo.all_fine) scenes.iso_f0) = None ->
   exists bytes w2 evs,
     cluster.GetKubeconfig (clusterProvider e) (isolated_cluster_name (taskID e))
       scenes.iso_created = (Ok bytes, w2) /\
     fr_world (snd (runSetup (O := demo.all_fine) scenes.iso_f0))
       = w2 ++ EvWriteFile (kubeconfig_path (O := demo.all_fine) e) bytes None :: evs).
Proof.
  cbv zeta. split; [reflexivity|]. split; [vm_compute; reflexivity|].
  apply (runSetup_registers_teardown (O := demo.all_fine) scenes.iso_f0 scenes.iso_created);
    vm_compute; reflexivity.
Defined.

(** The whole run of that task. *)
Lemma isolated_cluster_is_deleted_witness :
  task_timeout (O := demo.all_fine) scenes.isolated_task = Ok (10 * Minute) /\
  filepath_Abs (Outside := demo.all_fine)
    (filepath_Join (Outside := demo.all_fine) [TasksDir demo.config; "scale"])
    = Ok "/work/tasks/scale" /\
  (ClusterProvider demo.config = "vcluster" \/
   Isolation scenes.isolated_task = IsolationModeCluster (Outside := demo.all_fine)) /\
  cluster.Create (kind.New (O := demo.all_fine)) (isolated_cluster_name "scale") []
    = (None, scenes.iso_created) /\
  let f1 := snd (evaluateTask_phases (O := demo.all_fine) (10 * Minute) scenes.iso_f0) in
  let done := evaluateTask (O := demo.all_fine) demo.config "scale" scenes.isolated_task
                demo.llm (kind.New (O := demo.all_fine)) [] in
  exists evs : list Event,
    script_contract (O := demo.all_fine) f1 evs /\
    let deleted := cluster.Delete (kind.New (O := demo.all_fine))
                     (isolated_cluster_name "scale") (fr_world f1 ++ evs) in
    snd done = snd deleted ++ deferred_warning "scale" (errors_Join [fst deleted]).
Proof.
  split; [reflexivity|]. split; [reflexivity|]. split; [right; reflexivity|].
  split; [vm_compute; reflexivity|].
  apply (isolated_cluster_is_deleted (O := demo.all_fine) demo.config "scale"
           scenes.isolated_task demo.llm (kind.New (O := demo.all_fine)) []
           scenes.iso_created (10 * Minute) "/work/tasks/scale");
    first [right; reflexivity | vm_compute; reflexivity].
Defined.

(** The same task when no cluster can be created. *)
Lemma provisioning_failure_reported_witness :
  task_timeout (O := scenes.no_cluster) scenes.isolated_task = Ok (10 * Minute) /\
  filepath_Abs (Outside := scenes.no_cluster)
    (filepath_Join (Outside := scenes.no_cluster) [TasksDir demo.config; "scale"])
    = Ok "/work/tasks/scale" /\
  (ClusterProvider demo.config = "vcluster" \/
   Isolation scenes.isolated_task = IsolationModeCluster (Outside := scenes.no_cluster)) /\
  cluster.Create (kind.New (O := scenes.no_cluster)) (isolated_cluster_name "scale") []
    = (Some scenes.create_error, scenes.not_created) /\
  let f0 := initial_frame (O := scenes.no_cluster) demo.config "scale"
              scenes.isolated_task demo.llm (kind.New (O := scenes.no_cluster))
              "/work/tasks/scale" [] in
  let f1 := snd (evaluateTask_phases (O := scenes.no_cluster) (10 * Minute) f0) in
  let done := evaluateTask (O := scenes.no_cluster) demo.config "scale"
                scenes.isolated_task demo.llm (kind.New (O := scenes.no_cluster)) [] in
  model.Error (fst done)
    = "failed to create isolated cluster "
      +:+ strconv_Quote (Outside := scenes.no_cluster) (isolated_cluster_name "scale")
      +:+ ": " +:+ Error scenes.create_error /\
  model.Failures (fst done) = [] /\
  exists evs : list Event,
    script_contract (O := scenes.no_cluster) f1 evs /\
    snd done = scenes.not_created ++ evs.
Proof.
  split; [reflexivity|]. split; [reflexivity|]. split; [right; reflexivity|].
  split; [vm_compute; reflexivity|].
  apply (provisioning_failure_reported (O := scenes.no_cluster) demo.config "scale"
           scenes.isolated_task demo.llm (kind.New (O := scenes.no_cluster)) []
           scenes.not_created (10 * Minute) "/work/tasks/scale" scenes.create_error);
    first [right; reflexivity | vm_compute; reflexivity].
Defined.

(** The task that only sleeps declares no criterion. *)
Lemma no_criteria_never_success_witness :
  Expect demo.one_second_task = [] /\ Verifier demo.one_second_task = "" /\
  model.Result (fst (evaluateTask (O := demo.all_fine) demo.config "nap"
                       demo.one_second_task demo.llm
                       (kind.New (O := demo.all_fine)) [])) <> "success".
Proof.
  split; [reflexivity|]. split; [reflexivity|].
  apply (no_criteria_never_success (O := demo.all_fine) demo.config "nap"
           demo.one_second_task demo.llm (kind.New (O := demo.all_fine)) []);
    reflexivity.
Defined.

(** The agent killed in the task that scales a deployment, which
    declares a verifier and an expectation. *)
Lemma agent_error_skips_verification_witness :
  runSetup (O := scenes.killed) scenes.killed_f0 = (None, scenes.killed_f1) /\
  runAgent (O := scenes.killed) scenes.killed_f1
    = (Err (errorString "signal: killed"), scenes.killed_f2) /\
  fr_world (snd (evaluateTask_phases (O := scenes.killed) (10 * Minute) scenes.killed_f0))
    = fr_world scenes.killed_f2 /\
  fr_logBuffer (snd (evaluateTask_phases (O := scenes.killed) (10 * Minute) scenes.killed_f0))
    = fr_logBuffer scenes.killed_f2 /\
  fr_x (snd (evaluateTask_phases (O := scenes.killed) (10 * Minute) scenes.killed_f0))
    = fr_x scenes.killed_f2.
Proof.
  split; [vm_compute; reflexivity|]. split; [vm_compute; reflexivity|].
  apply (agent_error_skips_verification (O := scenes.killed) (10 * Minute)
           scenes.killed_f0 scenes.killed_f1 scenes.killed_f2
           (errorString "signal: killed"));
    vm_compute; reflexivity.
Defined.

(** The task that scales a deployment, when the agent leaves the
    deployment as it is and the verifier exits with status 1, and
    when the agent scales it and the verifier exits with status 0. *)
Lemma evaluateTask_success_iff_witness :
  (task_timeout (O := scenes.nothing_done) demo.scale_task = Ok (10 * Minute) /\
   filepath_Abs (Outside := scenes.nothing_done)
     (filepath_Join (Outside := scenes.nothing_done) [TasksDir demo.config; "scale"])
     = Ok "/work/tasks/scale" /\
   runSetup (O := scenes.nothing_done) scenes.idle_f0 = (None, scenes.idle_f1) /\
   runAgent (O := scenes.nothing_done) scenes.idle_f1 = (Ok scenes.idle_transcript, scenes.idle_f2) /\
   let r := fst (evaluateTask (O := scenes.nothing_done) demo.config "scale"
                   demo.scale_task demo.llm (kind.New (O := scenes.nothing_done)) []) in
   exists (evs : list Event) (seg : string) (verifierSucceeded : bool),
     fr_world (snd (evaluateTask_phases (O := scenes.nothing_done) (10 * Minute) scenes.idle_f0))
       = fr_world scenes.idle_f2 ++ evs /\
     after_last_command scenes.idle_transcript seg /\
     verifier_verdict (O := scenes.nothing_done) (Verifier demo.scale_task)
       "/work/tasks/scale" (fr_world scenes.idle_f2) evs verifierSucceeded /\
     (model.Result r = "success" <->
        verifierSucceeded = true \/
        (Expect demo.scale_task <> [] /\
         Forall (expectation_matched (O := scenes.nothing_done) seg) (Expect demo.scale_task))) /\
     (model.Result r <> "success" ->
        model.Result r = "fail" /\
        exists earlier, model.Failures r =
          earlier ++ unmet_failures (O := scenes.nothing_done) seg (Expect demo.scale_task))) /\
  (task_timeout (O := demo.all_fine) demo.scale_task = Ok (10 * Minute) /\
   filepath_Abs (Outside := demo.all_fine)
     (filepath_Join (Outside := demo.all_fine) [TasksDir demo.config; "scale"])
     = Ok "/work/tasks/scale" /\
   runSetup (O := demo.all_fine) demo.fine_f0 = (None, demo.fine_f1) /\
   runAgent (O := demo.all_fine) demo.fine_f1 = (Ok demo.transcript, demo.fine_f2) /\
   let r := fst (evaluateTask (O := demo.all_fine) demo.config "scale"
                   demo.scale_task demo.llm (kind.New (O := demo.all_fine)) []) in
   exists (evs : list Event) (seg : string) (verifierSucceeded : bool),
     fr_world (snd (evaluateTask_phases (O := demo.all_fine) (10 * Minute) demo.fine_f0))
       = fr_world demo.fine_f2 ++ evs /\
     after_last_command demo.transcript seg /\
     verifier_verdict (O := demo.all_fine) (Verifier demo.scale_task)
       "/work/tasks/scale" (fr_world demo.fine_f2) evs verifierSucceeded /\
     (model.Result r = "success" <->
        verifierSucceeded = true \/
        (Expect demo.scale_task <> [] /\
         Forall (expectation_matched (O := demo.all_fine) seg) (Expect demo.scale_task))) /\
     (model.Result r <> "success" ->
        model.Result r = "fail" /\
        exists earlier, model.Failures r =
          earlier ++ unmet_failures (O := demo.all_fine) seg (Expect demo.scale_task))).
Proof.
  split.
  - repeat (split; [vm_compute; reflexivity|]).
    apply (evaluateTask_success_iff (O := scenes.nothing_done) demo.config "scale"
             demo.scale_task demo.llm (kind.New (O := scenes.nothing_done)) []
             (10 * Minute) "/work/tasks/scale" scenes.idle_f1 scenes.idle_f2 scenes.idle_transcript);
      vm_compute; reflexivity.
  - repeat (split; [vm_compute; reflexivity|]).
    apply (evaluateTask_success_iff (O := demo.all_fine) demo.config "scale"
             demo.scale_task demo.llm (kind.New (O := demo.all_fine)) []
             (10 * Minute) "/work/tasks/scale" demo.fine_f1 demo.fine_f2 demo.transcript);
      vm_compute; reflexivity.
Defined.

(** The task that scales a deployment, with a verifier that exits
    with status 1. *)
Lemma verification_failures_witness :
  task_timeout (O := demo.verifier_fails) demo.scale_task = Ok (10 * Minute) /\
  filepath_Abs (Outside := demo.verifier_fails)
    (filepath_Join (Outside := demo.verifier_fails) [TasksDir demo.config; "scale"])
    = Ok "/work/tasks/scale" /\
  runSetup (O := demo.verifier_fails) demo.vf_f0 = (None, demo.vf_f1) /\
  runAgent (O := demo.verifier_fails) demo.vf_f1 = (Ok demo.transcript, demo.vf_f2) /\
  let r := fst (evaluateTask (O := demo.verifier_fails) demo.config "scale"
                  demo.scale_task demo.llm (kind.New (O := demo.verifier_fails)) []) in
  exists (evs : list Event) (seg : string) (noted : list model.Failure),
    fr_world (snd (evaluateTask_phases (O := demo.verifier_fails) (10 * Minute) demo.vf_f0))
      = fr_world demo.vf_f2 ++ evs /\
    after_last_command demo.transcript seg /\
    model.Failures r
      = model.Failures (fr_result demo.vf_f2) ++ noted
        ++ (if bool_decide (model.Result r = "success") then []
            else unmet_failures (O := demo.verifier_fails) seg (Expect demo.scale_task)) /\
    (forall e, expectation_failure (O := demo.verifier_fails) seg e = None <->
               expectation_matched (O := demo.verifier_fails) seg e) /\
    (noted = [] <->
       Verifier demo.scale_task = "" \/
       verifier_exited_zero (O := demo.verifier_fails) (Verifier demo.scale_task)
         "/work/tasks/scale" evs) /\
    (length noted <= 1)%nat /\
    Forall (fun x => String.prefix "verifier script failed: " (model.Message x) = true)
           noted.
Proof.
  repeat (split; [vm_compute; reflexivity|]).
  apply (verification_failures (O := demo.verifier_fails) demo.config "scale"
           demo.scale_task demo.llm (kind.New (O := demo.verifier_fails)) []
           (10 * Minute) "/work/tasks/scale" demo.vf_f1 demo.vf_f2 demo.transcript);
    vm_compute; reflexivity.
Defined.


(** The same tasks directory, read with the pattern [scale]. *)
Lemma loadTasks_reads_candidates_witness :
  (forall (w' : World) (p : string),
     os_ReadFile_oracle (Outside := scenes.on_disk) w' p = scenes.tasks_files p) /\
  pattern_filter (O := scenes.on_disk) scenes.scale_only (Some "scale") /\
  os_ReadDir_oracle (Outside := scenes.on_disk) [] (TasksDir scenes.scale_only)
    = Ok scenes.tasks_dir /\
  exists evs : list Event,
    snd (loadTasks (O := scenes.on_disk) scenes.scale_only []) = [] ++ evs /\
    evs = EvReadDir (TasksDir scenes.scale_only)
          :: load_events (O := scenes.on_disk) scenes.tasks_files scenes.scale_only
               (Some "scale") scenes.tasks_dir /\
    files_read evs
      = map (task_file (O := scenes.on_disk) scenes.scale_only)
            (attempted (O := scenes.on_disk) scenes.tasks_files scenes.scale_only
               (Some "scale") scenes.tasks_dir) /\
    exec_events evs = [].
Proof.
  split; [intros; reflexivity|].
  split; [split; [discriminate | reflexivity]|]. split; [reflexivity|].
  apply (loadTasks_reads_candidates (O := scenes.on_disk) scenes.tasks_files
           scenes.scale_only (Some "scale") scenes.tasks_dir []);
    first [intros; reflexivity | split; [discriminate | reflexivity]].
Defined.

(** A task pattern with an open parenthesis. *)
Lemma loadTasks_bad_pattern_witness :
  TaskPattern scenes.bad_pattern_config <> "" /\
  regexp_Compile (Outside := demo.quiet) (TaskPattern scenes.bad_pattern_config)
    = Err (errorString "missing closing )") /\
  exists e : error,
    loadTasks (O := demo.quiet) scenes.bad_pattern_config [] = (Err e, []) /\
    Unwrap e = Some (errorString "missing closing )") /\
    Error e = "compiling task pattern regex "
              +:+ strconv_Quote (Outside := demo.quiet)
                    (TaskPattern scenes.bad_pattern_config)
              +:+ ": " +:+ Error (errorString "missing closing )").
Proof.
  split; [discriminate|]. split; [reflexivity|].
  apply (loadTasks_bad_pattern (O := demo.quiet) scenes.bad_pattern_config []
           (errorString "missing closing )")); [discriminate | reflexivity].
Defined.

(** The task that scales a deployment in the shared cluster, given
    the kind provider or a vcluster provider. *)
Lemma shared_cluster_ignores_provider_witness :
  ClusterProvider demo.config <> "vcluster" /\
  Isolation demo.scale_task <> IsolationModeCluster (Outside := demo.all_fine) /\
  evaluateTask (O := demo.all_fine) demo.config "scale" demo.scale_task demo.llm
    (vcluster.asProvider (O := demo.all_fine) (vcluster.mkProvider "" "" "values.yaml")) []
  = evaluateTask (O := demo.all_fine) demo.config "scale" demo.scale_task demo.llm
      (kind.New (O := demo.all_fine)) [].
Proof.
  split; [discriminate|]. split; [discriminate|].
  apply (shared_cluster_ignores_provider (O := demo.all_fine) demo.config "scale"
           demo.scale_task demo.llm (kind.New (O := demo.all_fine))
           (vcluster.asProvider (O := demo.all_fine)
              (vcluster.mkProvider "" "" "values.yaml")) []);
    discriminate.
Defined.
End MoreWitnesses.
